(** * zdns: the response cache, its persisted entry format and the hijack path

    A shallow embedding of [cache.go] (package [cache]), of the parts of
    [dnsutil.go] it relies on, and of [Server.hijack], followed by the
    theorems that settle the specification's claims C1..C10.

    Conventions of the embedding.
    - Go's [uint32], [uint16], [int] and [int64] are [Z]; wrap-around is
      written out where the code can reach it ([Duration] arithmetic).
    - A [*dns.Msg] handed to the cache is a non-nil pointer to a message
      that the cache never mutates; it is embedded as the message itself.
      The two calls that take a pointer that can be nil, [Set] and
      [NewWithBackend], are in [ptr] with an optional argument.
    - A run-time panic (index out of range, nil dereference) is [None] in
      the [option] monad; every other result is [Some].
    - [c.now()] is a clock reading; the reading obtained by one call of an
      operation is an argument [now] of that operation.
    - The object behind the [Backend] interface lives outside the cache: an
      operation takes the state [b] of the backend supplied to the
      constructor and returns its new state.  The field [backend] of the
      cache says whether calls reach that object or the stateless
      [defaultBackend].
    - The channel [queue] is the list of closures sent and not yet received
      by [readQueue], oldest first.  Its bound of 1024 (a full channel
      suspends the sender until the worker receives) and the locks are not
      part of the sequential model.
    - A source name that is a keyword or a module name here carries a
      trailing underscore: [Set_], [List_], [Reset_], [Type_], [IP_],
      [hosts_]. *)

From Stdlib Require Import ZArith Lia Ascii String List.
From Stdlib Require Import Decimal DecimalString DecimalN DecimalZ.
From stdpp Require Import gmap strings list fin_maps.

Local Open Scope Z_scope.

(** ** Machine integers *)

Definition wrap64 (x : Z) : Z := (x + 2 ^ 63) mod 2 ^ 64 - 2 ^ 63.

Definition is_uint32 (x : Z) : Prop := 0 <= x < 2 ^ 32.
Definition is_int64 (x : Z) : Prop := - 2 ^ 63 <= x < 2 ^ 63.

(** ** Package [time]: wall-clock instants and durations

    An instant is a count of seconds since the epoch and a nanosecond
    offset in [0, 10^9).  Monotonic clock readings, locations and the
    overflow of the seconds counter are left out. *)

Module time.

(** [time.Duration]: an [int64] count of nanoseconds. *)
Definition Duration := Z.

Definition Second : Duration := 1000000000.

Record Time := mkTime { sec : Z; nsec : Z }.

Definition wf_Time (t : Time) : Prop := 0 <= nsec t < 1000000000.

(** The instant as a count of nanoseconds since the epoch. *)
Definition nanos (t : Time) : Z := sec t * 1000000000 + nsec t.

(** [time.Unix(sec, 0)]. *)
Definition Unix_of (secs : Z) : Time := mkTime secs 0.

(** [t.Unix()]. *)
Definition Unix (t : Time) : Z := sec t.

(** [t.Add(d)]: Go's [/] and [%] truncate towards zero. *)
Definition Add (t : Time) (d : Duration) : Time :=
  let dsec := Z.quot d 1000000000 in
  let ns := nsec t + Z.rem d 1000000000 in
  if 1000000000 <=? ns then mkTime (sec t + (dsec + 1)) (ns - 1000000000)
  else if ns <? 0 then mkTime (sec t + (dsec - 1)) (ns + 1000000000)
  else mkTime (sec t + dsec) ns.

(** [t.After(u)]. *)
Definition After (t u : Time) : bool :=
  (sec u <? sec t) || ((sec t =? sec u) && (nsec u <? nsec t)).

End time.

(** ** Package [dnsutil] and the message fields the cache reads *)

Module dns.

Definition TypeA : Z := 1.
Definition TypeAAAA : Z := 28.
Definition TypeOPT : Z := 41.
Definition RcodeSuccess : Z := 0.
Definition RcodeNameError : Z := 3.

Record RR_Header := mkHeader { Name : string; Rrtype : Z; Class : Z; Ttl : Z }.

(** A resource record, seen through its [Header()] method. *)
Record RR := mkRR { Header : RR_Header }.

Record Question := mkQuestion { QName : string; Qtype : Z; Qclass : Z }.

Record Msg := mkMsg {
  Rcode : Z;
  Questions : list Question;
  Answer : list RR;
  Ns : list RR;
  Extra : list RR
}.

(** [msg.SetQuestion(name, qtype)] on a fresh message, restricted to the
    fields above. *)
Definition SetQuestion (name : string) (qtype : Z) : Msg :=
  mkMsg 0 [mkQuestion name qtype 1] [] [] [].

End dns.

Module dnsutil.
Import dns.

Definition min (x y : Z) : Z := if x <? y then x else y.

(** The loop of [MinTTL] over one section; [skip_opt] is set for the
    additional section only. *)
Definition min_section (skip_opt : bool) (ttl : Z) (rrs : list RR) : Z :=
  fold_left
    (fun ttl rr =>
       if skip_opt && (Rrtype (Header rr) =? TypeOPT) then ttl
       else min (Ttl (Header rr)) ttl)
    rrs ttl.

(** The [uint32] computed by [MinTTL] before its conversion. *)
Definition MinTTL_seconds (msg : Msg) : Z :=
  let ttl := 2 ^ 31 - 1 in
  let ttl := min_section false ttl (Answer msg) in
  let ttl := min_section false ttl (Ns msg) in
  let ttl := min_section true ttl (Extra msg) in
  ttl.

(** [time.Duration(ttl) * time.Second]. *)
Definition MinTTL (msg : Msg) : time.Duration :=
  wrap64 (MinTTL_seconds msg * time.Second).

(** The resolver client as the cache sees it: [Exchange] yields a reply
    or an error.  Which upstream wins the fan-out is not modelled. *)
Record Client := mkClient { Exchange : Msg -> option Msg }.

End dnsutil.

(** ** Package [cache] *)

Module cache.
Import dns.

(** [Value]: a DNS message stored in the cache. *)
Record Value := mkValue { Key : Z; CreatedAt : time.Time; msg : Msg }.

(** Go's zero [Value], read from a map at a key it does not hold (its
    message pointer is nil there; the empty message stands for it). *)
Definition zeroValue : Value :=
  mkValue 0 (time.mkTime 0 0) (mkMsg 0 [] [] [] []).

#[global] Instance Value_inhabited : Inhabited Value := populate zeroValue.

(** The [Backend] interface. *)
Class Backend (B : Type) := {
  backend_Set : Z -> Value -> B -> B;
  backend_Evict : Z -> B -> B;
  backend_Read : B -> list Value;
  backend_Reset : B -> B
}.

(** [defaultBackend]: the null sink. *)
#[global] Instance defaultBackend : Backend unit := {
  backend_Set _ _ b := b;
  backend_Evict _ b := b;
  backend_Read _ := [];
  backend_Reset b := b
}.

(** What the field [backend] of a cache points to. *)
Inductive backend_ref := DefaultBackend | SuppliedBackend.

(** The closures sent on [queue]. *)
Inductive Task :=
| EvictTask (key : Z)                 (* func() { c.evictWithLock(key) } *)
| RefreshTask (key : Z) (old : Msg).  (* func() { c.refresh(key, v.msg) } *)

Record Cache := mkCache {
  client : option dnsutil.Client;
  backend : backend_ref;
  capacity : Z;
  values : gmap Z Value;
  keys : list Z;
  queue : list Task
}.

Definition set_backend (r : backend_ref) (c : Cache) : Cache :=
  mkCache (client c) r (capacity c) (values c) (keys c) (queue c).
Definition set_values (vs : gmap Z Value) (c : Cache) : Cache :=
  mkCache (client c) (backend c) (capacity c) vs (keys c) (queue c).
Definition set_keys (ks : list Z) (c : Cache) : Cache :=
  mkCache (client c) (backend c) (capacity c) (values c) ks (queue c).
Definition set_queue (q : list Task) (c : Cache) : Cache :=
  mkCache (client c) (backend c) (capacity c) (values c) (keys c) q.

(** Accessors of [Value]; indexing [Question[0]] panics on an empty
    question section. *)
Definition Value_Rcode (v : Value) : Z := Rcode (msg v).
Definition Value_Question (v : Value) : option string :=
  match Questions (msg v) with
  | [] => None
  | q :: _ => Some (QName q)
  end.
Definition Value_Qtype (v : Value) : option Z :=
  match Questions (msg v) with
  | [] => None
  | q :: _ => Some (Qtype q)
  end.
Definition Value_TTL (v : Value) : time.Duration := dnsutil.MinTTL (msg v).

Definition canCache (m : Msg) : bool :=
  if dnsutil.MinTTL m =? 0 then false
  else (Rcode m =? RcodeSuccess) || (Rcode m =? RcodeNameError).

Definition isExpired (now : time.Time) (v : Value) : bool :=
  let expiresAt := time.Add (CreatedAt v) (dnsutil.MinTTL (msg v)) in
  time.After now expiresAt.

Definition prefetch (c : Cache) : bool :=
  match client c with Some _ => true | None => false end.

Definition enqueue (op : Task) (c : Cache) : Cache :=
  set_queue (queue c ++ [op]) c.

Definition removeKey (key : Z) (c : Cache) : Cache :=
  set_keys (filter (fun k => k ≠ key) (keys c)) c.

Definition appendKey (key : Z) (c : Cache) : Cache :=
  let c := removeKey key c in
  set_keys (keys c ++ [key]) c.

Section with_backend.
Context {B : Type} `{!Backend B}.

(** [c.backend.Set], [c.backend.Evict] and [c.backend.Reset]: dynamic
    dispatch on the attached backend. *)
Definition forward_Set (c : Cache) (key : Z) (v : Value) (b : B) : B :=
  match backend c with
  | DefaultBackend => b
  | SuppliedBackend => backend_Set key v b
  end.
Definition forward_Evict (c : Cache) (key : Z) (b : B) : B :=
  match backend c with
  | DefaultBackend => b
  | SuppliedBackend => backend_Evict key b
  end.
Definition forward_Reset (c : Cache) (b : B) : B :=
  match backend c with
  | DefaultBackend => b
  | SuppliedBackend => backend_Reset b
  end.

Definition setValue (c : Cache) (b : B) (value : Value)
  : option (bool * Cache * B) :=
  if (capacity c =? 0) || negb (canCache (msg value)) then
    Some (false, c, b)
  else
    '(c, b) ←
      (if (Z.of_nat (size (values c)) =? capacity c) && (0 <? capacity c)
       then
         match keys c with
         | [] => None
         | evict :: rest =>
             let c := set_values (delete evict (values c)) c in
             let c := set_keys rest c in
             Some (c, forward_Evict c evict b)
         end
       else Some (c, b));
    let c := set_values (<[Key value := value]> (values c)) c in
    let c := appendKey (Key value) c in
    Some (true, c, forward_Set c (Key value) value b).

Definition set (c : Cache) (b : B) (now : time.Time) (key : Z) (m : Msg)
  : option (bool * Cache * B) :=
  setValue c b (mkValue key now m).

(** [Cache.Set] of a message that is not nil: the result of [set] is
    dropped. *)
Definition Set_ (c : Cache) (b : B) (now : time.Time) (key : Z) (m : Msg)
  : option (Cache * B) :=
  '(_, c, b) ← set c b now key m; Some (c, b).

Definition evict (c : Cache) (b : B) (key : Z) : Cache * B :=
  let c := set_values (delete key (values c)) c in
  let c := removeKey key c in
  (c, forward_Evict c key b).

Definition evictWithLock := evict.

Definition refresh (c : Cache) (b : B) (now : time.Time) (key : Z) (old : Msg)
  : option (Cache * B) :=
  match Questions old with
  | [] => None
  | q :: _ =>
      let m := SetQuestion (QName q) (Qtype q) in
      cl ← client c;
      match dnsutil.Exchange cl m with
      | None => Some (c, b)  (* Retry on next request *)
      | Some r =>
          '(ok, c, b) ← set c b now key r;
          if negb ok then Some (evict c b key) else Some (c, b)
      end
  end.

(** One iteration of [readQueue]: receive the oldest closure and run
    it.  [now] is the clock reading of that run. *)
Definition run_task (c : Cache) (b : B) (now : time.Time) (op : Task)
  : option (Cache * B) :=
  match op with
  | EvictTask key => Some (evictWithLock c b key)
  | RefreshTask key old => refresh c b now key old
  end.

Definition readQueue_step (c : Cache) (b : B) (now : time.Time)
  : option (Cache * B) :=
  match queue c with
  | [] => Some (c, b)
  | op :: rest => run_task (set_queue rest c) b now op
  end.

Definition getValue (c : Cache) (now : time.Time) (key : Z)
  : option Value * Cache :=
  match values c !! key with
  | None => (None, c)
  | Some v =>
      if isExpired now v then
        if negb (prefetch c) then (None, enqueue (EvictTask key) c)
        else (Some v, enqueue (RefreshTask key (msg v)) c)
      else (Some v, c)
  end.

(** [Cache.Get]: the message and the hit flag. *)
Definition Get (c : Cache) (now : time.Time) (key : Z)
  : option Msg * bool * Cache :=
  match getValue c now key with
  | (None, c) => (None, false, c)
  | (Some v, c) => (Some (msg v), true, c)
  end.

(** [make([]Value, 0, n)] panics when [n] is negative and when [n]
    values are more than the runtime allocates: more than [maxAlloc]
    bytes at [sizeof_Value] bytes each.  The figures are those of a
    64-bit platform: 2^48 bytes, and 40 bytes for the key (padded to 8),
    the 24-byte instant and the message pointer.  An allocation within
    that limit is taken to succeed. *)
Definition maxAlloc : Z := 2 ^ 48.
Definition sizeof_Value : Z := 40.
Definition make_cap_ok (n : Z) : bool :=
  (0 <=? n) && (sizeof_Value * n <=? maxAlloc).

(** [Cache.List]: panics where [make] does. *)
Definition List_ (c : Cache) (n : Z) : option (list Value) :=
  if negb (make_cap_ok n) then None
  else Some (take (Z.to_nat n) ((fun k => values c !!! k) <$> rev (keys c))).

Definition Reset_ (c : Cache) (b : B) : Cache * B :=
  let c := set_values ∅ c in
  let c := set_keys [] c in
  (c, forward_Reset c b).

(** The loop of [load] that inserts the values read from the backend. *)
Fixpoint load_values (c : Cache) (b : B) (vs : list Value)
  : option (Cache * B) :=
  match vs with
  | [] => Some (c, b)
  | v :: vs => '(_, c, b) ← setValue c b v; load_values c b vs
  end.

Definition load (c : Cache) (b : B) : option (Cache * B) :=
  if capacity c =? 0 then Some (c, backend_Reset b)
  else
    let vals := backend_Read b in
    let n := if capacity c <? Z.of_nat (length vals) then capacity c else 0 in
    (* Add the last n values from backend *)
    '(c, b) ← load_values c b (drop (Z.to_nat n) vals);
    let b :=
      if capacity c <? Z.of_nat (length vals) then
        (* Remove older entries from backend *)
        fold_left (fun b v => backend_Evict (Key v) b)
                  (take (Z.to_nat n) vals) b
      else b in
    Some (set_backend SuppliedBackend c, b).

Definition newCache (cap : Z) (cl : option dnsutil.Client) (b : B)
  : option (Cache * B) :=
  let cap := if cap <? 0 then 0 else cap in
  let c := mkCache cl DefaultBackend cap ∅ [] [] in
  load c b.

Definition NewWithBackend := newCache.

End with_backend.

(** [cache.New]: the cache over the null backend. *)
Definition New (cap : Z) (cl : option dnsutil.Client) : option (Cache * unit) :=
  NewWithBackend cap cl tt.

End cache.

(** ** A backend that records the write calls it receives

    Its state is the log of calls, oldest first.  [Read] serves the
    entries those calls leave behind, oldest insertion first. *)

Module recording.
Import cache.

Inductive Call :=
| CallSet (key : Z) (v : Value)
| CallEvict (key : Z)
| CallReset.

Definition replay_call (stored : list Value) (call : Call) : list Value :=
  match call with
  | CallSet key v => filter (fun w => Key w ≠ key) stored ++ [v]
  | CallEvict key => filter (fun w => Key w ≠ key) stored
  | CallReset => []
  end.

Definition replay (log : list Call) : list Value :=
  fold_left replay_call log [].

#[global] Instance recordingBackend : Backend (list Call) := {
  backend_Set key v log := log ++ [CallSet key v];
  backend_Evict key log := log ++ [CallEvict key];
  backend_Read log := replay log;
  backend_Reset log := log ++ [CallReset]
}.

End recording.

(** ** The persisted entry format: [Value.Pack] and [Unpack]

    Go's [string] and [[]byte] are sequences of bytes: [string] and
    [list ascii] here.  The helpers of Go's standard library are embedded
    by what they compute on such sequences. *)

Module strconv.

(** [strconv.FormatUint(n, 10)]: the decimal digits of [n], without
    leading zeros. *)
Definition FormatUint (n : Z) : string :=
  NilEmpty.string_of_uint (N.to_uint (Z.to_N n)).

(** [strconv.FormatInt(i, 10)]: a minus sign for a negative [i], then the
    digits of its magnitude. *)
Definition FormatInt (i : Z) : string :=
  if i <? 0 then String "-"%char (FormatUint (- i)) else FormatUint i.

(** The value of a non-empty string of decimal digits; any other string
    is a syntax error. *)
Definition parse_digits (s : string) : option Z :=
  d ← NilZero.uint_of_string s; Some (Z.of_uint d).

(** [strconv.ParseUint(s, 10, bitSize)]: syntax and range errors are
    both [None]. *)
Definition ParseUint (s : string) (bitSize : Z) : option Z :=
  n ← parse_digits s;
  if n <? 2 ^ bitSize then Some n else None.

(** [strconv.ParseInt(s, 10, bitSize)]: an optional sign, then digits. *)
Definition ParseInt (s : string) (bitSize : Z) : option Z :=
  match s with
  | EmptyString => None
  | String c s' =>
      let neg := Ascii.eqb c "-"%char in
      let s := if Ascii.eqb c "+"%char || neg then s' else s in
      un ← parse_digits s;
      let cutoff := 2 ^ (bitSize - 1) in
      if negb neg && (cutoff <=? un) then None
      else if neg && (cutoff <? un) then None
      else Some (if neg then - un else un)
  end.

End strconv.

Module hex.

(** [hextable]: the digit of a value below 16. *)
Definition hexdigit (n : N) : ascii :=
  match n with
  | 0 => "0" | 1 => "1" | 2 => "2" | 3 => "3" | 4 => "4" | 5 => "5"
  | 6 => "6" | 7 => "7" | 8 => "8" | 9 => "9" | 10 => "a" | 11 => "b"
  | 12 => "c" | 13 => "d" | 14 => "e" | _ => "f"
  end%N%char.

(** [reverseHexTable]: both cases of the letters are accepted. *)
Definition fromHexChar (c : ascii) : option N :=
  let n := N_of_ascii c in
  (if (48 <=? n) && (n <=? 57) then Some (n - 48)
   else if (97 <=? n) && (n <=? 102) then Some (n - 97 + 10)
   else if (65 <=? n) && (n <=? 70) then Some (n - 65 + 10)
   else None)%N.

(** [hex.EncodeToString]: two lower-case digits per byte. *)
Fixpoint EncodeToString (src : list ascii) : string :=
  match src with
  | [] => EmptyString
  | v :: src =>
      String (hexdigit (N.shiftr (N_of_ascii v) 4))
        (String (hexdigit (N.land (N_of_ascii v) 15)) (EncodeToString src))
  end.

(** [hex.DecodeString]: an odd length and a character that is not a
    hexadecimal digit are errors. *)
Fixpoint DecodeString (s : string) : option (list ascii) :=
  match s with
  | EmptyString => Some []
  | String _ EmptyString => None
  | String p (String q rest) =>
      a ← fromHexChar p;
      b ← fromHexChar q;
      dst ← DecodeString rest;
      Some (ascii_of_N (N.lor (N.shiftl a 4) b) :: dst)
  end.

End hex.

Module strings.

(** [asciiSpace]: tab, line feed, vertical tab, form feed, carriage
    return and space. *)
Definition asciiSpace (c : ascii) : bool :=
  let n := N_of_ascii c in
  ((9 <=? n) && (n <=? 13) || (n =? 32))%N.

(** The scan of [strings.Fields], with the field under construction in
    [cur].  A string with a byte of 0x80 or more makes Go split at
    Unicode white space too; this scan is Go's on ASCII strings. *)
Fixpoint fields_from (cur : string) (s : string) : list string :=
  match s with
  | EmptyString => if String.eqb cur EmptyString then [] else [cur]
  | String c s =>
      if asciiSpace c then
        if String.eqb cur EmptyString then fields_from EmptyString s
        else cur :: fields_from EmptyString s
      else fields_from (String.append cur (String c EmptyString)) s
  end.

Definition Fields (s : string) : list string := fields_from EmptyString s.

End strings.

Module wire.
Import dns cache.

Section codec.
(** The methods [Pack] and [Unpack] of [dns.Msg]: the wire codec of
    the DNS library, outside this repository. *)
Variable msg_Pack : Msg -> option (list ascii).
Variable msg_Unpack : list ascii -> option Msg.

(** [Value.Pack]. *)
Definition Pack (v : Value) : option string :=
  data ← msg_Pack (msg v);
  Some (String.append (strconv.FormatUint (Key v))
         (String.append " "%string
           (String.append (strconv.FormatInt (time.Unix (CreatedAt v)))
             (String.append " "%string (hex.EncodeToString data))))).

(** [Unpack]; every error is [None]. *)
Definition Unpack (value : string) : option Value :=
  let fields := strings.Fields value in
  if (length fields <? 3)%nat then None
  else
    f0 ← fields !! 0%nat;
    f1 ← fields !! 1%nat;
    f2 ← fields !! 2%nat;
    key ← strconv.ParseUint f0 32;
    secs ← strconv.ParseInt f1 64;
    data ← hex.DecodeString f2;
    m ← msg_Unpack data;
    Some (mkValue key (time.Unix_of secs) m).

End codec.

End wire.

(** ** The hijack path of the server *)

Module net.

(** [net.IP]: a slice of bytes; [None] below is its nil. *)
Definition IP := list ascii.

Record IPAddr := mkIPAddr { IP_ : IP; Zone : string }.

Definition isZeros (p : list ascii) : bool := forallb (Ascii.eqb Ascii.zero) p.

(** [ip.To4()]: the four-byte form of an IPv4 address, given as four
    bytes or as sixteen bytes with the prefix of an address mapped into
    IPv6; nil for anything else. *)
Definition To4 (ip : IP) : option IP :=
  if (length ip =? 4)%nat then Some ip
  else if (length ip =? 16)%nat && isZeros (take 10 ip)
          && bool_decide (ip !! 10%nat = Some (ascii_of_N 255))
          && bool_decide (ip !! 11%nat = Some (ascii_of_N 255))
  then Some (take 4 (drop 12 ip))
  else None.

(** [net.IPv4(a, b, c, d)]: the sixteen-byte form. *)
Definition IPv4 (a b c d : N) : IP :=
  repeat Ascii.zero 10 ++ [ascii_of_N 255; ascii_of_N 255]
    ++ [ascii_of_N a; ascii_of_N b; ascii_of_N c; ascii_of_N d].

Definition IPv4zero : IP := IPv4 0 0 0 0.
Definition IPv6zero : IP := repeat Ascii.zero 16.

End net.

(** Package [dns] of the repository, as far as [hijack] uses it. *)
Module zdns_dns.

Definition TypeA : Z := 1.
Definition TypeAAAA : Z := 28.

Record Request := mkRequest { Type_ : Z; Name : string }.

(** A record of an answer section: its owner, its type, its address. *)
Record Answer := mkAnswer { owner : string; rrtype : Z; addr : net.IP }.

(** Modelled from the spec: the type [Reply] of package [dns] is not among
    the sources.  A reply is seen through its answer section ("reply with
    the hostnames' configured IPs", "an empty answer section"). *)
Record Reply := mkReply { answer : list Answer }.

(** Modelled from the spec: [dns.ReplyA] is not among the sources.  The
    reply to an A question answers with the given addresses, one record
    each, in order. *)
Definition ReplyA (name : string) (ipAddr : list net.IP) : Reply :=
  mkReply (mkAnswer name TypeA <$> ipAddr).

(** Modelled from the spec: [dns.ReplyAAAA] is not among the sources.  As
    [ReplyA], with AAAA records. *)
Definition ReplyAAAA (name : string) (ipAddr : list net.IP) : Reply :=
  mkReply (mkAnswer name TypeAAAA <$> ipAddr).

End zdns_dns.

Module hosts.

(** [hosts.Hosts]: host name to addresses. *)
Abbreviation Hosts := (gmap string (list net.IPAddr)).

(** Modelled from the spec: [Hosts.Get] is not among the sources.  It
    looks the name up in the hosts map, as it is given.  [lookup] below
    has [hijack] over any lookup, and the lookup that lowercases the
    name. *)
Definition Get (h : Hosts) (name : string) : option (list net.IPAddr) :=
  h !! name.

End hosts.

Module zdns.
Import zdns_dns.

Definition HijackZero : Z := 0.
Definition HijackEmpty : Z := 1.
Definition HijackHosts : Z := 2.

(** The fields of [Server] that [hijack] reads: [Config.Filter.hijackMode]
    and [hosts]. *)
Record Server := mkServer { hijackMode : Z; hosts_ : hosts.Hosts }.

Definition nonFqdn (s : string) : string :=
  let sz := String.length s in
  if (0 <? sz)%nat && String.eqb (substring (sz - 1) 1 s) "."
  then substring 0 (sz - 1) s
  else s.

(** The loop of [hijack] in hosts mode: the addresses without a four-byte
    form go to [ipv6Addr], the others to [ipv4Addr]. *)
Definition split_families (ipAddrs : list net.IPAddr)
  : list net.IP * list net.IP :=
  fold_left
    (fun '(ipv4Addr, ipv6Addr) ipAddr =>
       match net.To4 (net.IP_ ipAddr) with
       | None => (ipv4Addr, ipv6Addr ++ [net.IP_ ipAddr])
       | Some _ => (ipv4Addr ++ [net.IP_ ipAddr], ipv6Addr)
       end)
    ipAddrs ([], []).

(** [Server.hijack]; [None] is its nil reply. *)
Definition hijack (s : Server) (r : Request) : option Reply :=
  if negb (Type_ r =? TypeA) && negb (Type_ r =? TypeAAAA) then
    None (* Type not applicable *)
  else
    match hosts.Get (hosts_ s) (nonFqdn (Name r)) with
    | None => None (* No match *)
    | Some ipAddrs =>
        if hijackMode s =? HijackZero then
          if Type_ r =? TypeA then Some (ReplyA (Name r) [net.IPv4zero])
          else if Type_ r =? TypeAAAA then Some (ReplyAAAA (Name r) [net.IPv6zero])
          else None
        else if hijackMode s =? HijackEmpty then
          Some (mkReply [])
        else if hijackMode s =? HijackHosts then
          let '(ipv4Addr, ipv6Addr) := split_families ipAddrs in
          if Type_ r =? TypeA then Some (ReplyA (Name r) ipv4Addr)
          else if Type_ r =? TypeAAAA then Some (ReplyAAAA (Name r) ipv6Addr)
          else None
        else None
    end.

(** The family of a configured address, as [hijack] decides it. *)
Definition isIPv4 (ip : net.IP) : bool :=
  match net.To4 ip with Some _ => true | None => false end.

End zdns.

(** ** Sample messages used by the concrete instances below *)

Module samples.
Import dns.

Definition rrA (name : string) (ttl : Z) : RR := mkRR (mkHeader name TypeA 1 ttl).

(** A NOERROR reply to an A question with one answer of the given TTL. *)
Definition replyA (name : string) (ttl : Z) : Msg :=
  mkMsg RcodeSuccess [mkQuestion name TypeA 1] [rrA name ttl] [] [].

(** A SERVFAIL reply without records. *)
Definition servfail (name : string) : Msg :=
  mkMsg 2 [mkQuestion name TypeA 1] [] [] [].

(** A reply whose question section is empty. *)
Definition noQuestion : Msg := mkMsg RcodeSuccess [] [] [] [].

(** The persisted sequence of scenario 6: five entries with the keys
    1..5, TTL 300, created at T0 = 1000, oldest first. *)
Definition persisted (k : Z) : cache.Value :=
  cache.mkValue k (time.mkTime 1000 0) (replyA "a.test." 300).

Definition persisted_log : list recording.Call :=
  [recording.CallSet 1 (persisted 1); recording.CallSet 2 (persisted 2);
   recording.CallSet 3 (persisted 3); recording.CallSet 4 (persisted 4);
   recording.CallSet 5 (persisted 5)].

(** A wire codec for the messages that consist of a header only: twelve
    bytes, the rcode in the low half of the fourth, all counts zero. *)
Definition header_Pack (m : Msg) : option (list ascii) :=
  match Questions m, Answer m, Ns m, Extra m with
  | [], [], [], [] =>
      if (0 <=? Rcode m) && (Rcode m <? 16) then
        Some ([Ascii.zero; Ascii.zero; ascii_of_N 128;
               ascii_of_N (Z.to_N (Rcode m))] ++ repeat Ascii.zero 8)
      else None
  | _, _, _, _ => None
  end.

Definition header_Unpack (data : list ascii) : option Msg :=
  match data with
  | [_; _; _; flags; q1; q2; a1; a2; n1; n2; e1; e2] =>
      if forallb (Ascii.eqb Ascii.zero) [q1; q2; a1; a2; n1; n2; e1; e2] then
        Some (mkMsg (Z.of_N (N.land (N_of_ascii flags) 15)) [] [] [] [])
      else None
  | _ => None
  end.

(** Scenario 4: the hosts map holds 1.2.3.4 for ads.example, in hosts
    mode. *)
Definition ads_server : zdns.Server :=
  zdns.mkServer zdns.HijackHosts
    {[ "ads.example"%string := [net.mkIPAddr (net.IPv4 1 2 3 4) EmptyString] ]}.

End samples.

(** ** Predicates and abbreviations used in the statements *)

Module text.

(** No byte of [s] is ASCII white space. *)
Fixpoint no_space (s : string) : bool :=
  match s with
  | EmptyString => true
  | String c s => negb (strings.asciiSpace c) && no_space s
  end.

(** Every byte of [s] is a decimal digit. *)
Fixpoint all_digits (s : string) : bool :=
  match s with
  | EmptyString => true
  | String c s => ((48 <=? N_of_ascii c) && (N_of_ascii c <=? 57))%N && all_digits s
  end.

(** A word: a non-empty string without white space. *)
Definition word (s : string) : Prop := s <> EmptyString /\ no_space s = true.

End text.

Module inv.
Import dns cache.

(** Every TTL of the message is a [uint32]. *)
Definition wf_Msg (m : Msg) : Prop :=
  Forall (fun rr => is_uint32 (Ttl (Header rr))) (Answer m ++ Ns m ++ Extra m).

(** [keys] lists the keys of [values], each once. *)
Definition wf (c : Cache) : Prop :=
  NoDup (keys c) /\ forall k, k ∈ keys c <-> is_Some (values c !! k).

(** The state after the store and the append of [setValue]. *)
Definition stored (c : Cache) (v : Value) : Cache :=
  appendKey (Key v) (set_values (<[Key v := v]> (values c)) c).

(** The state after [setValue] dropped the head of [keys]. *)
Definition shifted (c : Cache) (evict : Z) (rest : list Z) : Cache :=
  set_keys rest (set_values (delete evict (values c)) c).

(** A call of [Cache.Set] with the clock reading it obtains. *)
Record SetCall := mkSetCall { at_ : time.Time; key_ : Z; msg_ : Msg }.

Definition value_of (op : SetCall) : Value :=
  mkValue (key_ op) (at_ op) (msg_ op).

(** A sequence of [Cache.Set] calls, in order. *)
Fixpoint set_all {B : Type} `{!Backend B} (c : Cache) (b : B) (ops : list SetCall)
  : option (Cache * B) :=
  match ops with
  | [] => Some (c, b)
  | op :: ops =>
      '(c, b) ← Set_ c b (at_ op) (key_ op) (msg_ op); set_all c b ops
  end.

(** The insert that puts the value [v] back. *)
Definition call_of (v : Value) : SetCall :=
  mkSetCall (CreatedAt v) (Key v) (msg v).

(** A cache that holds nothing. *)
Definition empty_cache (cl : option dnsutil.Client) (r : backend_ref)
           (cap : Z) (q : list Task) : Cache :=
  mkCache cl r cap ∅ [] q.

(** The map that results from storing the values of [ops] in order. *)
Definition store_all (m : gmap Z Value) (ops : list SetCall) : gmap Z Value :=
  fold_left (fun m op => <[key_ op := value_of op]> m) ops m.

(** The operations a constructed cache goes through: calls of its
    methods and iterations of its queue worker. *)
Inductive Op :=
| OpSet (now : time.Time) (key : Z) (m : Msg)
| OpGet (now : time.Time) (key : Z)
| OpReset
| OpWork (now : time.Time).

Definition run_op {B : Type} `{!Backend B} (c : Cache) (b : B) (op : Op)
  : option (Cache * B) :=
  match op with
  | OpSet now key m => Set_ c b now key m
  | OpGet now key => Some (snd (Get c now key), b)
  | OpReset => Some (Reset_ c b)
  | OpWork now => readQueue_step c b now
  end.

Fixpoint run_ops {B : Type} `{!Backend B} (c : Cache) (b : B) (ops : list Op)
  : option (Cache * B) :=
  match ops with
  | [] => Some (c, b)
  | op :: ops => '(c, b) ← run_op c b op; run_ops c b ops
  end.

End inv.

(** ** The wire format of DNS messages

    Modelled from the spec: the methods [Pack] and [Unpack] of [dns.Msg]
    belong to the DNS library, which is not among the sources; the
    specification names the format they write, RFC 1035 section 4.  The
    codec below is that format on the fields of [Msg]: the header with the
    rcode and the four counts (identifier, opcode and flag bits are zero),
    the question entries, and the resource records with their name, type,
    class, TTL and a data length of 0, a record of the model being its
    header.  Names are written without compression.  A name is packed
    when it is fully qualified and made of plain labels: the root [.], or
    non-empty labels of at most 63 printable bytes, none of them one that
    the presentation format escapes, each followed by a dot, within 255
    bytes on the wire.  A name that is not fully qualified or has an
    empty or overlong label is an error, as are an rcode that does not
    fit the four bits of the header and a section of more than 65535
    entries.  The escapes of the presentation format are left out: a
    name with a byte that is not plain is an error here too. *)

Module rfc1035.
Import dns.

Definition byte_of (n : Z) : ascii := ascii_of_N (Z.to_N (n mod 256)).
Definition val (c : ascii) : Z := Z.of_N (N_of_ascii c).

(** Big-endian 16-bit and 32-bit fields. *)
Definition put16 (v : Z) : list ascii := [byte_of (v / 256); byte_of v].
Definition put32 (v : Z) : list ascii :=
  [byte_of (v / 16777216); byte_of (v / 65536); byte_of (v / 256); byte_of v].
Definition get16 (a b : ascii) : Z := val a * 256 + val b.
Definition get32 (a b c d : ascii) : Z :=
  ((val a * 256 + val b) * 256 + val c) * 256 + val d.

(** The bytes that the presentation format of a name escapes with a
    backslash: dot, space, quote, at sign, semicolon, parentheses, double
    quote and the backslash itself. *)
Definition special (n : N) : bool :=
  ((n =? 46) || (n =? 32) || (n =? 39) || (n =? 64) || (n =? 59) ||
   (n =? 40) || (n =? 41) || (n =? 34) || (n =? 92))%N.

(** A byte that stands for itself in a name: printable and not
    escaped. *)
Definition plain (c : ascii) : bool :=
  let n := N_of_ascii c in
  ((33 <=? n) && (n <=? 126))%N && negb (special n).

(** The labels of a name in presentation format, with the label under
    construction in [cur]. *)
Fixpoint labels_from (cur : list ascii) (s : string)
  : option (list (list ascii)) :=
  match s with
  | EmptyString =>
      match cur with
      | [] => Some []
      | _ => None (* not fully qualified *)
      end
  | String c s =>
      if Ascii.eqb c "."%char then
        match cur with
        | [] => None (* an empty label *)
        | _ => ls ← labels_from [] s; Some (cur :: ls)
        end
      else if plain c then labels_from (cur ++ [c]) s
      else None
  end.

Definition labels_of (s : string) : option (list (list ascii)) :=
  if String.eqb s "."%string then Some []
  else if String.eqb s EmptyString then None
  else labels_from [] s.

(** A label on the wire: its length, then its bytes.  The root label,
    of length 0, ends the name. *)
Definition encode_label (l : list ascii) : list ascii :=
  byte_of (Z.of_nat (length l)) :: l.

Definition encode_labels (ls : list (list ascii)) : list ascii :=
  concat (encode_label <$> ls) ++ [Ascii.zero].

Definition pack_name (s : string) : option (list ascii) :=
  ls ← labels_of s;
  if forallb (fun l => (length l <=? 63)%nat) ls
     && (length (encode_labels ls) <=? 255)%nat
  then Some (encode_labels ls)
  else None.

(** The bytes [l] followed by the string [s]. *)
Definition app_chars (l : list ascii) (s : string) : string :=
  fold_right String s l.

(** The presentation format of a sequence of labels. *)
Fixpoint render (ls : list (list ascii)) : string :=
  match ls with
  | [] => EmptyString
  | l :: ls => app_chars l (String "."%char (render ls))
  end.

Definition name_of (ls : list (list ascii)) : string :=
  match ls with
  | [] => "."%string
  | _ => render ls
  end.

(** The labels at the head of [data] and the bytes after the root label.
    Each label takes one unit of [fuel]. *)
Fixpoint unpack_labels (fuel : nat) (data : list ascii)
  : option (list (list ascii) * list ascii) :=
  match fuel, data with
  | S fuel, c :: rest =>
      let n := N.to_nat (N_of_ascii c) in
      if (n =? 0)%nat then Some ([], rest)
      else if (63 <? n)%nat then None (* a pointer or a reserved length *)
      else if (length rest <? n)%nat then None
      else
        let l := take n rest in
        if forallb plain l then
          '(ls, rest) ← unpack_labels fuel (drop n rest); Some (l :: ls, rest)
        else None
  | _, _ => None
  end.

Definition unpack_name (data : list ascii) : option (string * list ascii) :=
  '(ls, rest) ← unpack_labels (length data) data; Some (name_of ls, rest).

Definition pack_question (q : Question) : option (list ascii) :=
  name ← pack_name (QName q);
  Some (name ++ put16 (Qtype q) ++ put16 (Qclass q)).

Definition unpack_question (data : list ascii)
  : option (Question * list ascii) :=
  '(name, rest) ← unpack_name data;
  match rest with
  | t1 :: t2 :: c1 :: c2 :: rest =>
      Some (mkQuestion name (get16 t1 t2) (get16 c1 c2), rest)
  | _ => None
  end.

Definition pack_rr (rr : RR) : option (list ascii) :=
  let h := Header rr in
  name ← pack_name (Name h);
  Some (name ++ put16 (Rrtype h) ++ put16 (Class h) ++ put32 (Ttl h)
          ++ put16 0).

(** The data of a record is skipped. *)
Definition unpack_rr (data : list ascii) : option (RR * list ascii) :=
  '(name, rest) ← unpack_name data;
  match rest with
  | t1 :: t2 :: c1 :: c2 :: l1 :: l2 :: l3 :: l4 :: d1 :: d2 :: rest =>
      let rdlength := Z.to_nat (get16 d1 d2) in
      if (length rest <? rdlength)%nat then None
      else
        Some (mkRR (mkHeader name (get16 t1 t2) (get16 c1 c2)
                      (get32 l1 l2 l3 l4)),
              drop rdlength rest)
  | _ => None
  end.

Fixpoint pack_all {A : Type} (pack : A -> option (list ascii)) (xs : list A)
  : option (list ascii) :=
  match xs with
  | [] => Some []
  | x :: xs => a ← pack x; b ← pack_all pack xs; Some (a ++ b)
  end.

Fixpoint unpack_n {A : Type} (unpack : list ascii -> option (A * list ascii))
         (n : nat) (data : list ascii) : option (list A * list ascii) :=
  match n with
  | O => Some ([], data)
  | S n =>
      '(x, rest) ← unpack data;
      '(xs, rest) ← unpack_n unpack n rest;
      Some (x :: xs, rest)
  end.

Definition count_ok {A : Type} (xs : list A) : bool :=
  Z.of_nat (length xs) <? 65536.

Definition put_count {A : Type} (xs : list A) : list ascii :=
  put16 (Z.of_nat (length xs)).

Definition Pack (m : Msg) : option (list ascii) :=
  if (0 <=? Rcode m) && (Rcode m <? 16)
     && count_ok (Questions m) && count_ok (Answer m)
     && count_ok (Ns m) && count_ok (Extra m)
  then
    qd ← pack_all pack_question (Questions m);
    an ← pack_all pack_rr (Answer m);
    ns ← pack_all pack_rr (Ns m);
    ar ← pack_all pack_rr (Extra m);
    Some ([Ascii.zero; Ascii.zero; Ascii.zero; byte_of (Rcode m)]
            ++ put_count (Questions m) ++ put_count (Answer m)
            ++ put_count (Ns m) ++ put_count (Extra m)
            ++ qd ++ an ++ ns ++ ar)
  else None.

Definition Unpack (data : list ascii) : option Msg :=
  match data with
  | _ :: _ :: _ :: f2 :: q1 :: q2 :: a1 :: a2 :: n1 :: n2 :: r1 :: r2 :: rest =>
      '(qd, rest) ← unpack_n unpack_question (Z.to_nat (get16 q1 q2)) rest;
      '(an, rest) ← unpack_n unpack_rr (Z.to_nat (get16 a1 a2)) rest;
      '(ns, rest) ← unpack_n unpack_rr (Z.to_nat (get16 n1 n2)) rest;
      '(ar, rest) ← unpack_n unpack_rr (Z.to_nat (get16 r1 r2)) rest;
      Some (mkMsg (val f2 mod 16) qd an ns ar)
  | _ => None
  end.



Definition is_uint16 (x : Z) : Prop := 0 <= x < 65536.







End rfc1035.
(** ** Further definitions: statistics, reachable states, the queue *)

Module stats.
Import dns cache inv.

(** [Stats]: cache statistics. *)
Record Stats := mkStats { Size : Z; Capacity : Z; PendingTasks : Z }.

(** [Cache.Stats]. *)
Definition Cache_Stats (c : Cache) : Stats :=
  mkStats (Z.of_nat (size (values c))) (capacity c) (Z.of_nat (length (queue c))).

(** The state invariant of the cache: [keys] lists the keys of [values]
    once each, the size is within the capacity, every entry is stored under
    its own key and holds a cacheable message. *)
Definition Inv (c : Cache) : Prop :=
  wf c /\
  Z.of_nat (size (values c)) <= capacity c /\
  (forall k v, values c !! k = Some v -> Key v = k /\ canCache (msg v) = true).

(** The entries of the cache in the order of [keys], oldest insert first. *)
Definition entries (c : Cache) : list Value :=
  (fun k => values c !!! k) <$> keys c.

(** The state in which the log of the recording backend replays to the
    entries of the cache, which forwards to it. *)
Definition mirrored (c : Cache) (b : list recording.Call) : Prop :=
  Inv c /\ backend c = SuppliedBackend /\ recording.replay b = entries c.

End stats.

Module ttl.
Import dns.

(** The records whose TTL counts for [MinTTL]: the answer section, the
    authority section, and the additional section without its OPT
    records. *)
Definition counted (m : Msg) : list RR :=
  Answer m ++ Ns m ++
  filter (fun rr => Rrtype (Header rr) ≠ TypeOPT) (Extra m).

End ttl.

(** ** The cache key: [NewKey] *)

Module fnv.

(** Package [hash/fnv], 32-bit FNV-1a. *)
Definition offset32 : Z := 2166136261.
Definition prime32 : Z := 16777619.

(** One byte of [sum32a.Write]: [hash ^= c; hash *= prime32] on a
    [uint32]. *)
Definition step (hash c : Z) : Z := (Z.lxor hash c * prime32) mod 2 ^ 32.

Definition Write (hash : Z) (data : list Z) : Z := fold_left step data hash.

End fnv.

Module binary.

(** [binary.Write(h, binary.BigEndian, v)] for a [uint16]: the bytes
    [byte(v >> 8)] and [byte(v)]. *)
Definition BigEndian_uint16 (v : Z) : list Z :=
  [Z.shiftr v 8 mod 256; v mod 256].

End binary.

Module key.

Definition is_uint16 (x : Z) : Prop := 0 <= x < 2 ^ 16.
Definition is_byte (c : Z) : Prop := 0 <= c < 256.

(** [[]byte(name)]. *)
Definition bytes (name : string) : list Z :=
  (fun c => Z.of_N (N_of_ascii c)) <$> list_ascii_of_string name.

(** [NewKey]: the cache key for the DNS name, qtype and qclass. *)
Definition NewKey (name : string) (qtype qclass : Z) : Z :=
  let h := fnv.offset32 in
  let h := fnv.Write h (bytes name) in
  let h := fnv.Write h (binary.BigEndian_uint16 qtype) in
  let h := fnv.Write h (binary.BigEndian_uint16 qclass) in
  h.

End key.

(** ** The resolver fan-out: [multiExchange]

    Every goroutine of [multiExchange] calls [Exchange] once and sends once,
    a reply on [responses] or a wrapped error on [errs]; both channels have
    room for all of them, so no send waits.  The order in which the
    goroutines send is an input of the model, [arrival]: the addresses in
    the order in which their exchanges complete.  Every exchange is taken
    to return (the clients carry a timeout). *)

Module resolver.
Import dns.

(** The error values of [multiExchange].  [NilError] is the nil that a
    receive on the closed and empty [errs] yields. *)
Inductive Error :=
| NoAddresses                                  (* "no addresses to query" *)
| ResolverFailed (addr : string) (err : string) (* "resolver %s failed: %w" *)
| NilError.

(** [Exchanger.Exchange(msg, addr)]: a reply or an error. *)
Definition Exchanger := Msg -> string -> Msg + string.

(** The values on the channel [responses], in the order sent. *)
Definition responses (exchanger : Exchanger) (msg : Msg) (arrival : list string)
  : list Msg :=
  omap (fun addr => match exchanger msg addr with
                    | inl r => Some r
                    | inr _ => None
                    end) arrival.

(** The values on the channel [errs], in the order sent. *)
Definition errs (exchanger : Exchanger) (msg : Msg) (arrival : list string)
  : list Error :=
  omap (fun addr => match exchanger msg addr with
                    | inl _ => None
                    | inr err => Some (ResolverFailed addr err)
                    end) arrival.

Definition multiExchange (exchanger : Exchanger) (msg : Msg)
           (address arrival : list string) : Msg + Error :=
  if (length address =? 0)%nat then inr NoAddresses
  else
    match responses exchanger msg arrival with
    | rr :: _ => inl rr
    | [] =>
        match errs exchanger msg arrival with
        | e :: _ => inr e
        | [] => inr NilError
        end
    end.

(** [dnsutil.Client] with its two fields, and [Client.Exchange]. *)
Record Client := mkClient { Exchanger_ : Exchanger; Addresses : list string }.

Definition Exchange (c : Client) (msg : Msg) (arrival : list string)
  : Msg + Error :=
  multiExchange (Exchanger_ c) msg (Addresses c) arrival.

End resolver.

(** ** Loading the hosts map: [Server.loadHosts] *)

Module filters.
Import zdns.

(** An element of [Config.Filters], by the fields [loadHosts] reads; its
    declaration is not among the sources. *)
Record Filter := mkFilter { URL : string; Reject : bool; hosts_of : hosts.Hosts }.

(** Modelled from the spec: [Hosts.Del] is not among the sources.  It
    removes the name from the hosts map. *)
Definition Del (h : hosts.Hosts) (name : string) : hosts.Hosts := delete name h.

Section with_reader.
(** [readHosts]: the hosts read from a URL, or an error.  It opens files
    and connections; its outcome is an input of the model. *)
Variable readHosts : string -> option hosts.Hosts.

(** The hosts of one filter: inline, or read from its URL. *)
Definition source (f : Filter) : option hosts.Hosts :=
  if negb (String.eqb (URL f) EmptyString) then readHosts (URL f)
  else Some (hosts_of f).

(** The body of the loop of [loadHosts] for one filter.  The two inner
    loops range over the map [hs1]. *)
Definition apply_filter (hs : hosts.Hosts) (f : Filter) : hosts.Hosts :=
  match source f with
  | None => hs (* failed to read hosts: continue *)
  | Some hs1 =>
      if Reject f then
        map_fold (fun name ipAddrs hs => <[name := ipAddrs]> hs) hs hs1
      else
        map_fold (fun hostToRemove _ hs =>
                    match hosts.Get hs hostToRemove with
                    | Some _ => Del hs hostToRemove
                    | None => hs
                    end) hs hs1
  end.

(** [Server.loadHosts]: the hosts map built from the filters, in order,
    replaces the map of the server. *)
Definition loadHosts (filters : list Filter) (s : Server) : Server :=
  let hs := fold_left apply_filter filters ∅ in
  mkServer (hijackMode s) hs.

End with_reader.

End filters.


(** ** The exported calls with their pointer arguments

    [Cache.Set] takes a [*dns.Msg] and [NewWithBackend] a value of the
    interface [Backend]; either can be nil, which is [None] here. *)

Module ptr.
Import dns cache.

Section with_backend.
Context {B : Type} `{!Backend B}.

(** [NewWithBackend(capacity, client, backend)]: [load] calls [Reset] on
    the backend when the capacity is 0 and [Read] otherwise, a nil
    dereference on a nil interface value in either branch. *)
Definition NewWithBackend (cap : Z) (cl : option dnsutil.Client)
           (backend : option B) : option (Cache * B) :=
  match backend with
  | None => None
  | Some b => cache.NewWithBackend cap cl b
  end.

(** [Cache.Set(key, msg)]: [setValue] returns before it looks at the
    message when the capacity is 0; otherwise [canCache] ranges over
    [msg.Answer] in [MinTTL], a nil dereference when [msg] is nil. *)
Definition Set_ (c : Cache) (b : B) (now : time.Time) (key : Z)
           (msg : option Msg) : option (Cache * B) :=
  match msg with
  | None => if capacity c =? 0 then Some (c, b) else None
  | Some m => cache.Set_ c b now key m
  end.

(** A call of [Set], [Get] or [Reset] with the clock reading it obtains. *)
Inductive Call :=
| DoSet (now : time.Time) (key : Z) (msg : option Msg)
| DoGet (now : time.Time) (key : Z)
| DoReset.



End with_backend.


End ptr.

(** ** [Server.hijack] over any lookup *)

Module lookup.
Import zdns_dns zdns.

(** [Server.hijack] with the lookup of the hosts map as a parameter in
    the place of [Hosts.Get], which is not among the sources. *)
Definition hijack_with (get : hosts.Hosts -> string -> option (list net.IPAddr))
           (s : Server) (r : Request) : option Reply :=
  if negb (Type_ r =? TypeA) && negb (Type_ r =? TypeAAAA) then
    None (* Type not applicable *)
  else
    match get (hosts_ s) (nonFqdn (Name r)) with
    | None => None (* No match *)
    | Some ipAddrs =>
        if hijackMode s =? HijackZero then
          if Type_ r =? TypeA then Some (ReplyA (Name r) [net.IPv4zero])
          else if Type_ r =? TypeAAAA then Some (ReplyAAAA (Name r) [net.IPv6zero])
          else None
        else if hijackMode s =? HijackEmpty then
          Some (mkReply [])
        else if hijackMode s =? HijackHosts then
          let '(ipv4Addr, ipv6Addr) := split_families ipAddrs in
          if Type_ r =? TypeA then Some (ReplyA (Name r) ipv4Addr)
          else if Type_ r =? TypeAAAA then Some (ReplyAAAA (Name r) ipv6Addr)
          else None
        else None
    end.

(** ASCII lower case, as [strings.ToLower] gives it on ASCII text. *)
Definition lower (c : ascii) : ascii :=
  if ((65 <=? N_of_ascii c) && (N_of_ascii c <=? 90))%N
  then ascii_of_N (N_of_ascii c + 32)
  else c.

Fixpoint ToLower (s : string) : string :=
  match s with
  | EmptyString => EmptyString
  | String c s => String (lower c) (ToLower s)
  end.

(** Modelled from the spec: the lookup of section 4.4, which lowercases
    the name before it reads the hosts map. *)
Definition GetFold (h : hosts.Hosts) (name : string)
  : option (list net.IPAddr) :=
  h !! ToLower name.

End lookup.
(** ** Sample runs used by the concrete instances of the further properties *)

Module runs.
Import dns cache inv.

Definition t0 : time.Time := time.mkTime 1000 0.
Definition m60 : Msg := samples.replyA "a.test." 60.
Definition val (k : Z) : Value := mkValue k t0 m60.

(** Calls on a cache of capacity 2: three inserts, a read, a re-insert. *)
Definition calls : list Op :=
  [OpSet t0 1 m60; OpSet t0 2 m60; OpSet t0 3 m60;
   OpGet (time.mkTime 1010 0) 2; OpSet t0 2 m60].

(** The cache of capacity 2 that holds the keys 1 and 2. *)
Definition cache12 (cl : option dnsutil.Client) (r : backend_ref) : Cache :=
  stored (stored (empty_cache cl r 2 []) (val 1)) (val 2).

(** The caches and the backend log that [calls] lead to: the third insert
    drops key 1, the re-insert of key 2 into the full cache drops the head,
    which is key 2 itself. *)
Definition cache23 : Cache :=
  stored (shifted (cache12 None SuppliedBackend) 1 [2]) (val 3).

Definition cache32 : Cache := stored (shifted cache23 2 [3]) (val 2).

Definition log32 : list recording.Call :=
  [recording.CallSet 1 (val 1); recording.CallSet 2 (val 2);
   recording.CallEvict 1; recording.CallSet 3 (val 3);
   recording.CallEvict 2; recording.CallSet 2 (val 2)].

End runs.

(** ** Time and TTL arithmetic *)

Module time_facts.
Import time.

Lemma Add_seconds (t : Time) (s : Z) :
  wf_Time t -> 0 <= s ->
  Add t (s * Second) = mkTime (sec t + s) (nsec t).
Proof.
  intros Ht Hs. unfold Add, Second, wf_Time in *.
  rewrite Z.quot_mul, Z.rem_mul by lia.
  rewrite Z.add_0_r.
  destruct (Z.leb_spec 1000000000 (nsec t)); [lia |].
  destruct (Z.ltb_spec (nsec t) 0); [lia | reflexivity].
Qed.

Lemma After_nanos (t u : Time) :
  wf_Time t -> wf_Time u ->
  After t u = true <-> nanos u < nanos t.
Proof.
  unfold After, nanos, wf_Time. intros Ht Hu.
  rewrite orb_true_iff, andb_true_iff, !Z.ltb_lt, Z.eqb_eq.
  split; [intros [H | [H1 H2]]; nia | intros H].
  destruct (Z.lt_trichotomy (sec u) (sec t)) as [Hlt | [Heq | Hgt]];
    [left; lia | right; split; [lia | nia] | nia].
Qed.

End time_facts.

Module dnsutil_facts.
Import dns dnsutil inv.

Lemma wrap64_small (x : Z) : is_int64 x -> wrap64 x = x.
Proof.
  unfold is_int64, wrap64. intros H.
  rewrite Z.mod_small; lia.
Qed.

Lemma min_section_range (skip : bool) (lo hi ttl : Z) (rrs : list RR) :
  lo <= ttl <= hi ->
  Forall (fun rr => lo <= Ttl (Header rr)) rrs ->
  lo <= min_section skip ttl rrs <= hi.
Proof.
  unfold min_section. revert ttl.
  induction rrs as [| rr rrs IH]; intros ttl Httl Hall; simpl; [exact Httl |].
  inversion Hall as [| ? ? Hrr Hrest]; subst.
  apply IH; [| exact Hrest].
  destruct (skip && (Rrtype (Header rr) =? TypeOPT))%bool; [exact Httl |].
  unfold min. destruct (Z.ltb_spec (Ttl (Header rr)) ttl); lia.
Qed.

Lemma MinTTL_seconds_range (m : Msg) :
  wf_Msg m -> 0 <= MinTTL_seconds m <= 2 ^ 31 - 1.
Proof.
  unfold wf_Msg, MinTTL_seconds. intros H.
  apply Forall_app in H as [Ha H]. apply Forall_app in H as [Hn He].
  assert (Hlo : forall l, Forall (fun rr => is_uint32 (Ttl (Header rr))) l ->
                          Forall (fun rr => 0 <= Ttl (Header rr)) l).
  { intros l Hl. eapply Forall_impl; [exact Hl |].
    intros rr Hrr. unfold is_uint32 in Hrr. simpl in Hrr. lia. }
  repeat apply min_section_range; auto; lia.
Qed.

Lemma MinTTL_exact (m : Msg) :
  wf_Msg m -> MinTTL m = MinTTL_seconds m * time.Second.
Proof.
  intros H. apply MinTTL_seconds_range in H.
  unfold MinTTL. apply wrap64_small.
  unfold is_int64, time.Second. lia.
Qed.

Lemma MinTTL_zero (m : Msg) : MinTTL_seconds m = 0 -> MinTTL m = 0.
Proof. unfold MinTTL. intros ->. reflexivity. Qed.

Lemma MinTTL_zero_iff (m : Msg) :
  wf_Msg m -> MinTTL m = 0 <-> MinTTL_seconds m = 0.
Proof.
  intros H. rewrite MinTTL_exact by exact H. unfold time.Second. lia.
Qed.

End dnsutil_facts.

(** ** The cache: structural invariant and the two cases of an insert *)

Module cache_facts.
Import dns cache inv.

Lemma wf_size (c : Cache) : wf c -> size (values c) = length (keys c).
Proof.
  intros [Hnd Hdom].
  rewrite <- size_dom.
  assert (Heq : dom (values c) = list_to_set (keys c)).
  { apply set_eq. intros k.
    rewrite elem_of_dom, elem_of_list_to_set. symmetry. apply Hdom. }
  rewrite Heq. apply size_list_to_set. exact Hnd.
Qed.

Lemma canCache_false_of (m : Msg) :
  dnsutil.MinTTL_seconds m = 0 \/
  (Rcode m <> RcodeSuccess /\ Rcode m <> RcodeNameError) ->
  canCache m = false.
Proof.
  unfold canCache. intros [Httl | [H0 H3]].
  - rewrite (dnsutil_facts.MinTTL_zero m Httl). reflexivity.
  - destruct (dnsutil.MinTTL m =? 0); [reflexivity |].
    apply orb_false_iff. split; apply Z.eqb_neq; assumption.
Qed.

Lemma canCache_false_iff (m : Msg) :
  wf_Msg m ->
  canCache m = false <->
  (dnsutil.MinTTL_seconds m = 0 \/
   (Rcode m <> RcodeSuccess /\ Rcode m <> RcodeNameError)).
Proof.
  intros Hwf. split; [| apply canCache_false_of].
  unfold canCache.
  destruct (Z.eqb_spec (dnsutil.MinTTL m) 0) as [Hz | Hnz].
  - intros _. left. apply dnsutil_facts.MinTTL_zero_iff; assumption.
  - intros H. right. apply orb_false_iff in H as [H0 H3].
    split; apply Z.eqb_neq; assumption.
Qed.

Section with_backend.
Context {B : Type} `{!Backend B}.

Lemma setValue_dropped (c : Cache) (b : B) (v : Value) :
  capacity c = 0 \/ canCache (msg v) = false ->
  setValue c b v = Some (false, c, b).
Proof.
  unfold setValue. intros [Hc | Hm].
  - rewrite Hc. reflexivity.
  - rewrite Hm, orb_true_r. reflexivity.
Qed.

Lemma setValue_room (c : Cache) (b : B) (v : Value) :
  capacity c <> 0 -> canCache (msg v) = true ->
  Z.of_nat (size (values c)) <> capacity c ->
  setValue c b v = Some (true, stored c v, forward_Set c (Key v) v b).
Proof.
  intros Hc Hm Hsz. unfold setValue.
  apply Z.eqb_neq in Hc. apply Z.eqb_neq in Hsz.
  rewrite Hc, Hm, Hsz. reflexivity.
Qed.

Lemma setValue_full (c : Cache) (b : B) (v : Value) (evict : Z) (rest : list Z) :
  0 < capacity c -> canCache (msg v) = true ->
  Z.of_nat (size (values c)) = capacity c ->
  keys c = evict :: rest ->
  setValue c b v =
  Some (true, stored (shifted c evict rest) v,
        forward_Set c (Key v) v (forward_Evict c evict b)).
Proof.
  intros Hc Hm Hsz Hk. unfold setValue.
  assert (Hc0 : (capacity c =? 0) = false) by (apply Z.eqb_neq; lia).
  apply Z.eqb_eq in Hsz. apply Z.ltb_lt in Hc.
  rewrite Hc0, Hm, Hsz, Hc, Hk. reflexivity.
Qed.

Lemma set_dropped (c : Cache) (b : B) (now : time.Time) (k : Z) (m : Msg) :
  dnsutil.MinTTL_seconds m = 0 \/
  (Rcode m <> RcodeSuccess /\ Rcode m <> RcodeNameError) ->
  set c b now k m = Some (false, c, b) /\ Set_ c b now k m = Some (c, b).
Proof.
  intros Hm. apply canCache_false_of in Hm.
  assert (Hset : set c b now k m = Some (false, c, b)).
  { unfold set. apply setValue_dropped. right. exact Hm. }
  split; [exact Hset |]. unfold Set_. rewrite Hset. reflexivity.
Qed.

Lemma filter_ne_fresh (k : Z) (l : list Z) :
  k ∉ l -> filter (fun k' => k' ≠ k) l = l.
Proof.
  induction l as [| x l IH]; intros Hk; [reflexivity |].
  apply not_elem_of_cons in Hk as [Hx Hl].
  rewrite filter_cons_True by congruence.
  f_equal. apply IH. exact Hl.
Qed.

Lemma keys_stored (c : Cache) (v : Value) :
  keys (stored c v) = filter (fun k => k ≠ Key v) (keys c) ++ [Key v].
Proof. reflexivity. Qed.

Lemma values_stored (c : Cache) (v : Value) :
  values (stored c v) = <[Key v := v]> (values c).
Proof. reflexivity. Qed.

Lemma wf_stored (c : Cache) (v : Value) : wf c -> wf (stored c v).
Proof.
  intros [Hnd Hdom]. split.
  - rewrite keys_stored. apply NoDup_app. split; [| split].
    + apply NoDup_filter. exact Hnd.
    + intros k Hk Hk'. apply list_elem_of_filter in Hk as [Hne _].
      apply list_elem_of_singleton in Hk'. contradiction.
    + apply NoDup_singleton.
  - intros k. rewrite keys_stored, values_stored, elem_of_app,
      list_elem_of_filter, list_elem_of_singleton, Hdom.
    destruct (decide (k = Key v)) as [-> | Hne].
    + rewrite lookup_insert_eq. split; [eauto | intros _; right; reflexivity].
    + rewrite lookup_insert_ne by congruence. tauto.
Qed.

Lemma wf_shifted (c : Cache) (evict : Z) (rest : list Z) :
  wf c -> keys c = evict :: rest -> wf (shifted c evict rest).
Proof.
  intros [Hnd Hdom] Hk. rewrite Hk in Hnd.
  apply NoDup_cons in Hnd as [Hfresh Hnd].
  split; [exact Hnd |]. intros k. simpl.
  destruct (decide (k = evict)) as [-> | Hne].
  - rewrite lookup_delete_eq. split; [contradiction | intros [? [=]]].
  - rewrite lookup_delete_ne by congruence. rewrite <- Hdom, Hk.
    rewrite elem_of_cons. tauto.
Qed.

Lemma wf_None (c : Cache) (k : Z) : wf c -> k ∉ keys c -> values c !! k = None.
Proof.
  intros [_ Hdom] Hk. apply eq_None_not_Some. rewrite <- Hdom. exact Hk.
Qed.

(** An insert of a key that is not cached, below capacity. *)
Lemma setValue_fresh (c : Cache) (b : B) (v : Value) :
  wf c -> canCache (msg v) = true -> Key v ∉ keys c ->
  Z.of_nat (length (keys c)) < capacity c ->
  setValue c b v = Some (true, stored c v, forward_Set c (Key v) v b) /\
  keys (stored c v) = keys c ++ [Key v].
Proof.
  intros Hwf Hm Hk Hlen. split.
  - apply setValue_room; [lia | exact Hm |].
    rewrite (wf_size c Hwf). lia.
  - rewrite keys_stored, filter_ne_fresh by exact Hk. reflexivity.
Qed.

(** An insert of a key that is not cached, at capacity: the head of
    [keys] is dropped. *)
Lemma setValue_overflow (c : Cache) (b : B) (v : Value) (evict : Z) (rest : list Z) :
  wf c -> canCache (msg v) = true -> Key v ∉ keys c ->
  keys c = evict :: rest ->
  Z.of_nat (length (keys c)) = capacity c ->
  setValue c b v =
  Some (true, stored (shifted c evict rest) v,
        forward_Set c (Key v) v (forward_Evict c evict b)) /\
  keys (stored (shifted c evict rest) v) = rest ++ [Key v].
Proof.
  intros Hwf Hm Hk Hkeys Hlen. split.
  - apply setValue_full; [rewrite Hkeys in Hlen; simpl in Hlen; lia
                         | exact Hm | | exact Hkeys].
    rewrite (wf_size c Hwf). exact Hlen.
  - rewrite keys_stored. simpl. rewrite filter_ne_fresh; [reflexivity |].
    rewrite Hkeys in Hk. apply not_elem_of_cons in Hk. tauto.
Qed.

Lemma set_all_app (c : Cache) (b : B) (l1 l2 : list SetCall) :
  set_all c b (l1 ++ l2) =
  set_all c b l1 ≫= (fun '(c, b) => set_all c b l2).
Proof.
  revert c b. induction l1 as [| op l1 IH]; intros c b; [reflexivity |].
  simpl. destruct (Set_ c b (at_ op) (key_ op) (msg_ op)) as [[c1 b1] |];
    [apply IH | reflexivity].
Qed.

Lemma store_all_other (m : gmap Z Value) (ops : list SetCall) (k : Z) :
  k ∉ key_ <$> ops -> store_all m ops !! k = m !! k.
Proof.
  unfold store_all. revert m.
  induction ops as [| op ops IH]; intros m Hk; [reflexivity |].
  rewrite fmap_cons in Hk. apply not_elem_of_cons in Hk as [Hne Hk].
  simpl. rewrite IH by exact Hk. apply lookup_insert_ne. congruence.
Qed.

Lemma store_all_lookup (m : gmap Z Value) (ops : list SetCall) (op : SetCall) :
  NoDup (key_ <$> ops) -> op ∈ ops ->
  store_all m ops !! key_ op = Some (value_of op).
Proof.
  unfold store_all. revert m.
  induction ops as [| o ops IH]; intros m Hnd Hin; [inversion Hin |].
  rewrite fmap_cons in Hnd. apply NoDup_cons in Hnd as [Hfresh Hnd].
  apply elem_of_cons in Hin as [-> | Hin]; simpl.
  - fold (store_all (<[key_ o := value_of o]> m) ops).
    rewrite store_all_other by exact Hfresh. apply lookup_insert_eq.
  - apply IH; assumption.
Qed.

(** Inserts of distinct keys that are not cached and fit the capacity
    append to [keys] and evict nothing. *)
Lemma set_all_fill (c : Cache) (b : B) (ops : list SetCall) :
  wf c ->
  (forall op, op ∈ ops -> canCache (msg_ op) = true) ->
  NoDup (key_ <$> ops) ->
  (forall op, op ∈ ops -> key_ op ∉ keys c) ->
  Z.of_nat (length (keys c) + length ops) <= capacity c ->
  exists c' b',
    set_all c b ops = Some (c', b') /\ wf c' /\
    keys c' = keys c ++ (key_ <$> ops) /\
    values c' = store_all (values c) ops /\
    capacity c' = capacity c /\
    b' = fold_left (fun b op => forward_Set c (key_ op) (value_of op) b) ops b.
Proof.
  revert c b. induction ops as [| op ops IH]; intros c b Hwf Hm Hnd Hfresh Hlen.
  - exists c, b. simpl. rewrite app_nil_r. auto 6.
  - rewrite fmap_cons in Hnd. apply NoDup_cons in Hnd as [Hop Hnd].
    destruct (setValue_fresh c b (value_of op) Hwf) as [Hs Hk].
    { apply Hm. left. }
    { apply Hfresh. left. }
    { simpl in Hlen. lia. }
    destruct (IH (stored c (value_of op))
                 (forward_Set c (key_ op) (value_of op) b))
      as (c' & b' & Hrun & Hwf' & Hkeys & Hvals & Hcap & Hb').
    { apply wf_stored. exact Hwf. }
    { intros o Ho. apply Hm. right. exact Ho. }
    { exact Hnd. }
    { intros o Ho. rewrite Hk. rewrite not_elem_of_app. split.
      - apply Hfresh. right. exact Ho.
      - rewrite list_elem_of_singleton. intros Heq. apply Hop.
        simpl in Heq. rewrite <- Heq. apply list_elem_of_fmap.
        exists o. split; [reflexivity | exact Ho]. }
    { rewrite Hk, length_app. simpl in *. lia. }
    exists c', b'. split; [| split; [exact Hwf' | split; [| split; [| split]]]].
    + simpl. unfold Set_, set. fold (value_of op). rewrite Hs. simpl.
      exact Hrun.
    + rewrite Hkeys, Hk, <- app_assoc. reflexivity.
    + rewrite Hvals. reflexivity.
    + rewrite Hcap. reflexivity.
    + rewrite Hb'. reflexivity.
Qed.

Lemma wf_empty (cl : option dnsutil.Client) (r : backend_ref) (cap : Z)
      (q : list Task) : wf (empty_cache cl r cap q).
Proof.
  split; [apply NoDup_nil_2 |]. intros k. simpl. rewrite lookup_empty.
  split; [intros Hk; inversion Hk | intros [? [=]]].
Qed.

(** [cap + 1] inserts of distinct keys into an empty cache: the state
    reached. *)
Lemma set_all_overflow_once
  (cap : Z) (cl : option dnsutil.Client) (r : backend_ref) (q : list Task)
  (b : B) (o1 oN : SetCall) (mid : list SetCall) :
  Z.of_nat (length (o1 :: mid)) = cap ->
  NoDup (key_ <$> (o1 :: mid ++ [oN])) ->
  (forall op, op ∈ o1 :: mid ++ [oN] -> canCache (msg_ op) = true) ->
  exists c b',
    set_all (empty_cache cl r cap q) b (o1 :: mid ++ [oN]) = Some (c, b') /\
    wf c /\
    keys c = (key_ <$> mid) ++ [key_ oN] /\
    values c =
    <[key_ oN := value_of oN]> (delete (key_ o1) (store_all ∅ (o1 :: mid))).
Proof.
  intros Hlen Hnd Hm.
  change (o1 :: mid ++ [oN]) with ((o1 :: mid) ++ [oN]) in *.
  rewrite fmap_app in Hnd. apply NoDup_app in Hnd as (Hnd1 & Hdisj & _).
  destruct (set_all_fill (empty_cache cl r cap q) b (o1 :: mid))
    as (c1 & b1 & Hrun1 & Hwf1 & Hk1 & Hv1 & Hc1 & _).
  { apply wf_empty. }
  { intros op Hop. apply Hm. apply elem_of_app. left. exact Hop. }
  { exact Hnd1. }
  { intros op _. simpl. apply not_elem_of_nil. }
  { simpl in *. lia. }
  change (keys (empty_cache cl r cap q)) with (@nil Z) in Hk1.
  change (values (empty_cache cl r cap q)) with (∅ : gmap Z Value) in Hv1.
  change (capacity (empty_cache cl r cap q)) with cap in Hc1.
  rewrite app_nil_l, fmap_cons in Hk1.
  destruct (setValue_overflow c1 b1 (value_of oN) (key_ o1) (key_ <$> mid))
    as [Hs Hk]; try assumption.
  { apply Hm. apply elem_of_app. right. left. }
  { rewrite Hk1. intros Hin. apply (Hdisj (key_ oN)); [exact Hin |].
    simpl. left. }
  { rewrite Hk1, Hc1. rewrite length_cons, length_fmap. exact Hlen. }
  eexists _, _. split; [| split; [| split]].
  - rewrite set_all_app, Hrun1. simpl. unfold Set_, set.
    fold (value_of oN). rewrite Hs. reflexivity.
  - apply wf_stored. apply wf_shifted; assumption.
  - exact Hk.
  - rewrite values_stored. simpl. rewrite Hv1. reflexivity.
Qed.

Lemma load_values_set_all (c : Cache) (b : B) (vs : list Value) :
  load_values c b vs = set_all c b (call_of <$> vs).
Proof.
  revert c b. induction vs as [| v vs IH]; intros c b; [reflexivity |].
  rewrite fmap_cons. destruct v as [k t m]. simpl. unfold Set_, set. simpl.
  destruct (setValue c b (mkValue k t m)) as [[[ok c1] b1] |]; [| reflexivity].
  simpl. apply IH.
Qed.

(** An insert leaves the capacity, the client, the backend reference and
    the queue alone. *)
Lemma setValue_frame (c c' : Cache) (b b' : B) (v : Value) (ok : bool) :
  setValue c b v = Some (ok, c', b') ->
  capacity c' = capacity c /\ backend c' = backend c /\
  client c' = client c /\ queue c' = queue c.
Proof.
  unfold setValue.
  destruct ((capacity c =? 0) || negb (canCache (msg v))).
  - intros [= _ <- _]. auto.
  - destruct ((Z.of_nat (size (values c)) =? capacity c) && (0 <? capacity c)).
    + destruct (keys c) as [| evict rest]; [discriminate |].
      simpl. intros [= _ <- _]. auto.
    + simpl. intros [= _ <- _]. auto.
Qed.

Lemma load_values_frame (vs : list Value) (c c' : Cache) (b b' : B) :
  load_values c b vs = Some (c', b') ->
  capacity c' = capacity c /\ backend c' = backend c /\
  client c' = client c /\ queue c' = queue c.
Proof.
  revert c b. induction vs as [| v vs IH]; intros c b; simpl.
  - intros [= <- _]. auto.
  - destruct (setValue c b v) as [[[ok c1] b1] |] eqn:Hs; [| discriminate].
    simpl. intros Hrest. apply IH in Hrest.
    apply setValue_frame in Hs. intuition congruence.
Qed.

(** [load] when the backend holds more than the capacity: the values from
    index [cap] on are inserted, the first [cap] are evicted from the
    backend. *)
Lemma newCache_overflow (cap : Z) (cl : option dnsutil.Client) (b : B) :
  0 < cap -> cap < Z.of_nat (length (backend_Read b)) ->
  newCache cap cl b =
  load_values (empty_cache cl DefaultBackend cap []) b
              (drop (Z.to_nat cap) (backend_Read b))
  ≫= (fun '(c, b1) =>
        Some (set_backend SuppliedBackend c,
              fold_left (fun b v => backend_Evict (Key v) b)
                        (take (Z.to_nat cap) (backend_Read b)) b1)).
Proof.
  intros Hcap Hlen. unfold newCache, load.
  assert (Hlt : (cap <? 0) = false) by (apply Z.ltb_ge; lia).
  assert (Hne : (cap =? 0) = false) by (apply Z.eqb_neq; lia).
  apply Z.ltb_lt in Hlen.
  rewrite Hlt. cbn [capacity]. rewrite Hne, Hlen.
  fold (empty_cache cl DefaultBackend cap []).
  destruct (load_values (empty_cache cl DefaultBackend cap []) b
              (drop (Z.to_nat cap) (backend_Read b)))
    as [[c1 b1] |] eqn:Hload; [| reflexivity].
  apply load_values_frame in Hload as (Hcap1 & _). simpl in Hcap1.
  simpl. rewrite Hcap1, Hlen. reflexivity.
Qed.

(** [load] when the backend holds at most the capacity, with distinct keys
    and cacheable messages: every entry is inserted, in order, and the
    backend receives no call. *)
Lemma newCache_within_capacity (cap : Z) (cl : option dnsutil.Client) (b : B) :
  0 < cap -> Z.of_nat (length (backend_Read b)) <= cap ->
  NoDup (Key <$> backend_Read b) ->
  (forall v, v ∈ backend_Read b -> canCache (msg v) = true) ->
  exists c,
    newCache cap cl b = Some (c, b) /\
    backend c = SuppliedBackend /\
    keys c = Key <$> backend_Read b /\
    (forall v, v ∈ backend_Read b -> values c !! Key v = Some v).
Proof.
  intros Hcap Hlen Hnd Hm. unfold newCache, load.
  assert (Hlt : (cap <? 0) = false) by (apply Z.ltb_ge; lia).
  assert (Hne : (cap =? 0) = false) by (apply Z.eqb_neq; lia).
  assert (Hge : (cap <? Z.of_nat (length (backend_Read b))) = false)
    by (apply Z.ltb_ge; lia).
  rewrite Hlt. cbn [capacity]. rewrite Hne, Hge.
  fold (empty_cache cl DefaultBackend cap []).
  change (Z.to_nat 0) with 0%nat. rewrite drop_0.
  rewrite load_values_set_all.
  assert (Hkeys : key_ <$> (call_of <$> backend_Read b) = Key <$> backend_Read b).
  { rewrite <- list_fmap_compose. reflexivity. }
  destruct (set_all_fill (empty_cache cl DefaultBackend cap []) b
              (call_of <$> backend_Read b))
    as (c1 & b1 & Hrun & Hwf1 & Hk1 & Hv1 & Hc1 & Hb1).
  { apply wf_empty. }
  { intros op Hop. apply list_elem_of_fmap in Hop as (v & -> & Hv).
    apply Hm. exact Hv. }
  { rewrite Hkeys. exact Hnd. }
  { intros op _. simpl. apply not_elem_of_nil. }
  { simpl. rewrite length_fmap. lia. }
  assert (Hb : b1 = b).
  { rewrite Hb1. clear. induction (call_of <$> backend_Read b) as [| op l IH];
      [reflexivity | exact IH]. }
  clear Hb1. subst b1. rewrite Hrun. simpl. rewrite Hc1. simpl. rewrite Hge.
  exists (set_backend SuppliedBackend c1). split; [reflexivity |].
  split; [reflexivity |]. split.
  - simpl. rewrite Hk1. simpl. exact Hkeys.
  - intros v Hv. simpl. rewrite Hv1. simpl.
    assert (Hval : value_of (call_of v) = v) by (destruct v; reflexivity).
    rewrite <- Hval at 2.
    replace (Key v) with (key_ (call_of v)) by reflexivity.
    apply store_all_lookup.
    + rewrite Hkeys. exact Hnd.
    + apply list_elem_of_fmap. exists v. split; [reflexivity | exact Hv].
Qed.

End with_backend.

(** A cache of capacity 2 built over an empty recording backend. *)
Lemma newCache_recording_empty (cap : Z) (cl : option dnsutil.Client) :
  0 < cap ->
  newCache cap cl ([] : list recording.Call) =
  Some (empty_cache cl SuppliedBackend cap [], []).
Proof.
  intros Hcap. unfold newCache, load.
  assert (Hlt : (cap <? 0) = false) by (apply Z.ltb_ge; lia).
  assert (Hne : (cap =? 0) = false) by (apply Z.eqb_neq; lia).
  rewrite Hlt. cbn. rewrite Hne. cbn.
  change (Z.of_nat 0) with 0. rewrite Hlt. simpl. rewrite Hlt. reflexivity.
Qed.

(** Three inserts of distinct keys into an empty cache of capacity 2
    that forwards to a recording backend. *)
Lemma three_sets_capacity_two
  (cl : option dnsutil.Client) (q : list Task) (o1 o2 o3 : SetCall) :
  key_ o1 <> key_ o2 -> key_ o1 <> key_ o3 -> key_ o2 <> key_ o3 ->
  canCache (msg_ o1) = true -> canCache (msg_ o2) = true ->
  canCache (msg_ o3) = true ->
  exists c,
    set_all (empty_cache cl SuppliedBackend 2 q) ([] : list recording.Call)
            [o1; o2; o3] =
    Some (c, [recording.CallSet (key_ o1) (value_of o1);
              recording.CallSet (key_ o2) (value_of o2);
              recording.CallEvict (key_ o1);
              recording.CallSet (key_ o3) (value_of o3)]) /\
    keys c = [key_ o2; key_ o3] /\
    values c = <[key_ o3 := value_of o3]> (<[key_ o2 := value_of o2]> ∅).
Proof.
  intros H12 H13 H23 Hm1 Hm2 Hm3.
  set (c0 := empty_cache cl SuppliedBackend 2 q).
  assert (Hwf0 : wf c0) by apply wf_empty.
  (* first insert *)
  destruct (setValue_fresh c0 ([] : list recording.Call) (value_of o1) Hwf0 Hm1)
    as [Hs1 Hk1]; [simpl; apply not_elem_of_nil | simpl; lia |].
  set (c1 := stored c0 (value_of o1)) in *.
  assert (Hwf1 : wf c1) by (apply wf_stored; exact Hwf0).
  (* second insert *)
  destruct (setValue_fresh c1 (forward_Set c0 (key_ o1) (value_of o1) [])
              (value_of o2) Hwf1 Hm2) as [Hs2 Hk2].
  { rewrite Hk1. simpl. rewrite list_elem_of_singleton. congruence. }
  { rewrite Hk1. simpl. lia. }
  set (c2 := stored c1 (value_of o2)) in *.
  assert (Hwf2 : wf c2) by (apply wf_stored; exact Hwf1).
  (* third insert: the cache is full *)
  destruct (setValue_overflow c2
              (forward_Set c1 (key_ o2) (value_of o2)
                 (forward_Set c0 (key_ o1) (value_of o1) []))
              (value_of o3) (key_ o1) [key_ o2] Hwf2 Hm3) as [Hs3 Hk3].
  { rewrite Hk2, Hk1. simpl. rewrite !elem_of_cons, elem_of_nil.
    intros [? | [? | []]]; congruence. }
  { rewrite Hk2, Hk1. reflexivity. }
  { rewrite Hk2, Hk1. reflexivity. }
  eexists. split; [| split].
  - simpl. unfold Set_, set. fold (value_of o1). fold c0. rewrite Hs1. simpl.
    fold (value_of o2). rewrite Hs2. simpl.
    fold (value_of o3). rewrite Hs3. simpl. reflexivity.
  - exact Hk3.
  - rewrite values_stored. simpl.
    rewrite delete_insert_ne by congruence.
    rewrite delete_insert_eq. rewrite delete_empty. reflexivity.
Qed.

End cache_facts.

(** ** Strings: fields, decimal numbers and hexadecimal data *)

Module text_facts.
Import text strings.

Lemma append_nil_l (t : string) : String.append EmptyString t = t.
Proof. reflexivity. Qed.

Lemma append_cons (c : ascii) (s t : string) :
  String.append (String c s) t = String c (String.append s t).
Proof. reflexivity. Qed.

Lemma append_nil_r (s : string) : String.append s EmptyString = s.
Proof.
  induction s as [| c s IH]; [reflexivity |].
  rewrite append_cons, IH. reflexivity.
Qed.

Lemma append_assoc (a b c : string) :
  String.append (String.append a b) c = String.append a (String.append b c).
Proof.
  induction a as [| x a IH]; [reflexivity |].
  rewrite !append_cons, IH. reflexivity.
Qed.

(** Scanning a run without white space extends the current field. *)
Lemma fields_from_run (w cur rest : string) :
  no_space w = true ->
  fields_from cur (String.append w rest) = fields_from (String.append cur w) rest.
Proof.
  revert cur. induction w as [| c w IH]; intros cur Hw.
  - rewrite append_nil_l, append_nil_r. reflexivity.
  - simpl in Hw. apply andb_true_iff in Hw as [Hc Hw].
    apply negb_true_iff in Hc. rewrite append_cons. simpl. rewrite Hc.
    rewrite IH by exact Hw. rewrite append_assoc, append_cons, append_nil_l.
    reflexivity.
Qed.

Lemma word_eqb (w : string) : word w -> String.eqb w EmptyString = false.
Proof. intros [Hne _]. destruct w; [contradiction | reflexivity]. Qed.

(** A word followed by a space is the first field. *)
Lemma Fields_word_space (w rest : string) :
  word w ->
  Fields (String.append w (String " " rest)) = w :: Fields rest.
Proof.
  intros Hw. unfold Fields.
  rewrite fields_from_run by apply Hw. rewrite append_nil_l. simpl.
  rewrite (word_eqb w Hw). reflexivity.
Qed.

(** A word alone is the only field. *)
Lemma Fields_word (w : string) : word w -> Fields w = [w].
Proof.
  intros Hw. unfold Fields.
  rewrite <- (append_nil_r w) at 1.
  rewrite fields_from_run by apply Hw. rewrite append_nil_l. simpl.
  rewrite (word_eqb w Hw). reflexivity.
Qed.

Lemma all_digits_no_space (s : string) : all_digits s = true -> no_space s = true.
Proof.
  induction s as [| c s IH]; simpl; [reflexivity |].
  intros H. apply andb_true_iff in H as [Hc Hs].
  rewrite (IH Hs), andb_true_r.
  apply andb_true_iff in Hc as [Hlo Hhi].
  apply N.leb_le in Hlo. apply N.leb_le in Hhi.
  unfold asciiSpace. apply negb_true_iff, orb_false_iff. split.
  - apply andb_false_iff. right. apply N.leb_gt. lia.
  - apply N.eqb_neq. lia.
Qed.

Lemma all_digits_string_of_uint (d : Decimal.uint) :
  all_digits (NilEmpty.string_of_uint d) = true.
Proof. induction d; simpl; try rewrite IHd; reflexivity. Qed.

End text_facts.

Module strconv_facts.
Import text text_facts strconv.

Lemma to_uint_nonnil (n : N) : N.to_uint n <> Decimal.Nil.
Proof.
  destruct n as [| p]; simpl; [discriminate |].
  apply DecimalPos.Unsigned.to_uint_nonnil.
Qed.

Lemma FormatUint_digits (n : Z) : all_digits (FormatUint n) = true.
Proof. apply all_digits_string_of_uint. Qed.

Lemma FormatUint_nonempty (n : Z) : FormatUint n <> EmptyString.
Proof.
  unfold FormatUint. pose proof (to_uint_nonnil (Z.to_N n)) as H.
  destruct (N.to_uint (Z.to_N n)); [contradiction | discriminate ..].
Qed.

Lemma FormatUint_word (n : Z) : word (FormatUint n).
Proof.
  split; [apply FormatUint_nonempty |].
  apply all_digits_no_space, FormatUint_digits.
Qed.

Lemma parse_digits_FormatUint (n : Z) :
  0 <= n -> parse_digits (FormatUint n) = Some n.
Proof.
  intros Hn. unfold parse_digits, FormatUint.
  pose proof (to_uint_nonnil (Z.to_N n)) as Hnil.
  assert (Hs : NilEmpty.string_of_uint (N.to_uint (Z.to_N n)) =
               NilZero.string_of_uint (N.to_uint (Z.to_N n))).
  { destruct (N.to_uint (Z.to_N n)); [contradiction | reflexivity ..]. }
  rewrite Hs, NilZero.usu by exact Hnil. simpl.
  unfold Z.of_uint. f_equal.
  change (Pos.of_uint (N.to_uint (Z.to_N n))) with (N.of_uint (N.to_uint (Z.to_N n))).
  rewrite DecimalN.Unsigned.of_to. apply Z2N.id. exact Hn.
Qed.

Lemma ParseUint_FormatUint (n bitSize : Z) :
  0 <= n < 2 ^ bitSize -> ParseUint (FormatUint n) bitSize = Some n.
Proof.
  intros [Hlo Hhi]. unfold ParseUint.
  rewrite parse_digits_FormatUint by exact Hlo. simpl.
  apply Z.ltb_lt in Hhi. rewrite Hhi. reflexivity.
Qed.

Lemma FormatInt_word (i : Z) : word (FormatInt i).
Proof.
  unfold FormatInt. destruct (i <? 0).
  - split; [discriminate |]. simpl.
    apply (proj2 (FormatUint_word (- i))).
  - apply FormatUint_word.
Qed.

Lemma ParseInt_FormatInt (i : Z) :
  is_int64 i -> ParseInt (FormatInt i) 64 = Some i.
Proof.
  unfold is_int64. intros Hi. unfold FormatInt.
  destruct (Z.ltb_spec i 0) as [Hneg | Hpos].
  - unfold ParseInt. simpl.
    rewrite parse_digits_FormatUint by lia. simpl.
    change (64 - 1) with 63.
    destruct (Z.ltb_spec (2 ^ 63) (- i)); [lia |].
    f_equal. lia.
  - pose proof (FormatUint_digits i) as Hd.
    pose proof (FormatUint_nonempty i) as Hne.
    pose proof (parse_digits_FormatUint i Hpos) as Hp.
    destruct (FormatUint i) as [| c s] eqn:Hfmt; [contradiction |].
    simpl in Hd. apply andb_true_iff in Hd as [Hc _].
    apply andb_true_iff in Hc as [Hlo Hhi].
    apply N.leb_le in Hlo. apply N.leb_le in Hhi.
    unfold ParseInt.
    assert (Hminus : Ascii.eqb c "-" = false).
    { apply Ascii.eqb_neq. intros ->. simpl in Hlo. lia. }
    assert (Hplus : Ascii.eqb c "+" = false).
    { apply Ascii.eqb_neq. intros ->. simpl in Hlo. lia. }
    rewrite Hminus, Hplus. simpl. rewrite Hp. simpl.
    change (64 - 1) with 63.
    destruct (Z.leb_spec (2 ^ 63) i); [lia | reflexivity].
Qed.

End strconv_facts.

Module hex_facts.
Import text hex.

Lemma decode_encode_byte (v : ascii) :
  fromHexChar (hexdigit (N.shiftr (N_of_ascii v) 4)) ≫=
    (fun a => fromHexChar (hexdigit (N.land (N_of_ascii v) 15)) ≫=
       (fun b => Some (ascii_of_N (N.lor (N.shiftl a 4) b)))) = Some v.
Proof. destruct v as [[] [] [] [] [] [] [] []]; reflexivity. Qed.

Lemma DecodeString_EncodeToString (data : list ascii) :
  DecodeString (EncodeToString data) = Some data.
Proof.
  induction data as [| v data IH]; [reflexivity |].
  simpl. rewrite IH.
  pose proof (decode_encode_byte v) as Hv.
  destruct (fromHexChar (hexdigit (N.shiftr (N_of_ascii v) 4))) as [a |];
    [| discriminate].
  simpl in *.
  destruct (fromHexChar (hexdigit (N.land (N_of_ascii v) 15))) as [b |];
    [| discriminate].
  simpl in *. congruence.
Qed.

Lemma encode_byte_no_space (v : ascii) :
  strings.asciiSpace (hexdigit (N.shiftr (N_of_ascii v) 4)) = false /\
  strings.asciiSpace (hexdigit (N.land (N_of_ascii v) 15)) = false.
Proof. destruct v as [[] [] [] [] [] [] [] []]; split; reflexivity. Qed.

Lemma EncodeToString_no_space (data : list ascii) :
  no_space (EncodeToString data) = true.
Proof.
  induction data as [| v data IH]; [reflexivity |].
  destruct (encode_byte_no_space v) as [Hhi Hlo].
  simpl. rewrite Hhi, Hlo, IH. reflexivity.
Qed.

Lemma EncodeToString_word (data : list ascii) :
  data <> [] -> word (EncodeToString data).
Proof.
  intros Hne. split; [| apply EncodeToString_no_space].
  destruct data; [contradiction | discriminate].
Qed.

End hex_facts.
(** ** Facts about the wire format *)

Module rfc1035_facts.
Import dns rfc1035.


Lemma val_zero : val Ascii.zero = 0.
Proof. reflexivity. Qed.
























End rfc1035_facts.

(** ** Claims about the cache engine *)

Module cache_claims.
Import dns cache inv cache_facts recording.

(** C5. A non-cacheable message, one whose minimum TTL over the answer,
    authority and non-OPT additional records is 0 or whose rcode is
    neither NOERROR nor NXDOMAIN, is dropped by [set]: the insert returns
    false, the cache (values, keys and every other field) is the one
    before the call, and the backend state is untouched, whatever backend
    is attached: no call was forwarded. *)
Theorem C5_noncacheable_set_unchanged
  {B : Type} `{!Backend B} (c : Cache) (b : B) (now : time.Time) (k : Z) (M : Msg) :
  dnsutil.MinTTL_seconds M = 0 \/
  (Rcode M <> RcodeSuccess /\ Rcode M <> RcodeNameError) ->
  set c b now k M = Some (false, c, b) /\
  Set_ c b now k M = Some (c, b).
Proof.
  intros HM. apply set_dropped. exact HM.
Qed.

(** C5 at a SERVFAIL reply sent to a cache of capacity 8 that holds one
    entry and forwards to a recording backend. *)
Lemma C5_noncacheable_set_unchanged_witness :
  let c := stored (empty_cache None SuppliedBackend 8 [])
                  (mkValue 7 (time.mkTime 100 0) (samples.replyA "a.test." 30)) in
  let b := [CallSet 7 (mkValue 7 (time.mkTime 100 0) (samples.replyA "a.test." 30))] in
  set c b (time.mkTime 101 0) 9 (samples.servfail "b.test.") = Some (false, c, b) /\
  Set_ c b (time.mkTime 101 0) 9 (samples.servfail "b.test.") = Some (c, b).
Proof.
  intros c b.
  apply (C5_noncacheable_set_unchanged c b (time.mkTime 101 0) 9
           (samples.servfail "b.test.")).
  right. split; vm_compute; discriminate.
Defined.

(** C3. For an entry [v] cached under [key]: it is expired exactly when
    the clock reads strictly more than its creation instant plus its
    minimum TTL; when it is expired and no resolver client is configured,
    [Get] misses and leaves the cache with the eviction of [key] added
    behind the tasks already queued, every other field (values, keys,
    capacity, client, backend) as before: the entry is still stored until
    the worker runs that task, which removes [key] from the values and
    from the keys; when it is not expired, [Get] hits with the stored
    message and changes nothing, the queue included. *)
Theorem C3_get_expiry
  (c : Cache) (now : time.Time) (key : Z) (v : Value) :
  values c !! key = Some v ->
  time.wf_Time now -> time.wf_Time (CreatedAt v) -> wf_Msg (msg v) ->
  (isExpired now v = true <->
   time.nanos (CreatedAt v) + dnsutil.MinTTL_seconds (msg v) * 1000000000
     < time.nanos now) /\
  (isExpired now v = true -> client c = None ->
   Get c now key =
     (None, false,
      mkCache None (backend c) (capacity c) (values c) (keys c)
              (queue c ++ [EvictTask key])) /\
   forall (B : Type) (HB : Backend B) (c1 : Cache) (b1 : B) (now1 : time.Time),
     exists c2 b2,
       run_task c1 b1 now1 (EvictTask key) = Some (c2, b2) /\
       values c2 = delete key (values c1) /\
       keys c2 = filter (fun k => k ≠ key) (keys c1)) /\
  (isExpired now v = false ->
   Get c now key = (Some (msg v), true, c)).
Proof.
  intros Hv Hnow Hcr Hm.
  pose proof (dnsutil_facts.MinTTL_seconds_range _ Hm) as Hr.
  split; [| split].
  - unfold isExpired.
    rewrite (dnsutil_facts.MinTTL_exact _ Hm).
    rewrite time_facts.Add_seconds by (assumption || lia).
    rewrite time_facts.After_nanos; [| assumption | exact Hcr].
    unfold time.nanos. simpl. lia.
  - intros He Hcl. split.
    + unfold Get, getValue, prefetch, enqueue, set_queue.
      rewrite Hv, He, Hcl. reflexivity.
    + intros B HB c1 b1 now1. eexists _, _. split; [reflexivity |].
      split; reflexivity.
  - intros He. unfold Get, getValue. rewrite Hv, He. reflexivity.
Qed.

(** C3 at scenario 1 of the specification: an entry of TTL 300 created
    at T0 = 1000 and read at T0 + 301 s without a resolver client. *)
Lemma C3_get_expiry_witness :
  let v := mkValue 5 (time.mkTime 1000 0) (samples.replyA "example.com." 300) in
  let c := stored (empty_cache None DefaultBackend 8 []) v in
  let now := time.mkTime 1301 0 in
  (isExpired now v = true <->
   time.nanos (CreatedAt v) + dnsutil.MinTTL_seconds (msg v) * 1000000000
     < time.nanos now) /\
  (isExpired now v = true -> client c = None ->
   Get c now 5 =
     (None, false,
      mkCache None (backend c) (capacity c) (values c) (keys c)
              (queue c ++ [EvictTask 5])) /\
   forall (B : Type) (HB : Backend B) (c1 : Cache) (b1 : B) (now1 : time.Time),
     exists c2 b2,
       run_task c1 b1 now1 (EvictTask 5) = Some (c2, b2) /\
       values c2 = delete 5 (values c1) /\
       keys c2 = filter (fun k => k ≠ 5) (keys c1)) /\
  (isExpired now v = false ->
   Get c now 5 = (Some (msg v), true, c)).
Proof.
  intros v c now.
  apply (C3_get_expiry c now 5 v).
  - reflexivity.
  - unfold time.wf_Time. simpl. lia.
  - unfold time.wf_Time. simpl. lia.
  - unfold wf_Msg. simpl. repeat constructor; simpl; lia.
Defined.

(** C8. A negative capacity argument gives the cache that capacity 0
    gives: the capacity is 0, nothing is cached, the supplied backend has
    received [Reset] and the cache keeps its null backend.  Every insert
    into it returns false, and every sequence of operations leaves the
    cache and the supplied backend as construction left them, so that
    the backend is never attached and never called again. *)
Theorem C8_negative_capacity
  {B : Type} `{!Backend B} (cap : Z) (cl : option dnsutil.Client) (b : B) :
  cap < 0 ->
  let c0 := empty_cache cl DefaultBackend 0 [] in
  newCache cap cl b = newCache 0 cl b /\
  newCache cap cl b = Some (c0, backend_Reset b) /\
  capacity c0 = 0 /\ backend c0 = DefaultBackend /\
  (forall (b' : B) now k m, set c0 b' now k m = Some (false, c0, b')) /\
  (forall (b' : B) ops, run_ops c0 b' ops = Some (c0, b')).
Proof.
  intros Hneg c0.
  assert (Hnew : newCache cap cl b = Some (c0, backend_Reset b)).
  { unfold newCache. apply Z.ltb_lt in Hneg. rewrite Hneg. reflexivity. }
  assert (Hset : forall (b' : B) now k m, set c0 b' now k m = Some (false, c0, b')).
  { intros b' now k m. unfold set. apply setValue_dropped. left. reflexivity. }
  repeat split; try assumption.
  intros b' ops. induction ops as [| op ops IH]; [reflexivity |].
  assert (Hop : run_op c0 b' op = Some (c0, b')).
  { destruct op as [now k m | now k | | now]; simpl.
    - unfold Set_. rewrite Hset. reflexivity.
    - reflexivity.
    - reflexivity.
    - reflexivity. }
  simpl. rewrite Hop. exact IH.
Qed.

(** C8 at capacity -3 with a recording backend that holds one entry. *)
Lemma C8_negative_capacity_witness :
  let b := [CallSet 7 (mkValue 7 (time.mkTime 100 0) (samples.replyA "a.test." 30))] in
  let c0 := empty_cache None DefaultBackend 0 [] in
  newCache (-3) None b = newCache 0 None b /\
  newCache (-3) None b = Some (c0, backend_Reset b) /\
  capacity c0 = 0 /\ backend c0 = DefaultBackend /\
  (forall (b' : list Call) now k m, set c0 b' now k m = Some (false, c0, b')) /\
  (forall (b' : list Call) ops, run_ops c0 b' ops = Some (c0, b')).
Proof.
  intros b.
  apply (C8_negative_capacity (-3) None b). lia.
Defined.

(** C9. When the refresh of [key] obtains a reply from the resolver and
    the reply is not cacheable (minimum TTL 0, or an rcode other than
    NOERROR and NXDOMAIN), the entry is evicted: [key] is deleted from
    [values] and removed from [keys], and the backend of the cache
    receives [Evict key]. *)
Theorem C9_refresh_noncacheable_evicts
  {B : Type} `{!Backend B} (c : Cache) (b : B) (now : time.Time) (key : Z)
  (old r : Msg) (cl : dnsutil.Client) (q : Question) (qs : list Question) :
  client c = Some cl ->
  Questions old = q :: qs ->
  dnsutil.Exchange cl (SetQuestion (QName q) (Qtype q)) = Some r ->
  dnsutil.MinTTL_seconds r = 0 \/
  (Rcode r <> RcodeSuccess /\ Rcode r <> RcodeNameError) ->
  exists c' b',
    refresh c b now key old = Some (c', b') /\
    run_task c b now (RefreshTask key old) = Some (c', b') /\
    values c' = delete key (values c) /\
    keys c' = filter (fun k => k ≠ key) (keys c) /\
    values c' !! key = None /\ (key ∉ keys c') /\
    b' = forward_Evict c key b /\
    (backend c = SuppliedBackend -> b' = backend_Evict key b).
Proof.
  intros Hcl Hq Hex Hr.
  exists (fst (evict c b key)), (snd (evict c b key)).
  assert (Href : refresh c b now key old = Some (evict c b key)).
  { unfold refresh. rewrite Hq, Hcl. simpl. rewrite Hex.
    destruct (set_dropped c b now key r Hr) as [Hset _].
    rewrite Hset. reflexivity. }
  repeat split.
  - exact Href.
  - exact Href.
  - simpl. apply lookup_delete_eq.
  - simpl. intros Hin. apply list_elem_of_filter in Hin as [Hne _].
    apply Hne. reflexivity.
  - intros Hb. unfold evict, forward_Evict. simpl. rewrite Hb. reflexivity.
Qed.

(** C9 at a cache with a recording backend holding key 5, whose resolver
    answers the refresh of key 5 with SERVFAIL. *)
Lemma C9_refresh_noncacheable_evicts_witness :
  let old := samples.replyA "a.test." 30 in
  let cl := dnsutil.mkClient (fun _ => Some (samples.servfail "a.test.")) in
  let v := mkValue 5 (time.mkTime 1000 0) old in
  let c := stored (empty_cache (Some cl) SuppliedBackend 8 []) v in
  let b := [CallSet 5 v] in
  let now := time.mkTime 1031 0 in
  exists c' b',
    refresh c b now 5 old = Some (c', b') /\
    run_task c b now (RefreshTask 5 old) = Some (c', b') /\
    values c' = delete 5 (values c) /\
    keys c' = filter (fun k => k ≠ 5) (keys c) /\
    values c' !! 5 = None /\ (5 ∉ keys c') /\
    b' = forward_Evict c 5 b /\
    (backend c = SuppliedBackend -> b' = backend_Evict 5 b).
Proof.
  intros old cl v c b now.
  apply (C9_refresh_noncacheable_evicts c b now 5 old
           (samples.servfail "a.test.") cl
           (mkQuestion "a.test." TypeA 1) []).
  - reflexivity.
  - reflexivity.
  - reflexivity.
  - right. split; vm_compute; discriminate.
Defined.

(** C1, as the code has it.  A cache of capacity 2 is built over an empty
    recording backend; after [Set] of three distinct keys with cacheable
    messages, the cache holds exactly the second and third key, and the
    backend has received, in this order, [Set k1], [Set k2], [Evict k1],
    [Set k3]: the eviction of the head precedes the insert that caused
    it. *)
Theorem C1_fifo_overflow_backend_calls
  (cl : option dnsutil.Client) (o1 o2 o3 : SetCall) :
  key_ o1 <> key_ o2 -> key_ o1 <> key_ o3 -> key_ o2 <> key_ o3 ->
  canCache (msg_ o1) = true -> canCache (msg_ o2) = true ->
  canCache (msg_ o3) = true ->
  exists c0 c,
    newCache 2 cl ([] : list Call) = Some (c0, []) /\
    set_all c0 [] [o1; o2; o3] =
    Some (c, [CallSet (key_ o1) (value_of o1);
              CallSet (key_ o2) (value_of o2);
              CallEvict (key_ o1);
              CallSet (key_ o3) (value_of o3)]) /\
    dom (values c) = {[key_ o2; key_ o3]} /\
    values c !! key_ o2 = Some (value_of o2) /\
    values c !! key_ o3 = Some (value_of o3) /\
    keys c = [key_ o2; key_ o3].
Proof.
  intros H12 H13 H23 Hm1 Hm2 Hm3.
  destruct (three_sets_capacity_two cl [] o1 o2 o3 H12 H13 H23 Hm1 Hm2 Hm3)
    as (c & Hrun & Hkeys & Hvals).
  exists (empty_cache cl SuppliedBackend 2 []), c.
  split; [apply newCache_recording_empty; lia |].
  split; [exact Hrun |].
  rewrite Hvals. repeat split.
  - rewrite !dom_insert_L, dom_empty_L. apply set_eq. intros x.
    rewrite !elem_of_union, !elem_of_singleton, elem_of_empty. tauto.
  - rewrite lookup_insert_ne by congruence. apply lookup_insert_eq.
  - apply lookup_insert_eq.
  - exact Hkeys.
Qed.

(** C1 at the keys 1, 2, 3 with replies of TTL 60. *)
Lemma C1_fifo_overflow_backend_calls_witness :
  let m := samples.replyA "a.test." 60 in
  let t := time.mkTime 1000 0 in
  let o1 := mkSetCall t 1 m in
  let o2 := mkSetCall t 2 m in
  let o3 := mkSetCall t 3 m in
  exists c0 c,
    newCache 2 None ([] : list Call) = Some (c0, []) /\
    set_all c0 [] [o1; o2; o3] =
    Some (c, [CallSet 1 (value_of o1); CallSet 2 (value_of o2);
              CallEvict 1; CallSet 3 (value_of o3)]) /\
    dom (values c) = {[2; 3]} /\
    values c !! 2 = Some (value_of o2) /\
    values c !! 3 = Some (value_of o3) /\
    keys c = [2; 3].
Proof.
  intros m t o1 o2 o3.
  apply (C1_fifo_overflow_backend_calls None o1 o2 o3);
    simpl; (lia || reflexivity).
Defined.

(** C1 as the specification words it fails: at the keys 1, 2, 3 the
    backend does not receive [Set 1], [Set 2], [Set 3], [Evict 1] in that
    order; [Evict 1] comes third. *)
Lemma C1_stated_order_counterexample :
  let m := samples.replyA "a.test." 60 in
  let t := time.mkTime 1000 0 in
  let v k := mkValue k t m in
  exists c0 c b,
    newCache 2 None ([] : list Call) = Some (c0, []) /\
    set_all c0 [] [mkSetCall t 1 m; mkSetCall t 2 m; mkSetCall t 3 m] =
    Some (c, b) /\
    b = [CallSet 1 (v 1); CallSet 2 (v 2); CallEvict 1; CallSet 3 (v 3)] /\
    b <> [CallSet 1 (v 1); CallSet 2 (v 2); CallSet 3 (v 3); CallEvict 1].
Proof.
  intros m t v.
  destruct (three_sets_capacity_two None [] (mkSetCall t 1 m)
              (mkSetCall t 2 m) (mkSetCall t 3 m))
    as (c & Hrun & _); try reflexivity; try (simpl; lia).
  exists (empty_cache None SuppliedBackend 2 []), c.
  eexists. split; [apply newCache_recording_empty; lia |].
  split; [exact Hrun |]. split; [reflexivity |]. intros [=].
Qed.

(** C4. For a capacity [cap > 0] and [cap + 1] calls of [Set] with
    pairwise distinct keys and cacheable messages on an empty cache, none
    of them expired at the time of the reads: all the calls return, the
    key inserted first misses afterwards and every later key hits with
    its message; [keys] is the insertion log without its head. *)
Theorem C4_fifo_eviction
  {B : Type} `{!Backend B} (cap : Z) (cl : option dnsutil.Client)
  (r : backend_ref) (q : list Task) (b : B) (ops : list SetCall)
  (now : time.Time) :
  0 < cap ->
  Z.of_nat (length ops) = cap + 1 ->
  NoDup (key_ <$> ops) ->
  (forall op, op ∈ ops -> canCache (msg_ op) = true) ->
  (forall op, op ∈ ops -> isExpired now (value_of op) = false) ->
  exists c b',
    set_all (empty_cache cl r cap q) b ops = Some (c, b') /\
    keys c = key_ <$> drop 1 ops /\
    (forall o1, ops !! 0%nat = Some o1 ->
                Get c now (key_ o1) = (None, false, c)) /\
    (forall i oi, (0 < i)%nat -> ops !! i = Some oi ->
                  Get c now (key_ oi) = (Some (msg_ oi), true, c)).
Proof.
  intros Hcap Hlen Hnd Hm Hfresh.
  destruct ops as [| o1 rest]; [simpl in Hlen; lia |].
  induction rest as [| oN mid _] using rev_ind; [simpl in Hlen; lia |].
  destruct (set_all_overflow_once cap cl r q b o1 oN mid)
    as (c & b' & Hrun & Hwf & Hkeys & Hvals); try assumption.
  { simpl in *. rewrite length_app in Hlen. simpl in Hlen. lia. }
  assert (Hnd' := Hnd).
  rewrite fmap_cons, fmap_app in Hnd'.
  apply NoDup_cons in Hnd' as [Hk1 Hnd'].
  apply NoDup_app in Hnd' as (Hndmid & Hdisj & _).
  exists c, b'. split; [exact Hrun |]. split; [| split].
  - rewrite Hkeys. simpl. rewrite drop_0, fmap_app. reflexivity.
  - intros o [= <-]. unfold Get, getValue. rewrite Hvals.
    rewrite lookup_insert_ne, lookup_delete_eq; [reflexivity |].
    intros Heq. apply Hk1. rewrite <- Heq. apply elem_of_app. right. simpl. left.
  - intros i oi Hi Hlook. destruct i as [| i]; [lia |]. simpl in Hlook.
    apply list_elem_of_lookup_2 in Hlook.
    assert (Hexp : isExpired now (value_of oi) = false).
    { apply Hfresh. right. exact Hlook. }
    assert (Hval : values c !! key_ oi = Some (value_of oi)).
    { rewrite Hvals. apply elem_of_app in Hlook as [Hmid | Hlast].
      - assert (Hin : key_ oi ∈ key_ <$> mid).
        { apply list_elem_of_fmap. exists oi. split; [reflexivity | exact Hmid]. }
        rewrite lookup_insert_ne.
        2:{ intros Heq. apply (Hdisj (key_ oi)); [exact Hin |].
            rewrite <- Heq. simpl. left. }
        rewrite lookup_delete_ne.
        2:{ intros Heq. apply Hk1. rewrite Heq. apply elem_of_app. left. exact Hin. }
        apply store_all_lookup; [| right; exact Hmid].
        rewrite fmap_cons. apply NoDup_cons. split; [| exact Hndmid].
        intros Hin1. apply Hk1. apply elem_of_app. left. exact Hin1.
      - apply list_elem_of_singleton in Hlast. subst oi. apply lookup_insert_eq. }
    unfold Get, getValue. rewrite Hval, Hexp. reflexivity.
Qed.

(** C4 at capacity 2 with the keys 1, 2, 3, inserted at T0 = 1000 with
    TTL 60 and read at T0 + 10 s. *)
Lemma C4_fifo_eviction_witness :
  let m := samples.replyA "a.test." 60 in
  let t := time.mkTime 1000 0 in
  let ops := [mkSetCall t 1 m; mkSetCall t 2 m; mkSetCall t 3 m] in
  let now := time.mkTime 1010 0 in
  exists c b',
    set_all (empty_cache None SuppliedBackend 2 []) ([] : list Call) ops
    = Some (c, b') /\
    keys c = key_ <$> drop 1 ops /\
    (forall o1, ops !! 0%nat = Some o1 ->
                Get c now (key_ o1) = (None, false, c)) /\
    (forall i oi, (0 < i)%nat -> ops !! i = Some oi ->
                  Get c now (key_ oi) = (Some (msg_ oi), true, c)).
Proof.
  intros m t ops now.
  apply (C4_fifo_eviction 2 None SuppliedBackend [] ([] : list Call) ops now).
  - lia.
  - reflexivity.
  - simpl. repeat (apply NoDup_cons; split;
                   [rewrite ?elem_of_cons, elem_of_nil; lia |]).
    apply NoDup_nil_2.
  - intros op Hop. unfold ops in Hop.
    rewrite !elem_of_cons, elem_of_nil in Hop.
    destruct Hop as [-> | [-> | [-> | []]]]; reflexivity.
  - intros op Hop. unfold ops in Hop.
    rewrite !elem_of_cons, elem_of_nil in Hop.
    destruct Hop as [-> | [-> | [-> | []]]]; reflexivity.
Defined.

(** C2, the code at scenario 6 of the specification.  The backend holds
    v1..v5 (oldest first) and the capacity is 3.  [load] takes
    [values[n:]] with [n] the capacity, so it inserts v4 and v5 only, and
    calls [Evict] on the backend for v1, v2 and v3: the cache holds two
    entries, v3 is lost, and [List 3] returns v5, v4.  The newest three
    entries are not what is loaded, against the comments of [load] ("Add
    the last n values from backend", "Remove older entries from
    backend"). *)
Theorem C2_load_overflow_scenario :
  let b := samples.persisted_log in
  backend_Read b = samples.persisted <$> [1; 2; 3; 4; 5] /\
  exists c b',
    newCache 3 None b = Some (c, b') /\
    keys c = [4; 5] /\
    values c !! 3 = None /\
    values c !! 4 = Some (samples.persisted 4) /\
    values c !! 5 = Some (samples.persisted 5) /\
    size (values c) = 2%nat /\
    b' = b ++ [CallEvict 1; CallEvict 2; CallEvict 3] /\
    List_ c 3 = Some [samples.persisted 5; samples.persisted 4].
Proof.
  intros b. split; [reflexivity |].
  eexists _, _. split; [vm_compute; reflexivity |].
  repeat split; vm_compute; reflexivity.
Qed.

End cache_claims.

(** ** Claims about the persisted entry format *)

Module wire_facts.
Import dns cache text text_facts strconv_facts hex_facts wire.

(** The line that [Pack] writes for the key, the seconds and the data. *)
Lemma Fields_packed (key secs : Z) (data : list ascii) (rest : string) :
  data <> [] ->
  strings.Fields
    (String.append (strconv.FormatUint key)
       (String.append " "
          (String.append (strconv.FormatInt secs)
             (String.append " "
                (String.append (hex.EncodeToString data) (String " " rest))))))
  = strconv.FormatUint key :: strconv.FormatInt secs
      :: hex.EncodeToString data :: strings.Fields rest /\
  strings.Fields
    (String.append (strconv.FormatUint key)
       (String.append " "
          (String.append (strconv.FormatInt secs)
             (String.append " " (hex.EncodeToString data)))))
  = [strconv.FormatUint key; strconv.FormatInt secs; hex.EncodeToString data].
Proof.
  intros Hdata.
  pose proof (FormatUint_word key) as Hk.
  pose proof (FormatInt_word secs) as Hs.
  pose proof (EncodeToString_word data Hdata) as Hd.
  rewrite !append_cons, !append_nil_l.
  rewrite !(Fields_word_space _ _ Hk), !(Fields_word_space _ _ Hs).
  rewrite (Fields_word_space _ _ Hd), (Fields_word _ Hd).
  split; reflexivity.
Qed.

Section codec.
Variable msg_Pack : Msg -> option (list ascii).
Variable msg_Unpack : list ascii -> option Msg.

(** [Unpack] reads the first three fields and nothing else. *)
Lemma Unpack_fields (line f0 f1 f2 : string) (rest : list string) :
  strings.Fields line = f0 :: f1 :: f2 :: rest ->
  Unpack msg_Unpack line =
  key ← strconv.ParseUint f0 32;
  secs ← strconv.ParseInt f1 64;
  data ← hex.DecodeString f2;
  m ← msg_Unpack data;
  Some (mkValue key (time.Unix_of secs) m).
Proof. intros Hf. unfold Unpack. rewrite Hf. reflexivity. Qed.

Lemma Unpack_short (line : string) :
  (length (strings.Fields line) < 3)%nat -> Unpack msg_Unpack line = None.
Proof.
  intros Hlen. unfold Unpack.
  apply Nat.ltb_lt in Hlen. rewrite Hlen. reflexivity.
Qed.

Lemma Unpack_packed (key secs : Z) (data : list ascii) (m : Msg) (rest : list string) (line : string) :
  is_uint32 key -> is_int64 secs -> msg_Unpack data = Some m ->
  strings.Fields line =
  strconv.FormatUint key :: strconv.FormatInt secs
    :: hex.EncodeToString data :: rest ->
  Unpack msg_Unpack line = Some (mkValue key (time.Unix_of secs) m).
Proof.
  intros Hkey Hsecs Hm Hf.
  rewrite (Unpack_fields _ _ _ _ _ Hf).
  rewrite ParseUint_FormatUint by exact Hkey. simpl.
  rewrite ParseInt_FormatInt by exact Hsecs. simpl.
  rewrite DecodeString_EncodeToString. simpl.
  rewrite Hm. reflexivity.
Qed.



End codec.

End wire_facts.

Module wire_claims.
Import dns cache text wire wire_facts.




(** C10. [Unpack] does not look at the question section: a line whose
    data the codec unpacks to a message without questions is accepted,
    and on the value it returns [Question] and [Qtype] panic.  The two
    accessors return exactly on the values whose message has a
    question. *)
Theorem C10_accessors_partial
  (msg_Unpack : list ascii -> option Msg)
  (key secs : Z) (data : list ascii) (m : Msg) :
  is_uint32 key -> is_int64 secs -> data <> [] ->
  msg_Unpack data = Some m -> Questions m = [] ->
  (exists line v,
      line = String.append (strconv.FormatUint key)
               (String.append " "
                  (String.append (strconv.FormatInt secs)
                     (String.append " " (hex.EncodeToString data)))) /\
      Unpack msg_Unpack line = Some v /\
      Value_Question v = None /\ Value_Qtype v = None) /\
  (forall v : Value,
      (Value_Question v = None <-> Questions (msg v) = []) /\
      (Value_Qtype v = None <-> Questions (msg v) = [])).
Proof.
  intros Hkey Hsecs Hdata Hunpack Hq. split.
  - eexists _, (mkValue key (time.Unix_of secs) m).
    split; [reflexivity |]. split; [| split].
    + apply (Unpack_packed msg_Unpack key secs data m []); try assumption.
      apply (Fields_packed _ _ _ EmptyString Hdata).
    + unfold Value_Question. simpl. rewrite Hq. reflexivity.
    + unfold Value_Qtype. simpl. rewrite Hq. reflexivity.
  - intros v. unfold Value_Question, Value_Qtype.
    destruct (Questions (msg v)); split; split; congruence.
Qed.

(** C10 with the header-only codec: twelve zero bytes are a message
    without questions. *)
Lemma C10_accessors_partial_witness :
  (exists line v,
      line = String.append (strconv.FormatUint 7)
               (String.append " "
                  (String.append (strconv.FormatInt 1700000000)
                     (String.append " "
                        (hex.EncodeToString (repeat Ascii.zero 12))))) /\
      Unpack samples.header_Unpack line = Some v /\
      Value_Question v = None /\ Value_Qtype v = None) /\
  (forall v : Value,
      (Value_Question v = None <-> Questions (msg v) = []) /\
      (Value_Qtype v = None <-> Questions (msg v) = [])).
Proof.
  apply (C10_accessors_partial samples.header_Unpack 7 1700000000
           (repeat Ascii.zero 12) samples.noQuestion).
  - unfold is_uint32. lia.
  - unfold is_int64. lia.
  - discriminate.
  - reflexivity.
  - reflexivity.
Defined.

End wire_claims.

(** ** Claims about the hijack path *)

Module hijack_facts.
Import zdns_dns zdns.

Lemma split_families_acc (ipAddrs : list net.IPAddr) (v4 v6 : list net.IP) :
  fold_left
    (fun '(ipv4Addr, ipv6Addr) ipAddr =>
       match net.To4 (net.IP_ ipAddr) with
       | None => (ipv4Addr, ipv6Addr ++ [net.IP_ ipAddr])
       | Some _ => (ipv4Addr ++ [net.IP_ ipAddr], ipv6Addr)
       end)
    ipAddrs (v4, v6) =
  (v4 ++ filter (fun ip => isIPv4 ip) (net.IP_ <$> ipAddrs),
   v6 ++ filter (fun ip => negb (isIPv4 ip)) (net.IP_ <$> ipAddrs)).
Proof.
  revert v4 v6. induction ipAddrs as [| a l IH]; intros v4 v6.
  - simpl. rewrite !app_nil_r. reflexivity.
  - rewrite fmap_cons. simpl fold_left.
    unfold isIPv4 at 1 2.
    destruct (net.To4 (net.IP_ a)) as [ip4 |] eqn:H4.
    + rewrite IH.
      rewrite filter_cons_True by (unfold isIPv4; rewrite H4; exact I).
      rewrite filter_cons_False by (unfold isIPv4; rewrite H4; simpl; tauto).
      rewrite <- app_assoc. reflexivity.
    + rewrite IH.
      rewrite filter_cons_False by (unfold isIPv4; rewrite H4; simpl; tauto).
      rewrite filter_cons_True by (unfold isIPv4; rewrite H4; exact I).
      rewrite <- app_assoc. reflexivity.
Qed.

Lemma split_families_filter (ipAddrs : list net.IPAddr) :
  split_families ipAddrs =
  (filter (fun ip => isIPv4 ip) (net.IP_ <$> ipAddrs),
   filter (fun ip => negb (isIPv4 ip)) (net.IP_ <$> ipAddrs)).
Proof. unfold split_families. rewrite split_families_acc. reflexivity. Qed.

End hijack_facts.

Module hijack_claims.
Import zdns_dns zdns hijack_facts.

(** C7. In hosts mode, for a request of type A or AAAA whose name (less
    a trailing dot) is in the hosts map, [hijack] returns a reply.  The reply to
    an A request answers with exactly the configured addresses that have
    a four-byte form, in their order, as A records; the reply to an AAAA
    request answers with exactly the others, as AAAA records; every
    configured address is in one of the two and in one only; and an
    empty family gives a reply whose answer section is empty. *)
Theorem C7_hijack_hosts_partition
  (s : Server) (r : Request) (ipAddrs : list net.IPAddr) :
  hijackMode s = HijackHosts ->
  Type_ r = TypeA \/ Type_ r = TypeAAAA ->
  hosts_ s !! nonFqdn (Name r) = Some ipAddrs ->
  let ips := net.IP_ <$> ipAddrs in
  let ipv4 := filter (fun ip => isIPv4 ip) ips in
  let ipv6 := filter (fun ip => negb (isIPv4 ip)) ips in
  is_Some (hijack s r) /\
  (Type_ r = TypeA ->
   hijack s r = Some (ReplyA (Name r) ipv4) /\
   addr <$> answer (ReplyA (Name r) ipv4) = ipv4 /\
   (ipv4 = [] -> hijack s r = Some (mkReply []))) /\
  (Type_ r = TypeAAAA ->
   hijack s r = Some (ReplyAAAA (Name r) ipv6) /\
   addr <$> answer (ReplyAAAA (Name r) ipv6) = ipv6 /\
   (ipv6 = [] -> hijack s r = Some (mkReply []))) /\
  (forall ip, ip ∈ ips -> (ip ∈ ipv4 /\ ip ∉ ipv6) \/ (ip ∈ ipv6 /\ ip ∉ ipv4)).
Proof.
  intros Hmode Htype Hget ips ipv4 ipv6.
  assert (Hfmap : forall A (f : net.IP -> A) (g : A -> net.IP) (l : list net.IP),
             (forall x, g (f x) = x) -> g <$> (f <$> l) = l).
  { intros A f g l Hgf. rewrite <- list_fmap_compose.
    induction l as [| x l IH]; [reflexivity |].
    rewrite fmap_cons, IH. simpl. rewrite Hgf. reflexivity. }
  assert (HA : Type_ r = TypeA -> hijack s r = Some (ReplyA (Name r) ipv4)).
  { intros Ht. unfold hijack, hosts.Get.
    rewrite Hget, Hmode, Ht, split_families_filter. reflexivity. }
  assert (HAAAA : Type_ r = TypeAAAA -> hijack s r = Some (ReplyAAAA (Name r) ipv6)).
  { intros Ht. unfold hijack, hosts.Get.
    rewrite Hget, Hmode, Ht, split_families_filter. reflexivity. }
  split; [| split; [| split]].
  - destruct Htype as [Ht | Ht]; [rewrite (HA Ht) | rewrite (HAAAA Ht)]; eauto.
  - intros Ht. split; [exact (HA Ht) |]. split.
    + apply Hfmap. reflexivity.
    + intros Hnil. rewrite (HA Ht), Hnil. reflexivity.
  - intros Ht. split; [exact (HAAAA Ht) |]. split.
    + apply Hfmap. reflexivity.
    + intros Hnil. rewrite (HAAAA Ht), Hnil. reflexivity.
  - intros ip Hip. unfold ipv4, ipv6.
    rewrite !list_elem_of_filter.
    destruct (isIPv4 ip); simpl; [left | right]; tauto.
Qed.

(** C7 at scenario 4 of the specification: the AAAA request for
    ads.example. when the hosts map holds 1.2.3.4 only. *)
Lemma C7_hijack_hosts_partition_witness :
  let s := samples.ads_server in
  let r := mkRequest TypeAAAA "ads.example." in
  let ips := [net.IPv4 1 2 3 4] in
  let ipv4 := filter (fun ip => isIPv4 ip) ips in
  let ipv6 := filter (fun ip => negb (isIPv4 ip)) ips in
  is_Some (hijack s r) /\
  (Type_ r = TypeA ->
   hijack s r = Some (ReplyA (Name r) ipv4) /\
   addr <$> answer (ReplyA (Name r) ipv4) = ipv4 /\
   (ipv4 = [] -> hijack s r = Some (mkReply []))) /\
  (Type_ r = TypeAAAA ->
   hijack s r = Some (ReplyAAAA (Name r) ipv6) /\
   addr <$> answer (ReplyAAAA (Name r) ipv6) = ipv6 /\
   (ipv6 = [] -> hijack s r = Some (mkReply []))) /\
  (forall ip, ip ∈ ips -> (ip ∈ ipv4 /\ ip ∉ ipv6) \/ (ip ∈ ipv6 /\ ip ∉ ipv4)).
Proof.
  intros s r.
  apply (C7_hijack_hosts_partition s r
           [net.mkIPAddr (net.IPv4 1 2 3 4) EmptyString]).
  - reflexivity.
  - right. reflexivity.
  - vm_compute. reflexivity.
Defined.

End hijack_claims.

(** ** The cache: the invariant over every operation *)

Module inv_facts.
Import dns cache inv stats cache_facts.

Lemma Inv_empty (cl : option dnsutil.Client) (r : backend_ref) (cap : Z)
      (q : list Task) : 0 <= cap -> Inv (empty_cache cl r cap q).
Proof.
  intros Hcap. split; [apply wf_empty | split].
  - simpl. rewrite map_size_empty. exact Hcap.
  - intros k v. simpl. rewrite lookup_empty. discriminate.
Qed.

Lemma wf_keys_nonempty (c : Cache) :
  wf c -> (0 < size (values c))%nat -> exists h t, keys c = h :: t.
Proof.
  intros Hwf Hsz. rewrite (wf_size c Hwf) in Hsz.
  destruct (keys c) as [| h t]; [simpl in Hsz; lia | eauto].
Qed.

Lemma Inv_stored (c : Cache) (v : Value) :
  Inv c -> canCache (msg v) = true ->
  Z.of_nat (size (values c)) < capacity c ->
  Inv (stored c v).
Proof.
  intros (Hwf & Hsz & Hent) Hm Hlt. split; [apply wf_stored; exact Hwf | split].
  - rewrite values_stored.
    pose proof (map_size_insert (Key v) v (values c)) as Hins.
    destruct (values c !! Key v); simpl in *; lia.
  - intros k w. rewrite values_stored.
    destruct (decide (k = Key v)) as [-> | Hne].
    + rewrite lookup_insert_eq. intros [= <-]. auto.
    + rewrite lookup_insert_ne by congruence. apply Hent.
Qed.

Lemma Inv_shifted (c : Cache) (h : Z) (t : list Z) :
  Inv c -> keys c = h :: t ->
  Inv (shifted c h t) /\
  Z.of_nat (size (values (shifted c h t))) = Z.of_nat (size (values c)) - 1.
Proof.
  intros (Hwf & Hsz & Hent) Hk.
  assert (Hh : is_Some (values c !! h)).
  { destruct Hwf as [_ Hdom]. apply Hdom. rewrite Hk. left. }
  destruct Hh as [w Hw].
  assert (Hsize : size (values c) = S (size (delete h (values c)))).
  { rewrite <- (map_size_insert_None h w (delete h (values c))
                  (lookup_delete_eq _ _)).
    rewrite insert_delete_id by exact Hw. reflexivity. }
  split; [split; [apply wf_shifted; assumption | split] |].
  - simpl. lia.
  - intros k v. simpl. intros Hlook.
    apply lookup_delete_Some in Hlook as [_ Hlook]. apply Hent. exact Hlook.
  - simpl. lia.
Qed.

Section with_backend.
Context {B : Type} `{!Backend B}.

(** An insert into a state of the invariant returns; the state it yields
    has the invariant. *)
Lemma setValue_Inv (c : Cache) (b : B) (v : Value) :
  Inv c ->
  exists ok c' b',
    setValue c b v = Some (ok, c', b') /\ Inv c' /\
    (ok = false -> c' = c /\ b' = b) /\
    (ok = true ->
     canCache (msg v) = true /\ 0 < capacity c /\
     values c' !! Key v = Some v /\ last (keys c') = Some (Key v)).
Proof.
  intros HInv.
  destruct ((capacity c =? 0) || negb (canCache (msg v))) eqn:Hdrop.
  - exists false, c, b. split; [| split; [exact HInv | split; [auto | discriminate]]].
    unfold setValue. rewrite Hdrop. reflexivity.
  - apply orb_false_iff in Hdrop as [Hcap Hm].
    apply Z.eqb_neq in Hcap. apply negb_false_iff in Hm.
    pose proof HInv as (Hwf & Hsz & Hent).
    assert (Hpos : 0 < capacity c) by lia.
    destruct (Z.eq_dec (Z.of_nat (size (values c))) (capacity c)) as [Hfull | Hroom].
    + destruct (wf_keys_nonempty c Hwf) as (h & t & Hk); [lia |].
      destruct (Inv_shifted c h t HInv Hk) as [HInv1 Hsz1].
      exists true, (stored (shifted c h t) v),
        (forward_Set c (Key v) v (forward_Evict c h b)).
      split; [apply setValue_full; assumption |].
      split; [apply Inv_stored; [exact HInv1 | exact Hm | simpl capacity; lia] |].
      split; [discriminate |]. intros _.
      split; [exact Hm |]. split; [exact Hpos |]. split.
      * rewrite values_stored. apply lookup_insert_eq.
      * rewrite keys_stored. apply last_snoc.
    + exists true, (stored c v), (forward_Set c (Key v) v b).
      split; [apply setValue_room; assumption |].
      split; [apply Inv_stored; [exact HInv | exact Hm | lia] |].
      split; [discriminate |]. intros _.
      split; [exact Hm |]. split; [exact Hpos |]. split.
      * rewrite values_stored. apply lookup_insert_eq.
      * rewrite keys_stored. apply last_snoc.
Qed.

Lemma Inv_evict (c : Cache) (b : B) (key : Z) :
  Inv c -> Inv (fst (evict c b key)).
Proof.
  intros ((Hnd & Hdom) & Hsz & Hent). simpl. split; [split | split].
  - simpl. apply NoDup_filter. exact Hnd.
  - intros k. simpl. rewrite list_elem_of_filter, Hdom.
    destruct (decide (k = key)) as [-> | Hne].
    + rewrite lookup_delete_eq. split; [intros [Hk _]; contradiction | intros [? [=]]].
    + rewrite lookup_delete_ne by congruence. tauto.
  - simpl. pose proof (map_size_delete key (values c)) as Hdel.
    destruct (values c !! key); simpl in *; lia.
  - intros k v. simpl. intros Hlook.
    apply lookup_delete_Some in Hlook as [_ Hlook]. apply Hent. exact Hlook.
Qed.

Lemma Inv_queue (c : Cache) (q : list Task) : Inv c -> Inv (set_queue q c).
Proof. intros H. exact H. Qed.

Lemma refresh_Inv (c c' : Cache) (b b' : B) (now : time.Time) (key : Z) (old : Msg) :
  Inv c -> refresh c b now key old = Some (c', b') -> Inv c'.
Proof.
  intros HInv. unfold refresh.
  destruct (Questions old) as [| q qs]; [discriminate |].
  destruct (client c) as [cl |]; [| discriminate]. simpl.
  destruct (dnsutil.Exchange cl _) as [r |]; [| intros [= <- _]; exact HInv].
  unfold set.
  destruct (setValue_Inv c b (mkValue key now r) HInv)
    as (ok & c1 & b1 & Hs & HInv1 & _).
  rewrite Hs. simpl. destruct ok; simpl.
  - intros [= <- _]. exact HInv1.
  - intros [= <- _]. apply (Inv_evict c1 b1 key HInv1).
Qed.

Lemma run_op_Inv (c c' : Cache) (b b' : B) (op : Op) :
  Inv c -> run_op c b op = Some (c', b') -> Inv c'.
Proof.
  intros HInv. destruct op as [now key m | now key | | now]; simpl.
  - unfold Set_, set.
    destruct (setValue_Inv c b (mkValue key now m) HInv)
      as (ok & c1 & b1 & Hs & HInv1 & _).
    rewrite Hs. simpl. intros [= <- _]. exact HInv1.
  - intros [= <- _]. unfold Get, getValue.
    destruct (values c !! key) as [v |]; [| exact HInv].
    destruct (isExpired now v); [| exact HInv].
    destruct (negb (prefetch c)); exact HInv.
  - intros [= <- _]. destruct HInv as (_ & Hsz & _).
    apply (Inv_empty (client c) (backend c) (capacity c) (queue c)).
    pose proof (Nat2Z.is_nonneg (size (values c))). lia.
  - unfold readQueue_step.
    destruct (queue c) as [| t rest]; [intros [= <- _]; exact HInv |].
    destruct t as [key | key old]; simpl.
    + intros [= <- _]. apply (Inv_evict (set_queue rest c) b key). exact HInv.
    + apply refresh_Inv. exact HInv.
Qed.

Lemma run_ops_Inv (ops : list Op) (c c' : Cache) (b b' : B) :
  Inv c -> run_ops c b ops = Some (c', b') -> Inv c'.
Proof.
  revert c b. induction ops as [| op ops IH]; intros c b HInv; simpl.
  - intros [= <- _]. exact HInv.
  - destruct (run_op c b op) as [[c1 b1] |] eqn:Hop; [| discriminate].
    simpl. apply IH. apply (run_op_Inv c c1 b b1 op HInv Hop).
Qed.

Lemma load_values_Inv (vs : list Value) (c : Cache) (b : B) :
  Inv c -> exists c' b', load_values c b vs = Some (c', b') /\ Inv c'.
Proof.
  revert c b. induction vs as [| v vs IH]; intros c b HInv; simpl; [eauto |].
  destruct (setValue_Inv c b v HInv) as (ok & c1 & b1 & Hs & HInv1 & _).
  rewrite Hs. simpl. apply IH. exact HInv1.
Qed.

Lemma newCache_Inv (cap : Z) (cl : option dnsutil.Client) (b : B) :
  exists c b', newCache cap cl b = Some (c, b') /\ Inv c /\
               capacity c = Z.max 0 cap /\ client c = cl /\ queue c = [].
Proof.
  unfold newCache, load.
  set (cap' := if cap <? 0 then 0 else cap).
  assert (Hcap' : cap' = Z.max 0 cap).
  { unfold cap'. destruct (Z.ltb_spec cap 0); lia. }
  fold (empty_cache cl DefaultBackend cap' []).
  assert (HInv0 : Inv (empty_cache cl DefaultBackend cap' [])).
  { apply Inv_empty. lia. }
  simpl capacity. destruct (cap' =? 0).
  - eexists _, _. split; [reflexivity |]. rewrite <- Hcap'. auto.
  - set (n := if cap' <? Z.of_nat (length (backend_Read b)) then cap' else 0).
    destruct (load_values_Inv (drop (Z.to_nat n) (backend_Read b))
                (empty_cache cl DefaultBackend cap' []) b HInv0)
      as (c1 & b1 & Hload & HInv1).
    rewrite Hload. simpl.
    apply load_values_frame in Hload as (Hc & _ & Hcl & Hq).
    eexists _, _. split; [reflexivity |].
    split; [exact HInv1 |]. simpl. rewrite Hc, Hcl, Hq, <- Hcap'. auto.
Qed.

(** No operation changes the capacity, the client or the backend
    reference. *)
Lemma refresh_frame (c c' : Cache) (b b' : B) (now : time.Time) (key : Z) (old : Msg) :
  refresh c b now key old = Some (c', b') ->
  capacity c' = capacity c /\ backend c' = backend c /\
  client c' = client c /\ queue c' = queue c.
Proof.
  unfold refresh.
  destruct (Questions old) as [| q qs]; [discriminate |].
  destruct (client c) as [cl |] eqn:Hcl; [| discriminate]. simpl.
  destruct (dnsutil.Exchange cl _) as [r |]; [| intros [= <- _]; auto].
  unfold set.
  destruct (setValue c b (mkValue key now r)) as [[[ok c1] b1] |] eqn:Hs;
    [| discriminate].
  apply setValue_frame in Hs as (Hc & Hb & Hcl1 & Hq). simpl.
  destruct ok; simpl; intros [= <- _]; simpl; rewrite <- ?Hcl; auto.
Qed.

Lemma run_op_frame (c c' : Cache) (b b' : B) (op : Op) :
  run_op c b op = Some (c', b') ->
  capacity c' = capacity c /\ backend c' = backend c /\ client c' = client c.
Proof.
  destruct op as [now key m | now key | | now]; simpl.
  - unfold Set_, set.
    destruct (setValue c b (mkValue key now m)) as [[[ok c1] b1] |] eqn:Hs;
      [| discriminate].
    apply setValue_frame in Hs as (Hc & Hb & Hcl & _). simpl.
    intros [= <- _]. auto.
  - intros [= <- _]. unfold Get, getValue.
    destruct (values c !! key) as [v |]; [| auto].
    destruct (isExpired now v); [| auto].
    destruct (negb (prefetch c)); auto.
  - intros [= <- _]. auto.
  - unfold readQueue_step.
    destruct (queue c) as [| t rest]; [intros [= <- _]; auto |].
    destruct t as [key | key old]; simpl.
    + intros [= <- _]. auto.
    + intros Hr. apply refresh_frame in Hr as (Hc & Hb & Hcl & _). auto.
Qed.

Lemma run_ops_frame (ops : list Op) (c c' : Cache) (b b' : B) :
  run_ops c b ops = Some (c', b') ->
  capacity c' = capacity c /\ backend c' = backend c /\ client c' = client c.
Proof.
  revert c b. induction ops as [| op ops IH]; intros c b; simpl.
  - intros [= <- _]. auto.
  - destruct (run_op c b op) as [[c1 b1] |] eqn:Hop; [| discriminate].
    simpl. intros Hrest. apply IH in Hrest. apply run_op_frame in Hop.
    intuition congruence.
Qed.


(** The insert of a cacheable value into a cache of positive capacity. *)
Lemma setValue_cacheable (c : Cache) (b : B) (v : Value) :
  Inv c -> 0 < capacity c -> canCache (msg v) = true ->
  exists c' b1,
    setValue c b v = Some (true, c', forward_Set c (Key v) v b1) /\ Inv c' /\
    values c' !! Key v = Some v /\
    (exists l, keys c' = l ++ [Key v]) /\
    (b1 = b \/ exists h, b1 = forward_Evict c h b).
Proof.
  intros HInv Hpos Hm.
  pose proof HInv as (Hwf & Hsz & Hent).
  destruct (Z.eq_dec (Z.of_nat (size (values c))) (capacity c)) as [Hfull | Hroom].
  - destruct (wf_keys_nonempty c Hwf) as (h & t & Hk); [lia |].
    destruct (Inv_shifted c h t HInv Hk) as [HInv1 Hsz1].
    exists (stored (shifted c h t) v), (forward_Evict c h b).
    split; [apply setValue_full; assumption |].
    split; [apply Inv_stored; [exact HInv1 | exact Hm | simpl capacity; lia] |].
    split; [rewrite values_stored; apply lookup_insert_eq |].
    split; [rewrite keys_stored; eauto | eauto].
  - exists (stored c v), b.
    split; [apply setValue_room; [lia | assumption ..] |].
    split; [apply Inv_stored; [exact HInv | exact Hm | lia] |].
    split; [rewrite values_stored; apply lookup_insert_eq |].
    split; [rewrite keys_stored; eauto | auto].
Qed.

Lemma Inv_key (c : Cache) (k : Z) :
  Inv c -> k ∈ keys c ->
  values c !! k = Some (values c !!! k) /\ Key (values c !!! k) = k.
Proof.
  intros ((_ & Hdom) & _ & Hent) Hk.
  apply Hdom in Hk as [v Hv].
  rewrite (lookup_total_correct _ _ _ Hv).
  split; [exact Hv | apply (Hent k v Hv)].
Qed.

Lemma keys_of_entries (c : Cache) : Inv c -> Key <$> entries c = keys c.
Proof.
  intros HInv. unfold entries. rewrite <- list_fmap_compose.
  rewrite <- (list_fmap_id (keys c)) at 2.
  apply list_fmap_ext. intros i k Hk. simpl.
  apply (Inv_key c k HInv). apply (list_elem_of_lookup_2 _ i). exact Hk.
Qed.

End with_backend.

Lemma fmap_rev {A C : Type} (f : A -> C) (l : list A) :
  f <$> rev l = rev (f <$> l).
Proof.
  induction l as [| x l IH]; [reflexivity |].
  simpl. rewrite fmap_app, IH. reflexivity.
Qed.

End inv_facts.
(** ** Facts about the calls with pointer arguments *)

Module ptr_facts.
Import dns cache inv stats inv_facts.

Section with_backend.
Context {B : Type} `{!Backend B}.



End with_backend.

End ptr_facts.

(** ** The recording backend mirrors the cache *)

Module mirror_facts.
Import dns cache inv stats cache_facts inv_facts recording.

Lemma replay_snoc (log : list Call) (call : Call) :
  replay (log ++ [call]) = replay_call (replay log) call.
Proof. unfold replay. rewrite fold_left_app. reflexivity. Qed.

(** Filtering values by key is filtering the keys they are stored under. *)
Lemma filter_fmap_keys (f : Z -> Value) (k : Z) (l : list Z) :
  (forall k', k' ∈ l -> Key (f k') = k') ->
  filter (fun w => Key w ≠ k) (f <$> l) = f <$> filter (fun k' => k' ≠ k) l.
Proof.
  induction l as [| x l IH]; intros Hkey; [reflexivity |].
  rewrite fmap_cons.
  assert (Hx : Key (f x) = x) by (apply Hkey; left).
  assert (IH' : filter (fun w => Key w ≠ k) (f <$> l)
                = f <$> filter (fun k' => k' ≠ k) l).
  { apply IH. intros k' Hk'. apply Hkey. right. exact Hk'. }
  destruct (decide (x = k)) as [-> | Hne].
  - rewrite filter_cons_False by (rewrite Hx; intros Hc; apply Hc; reflexivity).
    rewrite filter_cons_False by (intros Hc; apply Hc; reflexivity).
    exact IH'.
  - rewrite filter_cons_True by (rewrite Hx; exact Hne).
    rewrite filter_cons_True by exact Hne.
    rewrite fmap_cons, IH'. reflexivity.
Qed.

Lemma fmap_lookup_total_ext (m1 m2 : gmap Z Value) (l : list Z) :
  (forall k, k ∈ l -> m1 !! k = m2 !! k) ->
  (fun k => m1 !!! k) <$> l = (fun k => m2 !!! k) <$> l.
Proof.
  intros Hext. apply list_fmap_ext. intros i k Hk.
  unfold lookup_total, map_lookup_total.
  rewrite (Hext k); [reflexivity |]. apply (list_elem_of_lookup_2 _ i). exact Hk.
Qed.

Lemma entries_filter (c : Cache) (k : Z) :
  Inv c ->
  filter (fun w => Key w ≠ k) (entries c) =
  (fun k' => values c !!! k') <$> filter (fun k' => k' ≠ k) (keys c).
Proof.
  intros HInv. unfold entries. apply filter_fmap_keys.
  intros k' Hk'. apply (Inv_key c k' HInv Hk').
Qed.

Lemma entries_stored (c : Cache) (v : Value) :
  Inv c ->
  entries (stored c v) = filter (fun w => Key w ≠ Key v) (entries c) ++ [v].
Proof.
  intros HInv. rewrite entries_filter by exact HInv.
  unfold entries. rewrite keys_stored, values_stored, fmap_app. simpl.
  rewrite lookup_total_insert_eq. f_equal.
  apply fmap_lookup_total_ext. intros k Hk.
  apply list_elem_of_filter in Hk as [Hne _].
  apply lookup_insert_ne. congruence.
Qed.

Lemma entries_delete (c : Cache) (key : Z) :
  Inv c ->
  (fun k => delete key (values c) !!! k) <$> filter (fun k => k ≠ key) (keys c)
  = filter (fun w => Key w ≠ key) (entries c).
Proof.
  intros HInv. rewrite entries_filter by exact HInv.
  apply fmap_lookup_total_ext. intros k Hk.
  apply list_elem_of_filter in Hk as [Hne _].
  apply lookup_delete_ne. congruence.
Qed.

Lemma entries_shifted (c : Cache) (h : Z) (t : list Z) :
  Inv c -> keys c = h :: t ->
  entries (shifted c h t) = filter (fun w => Key w ≠ h) (entries c).
Proof.
  intros HInv Hk. rewrite <- entries_delete by exact HInv.
  unfold entries. simpl. f_equal.
  destruct HInv as ((Hnd & _) & _). rewrite Hk in Hnd |- *.
  apply NoDup_cons in Hnd as [Hh _].
  rewrite filter_cons_False by (intros Hc; apply Hc; reflexivity).
  symmetry. apply filter_ne_fresh. exact Hh.
Qed.

Lemma mirrored_setValue (c c' : Cache) (b b' : list Call) (v : Value) (ok : bool) :
  mirrored c b -> setValue c b v = Some (ok, c', b') -> mirrored c' b'.
Proof.
  intros (HInv & Hb & Hrep) Hs.
  destruct (setValue_Inv c b v HInv) as (ok1 & c1 & b1 & Hs1 & HInv1 & Hfalse & Htrue).
  rewrite Hs in Hs1. injection Hs1 as <- <- <-.
  pose proof (setValue_frame c c' b b' v ok Hs) as (_ & Hb' & _).
  split; [exact HInv1 |]. split; [congruence |].
  destruct ok.
  - destruct (Htrue eq_refl) as (Hm & Hpos & _).
    pose proof HInv as (Hwf & Hsz & _).
    destruct (Z.eq_dec (Z.of_nat (size (values c))) (capacity c)) as [Hfull | Hroom].
    + destruct (wf_keys_nonempty c Hwf) as (h & t & Hk); [lia |].
      rewrite (setValue_full c b v h t Hpos Hm Hfull Hk) in Hs.
      injection Hs as <- <-.
      destruct (Inv_shifted c h t HInv Hk) as [HInvs _].
      rewrite (entries_stored _ v HInvs), (entries_shifted c h t HInv Hk).
      unfold forward_Set, forward_Evict. rewrite Hb. simpl.
      rewrite !replay_snoc, Hrep. reflexivity.
    + rewrite (setValue_room c b v) in Hs by (lia || assumption).
      injection Hs as <- <-.
      rewrite (entries_stored c v HInv).
      unfold forward_Set. rewrite Hb. simpl.
      rewrite replay_snoc, Hrep. reflexivity.
  - destruct (Hfalse eq_refl) as [-> ->]. exact Hrep.
Qed.

Lemma mirrored_evict (c : Cache) (b : list Call) (key : Z) :
  mirrored c b -> mirrored (fst (evict c b key)) (snd (evict c b key)).
Proof.
  intros (HInv & Hb & Hrep).
  split; [apply Inv_evict; exact HInv |]. split; [exact Hb |].
  unfold evict, forward_Evict. simpl. rewrite Hb. simpl.
  rewrite replay_snoc, Hrep. simpl. symmetry.
  apply (entries_delete c key HInv).
Qed.

Lemma mirrored_queue (c : Cache) (b : list Call) (q : list Task) :
  mirrored c b -> mirrored (set_queue q c) b.
Proof. intros H. exact H. Qed.

Lemma mirrored_refresh (c c' : Cache) (b b' : list Call) (now : time.Time)
      (key : Z) (old : Msg) :
  mirrored c b -> refresh c b now key old = Some (c', b') -> mirrored c' b'.
Proof.
  intros Hm. unfold refresh.
  destruct (Questions old) as [| q qs]; [discriminate |].
  destruct (client c) as [cl |]; [| discriminate]. simpl.
  destruct (dnsutil.Exchange cl _) as [r |]; [| intros [= <- <-]; exact Hm].
  unfold set.
  destruct (setValue c b (mkValue key now r)) as [[[ok c1] b1] |] eqn:Hs;
    [| discriminate].
  pose proof (mirrored_setValue c c1 b b1 _ ok Hm Hs) as Hm1. simpl.
  destruct ok; simpl.
  - intros [= <- <-]. exact Hm1.
  - intros Hev. pose proof (mirrored_evict c1 b1 key Hm1) as Hm2.
    destruct (evict c1 b1 key) as [c2 b2]. injection Hev as <- <-. exact Hm2.
Qed.

Lemma mirrored_run_op (c c' : Cache) (b b' : list Call) (op : Op) :
  mirrored c b -> run_op c b op = Some (c', b') -> mirrored c' b'.
Proof.
  intros Hm. destruct op as [now key m | now key | | now]; simpl.
  - unfold Set_, set.
    destruct (setValue c b (mkValue key now m)) as [[[ok c1] b1] |] eqn:Hs;
      [| discriminate].
    simpl. intros [= <- <-]. apply (mirrored_setValue c c1 b b1 _ ok Hm Hs).
  - intros [= <- <-]. unfold Get, getValue.
    destruct (values c !! key) as [v |]; [| exact Hm].
    destruct (isExpired now v); [| exact Hm].
    destruct (negb (prefetch c)); exact Hm.
  - intros [= <- <-]. destruct Hm as (HInv & Hb & _).
    split; [| split].
    + apply (run_op_Inv c _ b (snd (Reset_ c b)) OpReset HInv). reflexivity.
    + exact Hb.
    + unfold Reset_, forward_Reset. simpl. rewrite Hb. simpl.
      rewrite replay_snoc. reflexivity.
  - unfold readQueue_step.
    destruct (queue c) as [| t rest]; [intros [= <- <-]; exact Hm |].
    destruct t as [key | key old]; simpl.
    + intros Hev.
      pose proof (mirrored_evict (set_queue rest c) b key Hm) as Hm2.
      unfold evictWithLock in Hev.
      destruct (evict (set_queue rest c) b key) as [c2 b2].
      injection Hev as <- <-. exact Hm2.
    + apply mirrored_refresh. exact Hm.
Qed.

Lemma mirrored_run_ops (ops : list Op) (c c' : Cache) (b b' : list Call) :
  mirrored c b -> run_ops c b ops = Some (c', b') -> mirrored c' b'.
Proof.
  revert c b. induction ops as [| op ops IH]; intros c b Hm; simpl.
  - intros [= <- <-]. exact Hm.
  - destruct (run_op c b op) as [[c1 b1] |] eqn:Hop; [| discriminate].
    simpl. apply IH. apply (mirrored_run_op c c1 b b1 op Hm Hop).
Qed.

End mirror_facts.

(** ** The minimum TTL *)

Module ttl_facts.
Import dns dnsutil inv ttl.

(** The loop over one section: its result is a lower bound of the start
    value and of the TTLs it counts, and it is one of them. *)
Lemma min_section_spec (skip : bool) (rrs : list RR) (ttl0 : Z) :
  let cnt := if skip
             then filter (fun rr => Rrtype (Header rr) ≠ TypeOPT) rrs
             else rrs in
  let r := min_section skip ttl0 rrs in
  r <= ttl0 /\
  (forall rr, rr ∈ cnt -> r <= Ttl (Header rr)) /\
  (r = ttl0 \/ exists rr, rr ∈ cnt /\ r = Ttl (Header rr)).
Proof.
  revert ttl0. induction rrs as [| rr rrs IH]; intros ttl0.
  - simpl. destruct skip; simpl; (split; [lia | split; [| auto]]);
      intros rr Hrr; inversion Hrr.
  - unfold min_section. simpl fold_left.
    fold (min_section skip
            (if skip && (Rrtype (Header rr) =? TypeOPT) then ttl0
             else min (Ttl (Header rr)) ttl0) rrs).
    destruct skip; simpl andb.
    + destruct (Z.eqb_spec (Rrtype (Header rr)) TypeOPT) as [Hopt | Hopt].
      * rewrite filter_cons_False by (intros Hc; apply Hc; exact Hopt).
        apply (IH ttl0).
      * rewrite filter_cons_True by exact Hopt.
        destruct (IH (min (Ttl (Header rr)) ttl0)) as (Hle & Hall & Hone).
        simpl in Hle, Hall, Hone.
        unfold min in *. simpl.
        destruct (Z.ltb_spec (Ttl (Header rr)) ttl0) as [Hlt | Hge].
        -- split; [lia |]. split.
           ++ intros x Hx. apply elem_of_cons in Hx as [-> | Hx]; [lia | auto].
           ++ destruct Hone as [-> | (x & Hx & ->)].
              ** right. exists rr. split; [left | reflexivity].
              ** right. exists x. split; [right; exact Hx | reflexivity].
        -- split; [lia |]. split.
           ++ intros x Hx. apply elem_of_cons in Hx as [-> | Hx]; [lia | auto].
           ++ destruct Hone as [-> | (x & Hx & ->)]; [left; reflexivity |].
              right. exists x. split; [right; exact Hx | reflexivity].
    + destruct (IH (min (Ttl (Header rr)) ttl0)) as (Hle & Hall & Hone).
      simpl in Hle, Hall, Hone.
      unfold min in *. simpl.
      destruct (Z.ltb_spec (Ttl (Header rr)) ttl0) as [Hlt | Hge].
      * split; [lia |]. split.
        -- intros x Hx. apply elem_of_cons in Hx as [-> | Hx]; [lia | auto].
        -- destruct Hone as [-> | (x & Hx & ->)].
           ++ right. exists rr. split; [left | reflexivity].
           ++ right. exists x. split; [right; exact Hx | reflexivity].
      * split; [lia |]. split.
        -- intros x Hx. apply elem_of_cons in Hx as [-> | Hx]; [lia | auto].
        -- destruct Hone as [-> | (x & Hx & ->)]; [left; reflexivity |].
           right. exists x. split; [right; exact Hx | reflexivity].
Qed.

End ttl_facts.

(** ** FNV-1a: every byte permutes the state *)

Module key_facts.
Import fnv binary key.

Lemma lxor_uint32 (h c : Z) : is_uint32 h -> is_byte c -> is_uint32 (Z.lxor h c).
Proof.
  unfold is_uint32, is_byte. intros Hh Hc.
  assert (Hnn : 0 <= Z.lxor h c) by (apply Z.lxor_nonneg; lia).
  split; [exact Hnn |].
  destruct (Z.eq_dec (Z.lxor h c) 0) as [-> | Hne]; [lia |].
  apply Z.log2_lt_pow2; [lia |].
  pose proof (Z.log2_lxor h c ltac:(lia) ltac:(lia)) as Hlog.
  assert (Hlh : Z.log2 h < 32).
  { destruct (Z.eq_dec h 0) as [-> | Hh0]; [simpl; lia |].
    apply Z.log2_lt_pow2; lia. }
  assert (Hlc : Z.log2 c < 32).
  { destruct (Z.eq_dec c 0) as [-> | Hc0]; [simpl; lia |].
    apply Z.log2_lt_pow2; lia. }
  lia.
Qed.

Lemma lxor_cancel_r (a b c : Z) : Z.lxor a c = Z.lxor b c -> a = b.
Proof.
  intros H.
  rewrite <- (Z.lxor_0_r a), <- (Z.lxor_0_r b), <- (Z.lxor_nilpotent c).
  rewrite <- !Z.lxor_assoc, H. reflexivity.
Qed.

Lemma lxor_cancel_l (a b c : Z) : Z.lxor a b = Z.lxor a c -> b = c.
Proof. rewrite !(Z.lxor_comm a). apply lxor_cancel_r. Qed.

(** Multiplication by the FNV prime is one-to-one on [uint32]. *)
Lemma mul_prime_inj (x y : Z) :
  is_uint32 x -> is_uint32 y ->
  (x * prime32) mod 2 ^ 32 = (y * prime32) mod 2 ^ 32 -> x = y.
Proof.
  unfold is_uint32. intros Hx Hy H.
  assert (Hinv : forall z, 0 <= z < 2 ^ 32 ->
                           (((z * prime32) mod 2 ^ 32) * 899433627) mod 2 ^ 32 = z).
  { intros z Hz. rewrite Z.mul_mod_idemp_l by lia.
    rewrite <- Z.mul_assoc.
    replace (prime32 * 899433627) with (1 + 3513497 * 2 ^ 32) by reflexivity.
    rewrite Z.mul_add_distr_l, Z.mul_1_r, Z.mul_assoc, Z.mod_add by lia.
    apply Z.mod_small. lia. }
  rewrite <- (Hinv x Hx), <- (Hinv y Hy), H. reflexivity.
Qed.

Lemma step_uint32 (h c : Z) : is_uint32 (step h c).
Proof. unfold step, is_uint32. apply Z.mod_pos_bound. lia. Qed.

Lemma step_inj_hash (h h' c : Z) :
  is_uint32 h -> is_uint32 h' -> is_byte c -> step h c = step h' c -> h = h'.
Proof.
  intros Hh Hh' Hc H. unfold step in H.
  apply mul_prime_inj in H; [| apply lxor_uint32; assumption ..].
  apply lxor_cancel_r in H. exact H.
Qed.

Lemma step_inj_byte (h c c' : Z) :
  is_uint32 h -> is_byte c -> is_byte c' -> step h c = step h c' -> c = c'.
Proof.
  intros Hh Hc Hc' H. unfold step in H.
  apply mul_prime_inj in H; [| apply lxor_uint32; assumption ..].
  apply lxor_cancel_l in H. exact H.
Qed.

Lemma Write_uint32 (data : list Z) (h : Z) : is_uint32 h -> is_uint32 (Write h data).
Proof.
  unfold Write. revert h. induction data as [| c data IH]; intros h Hh; [exact Hh |].
  simpl. apply IH. apply step_uint32.
Qed.

Lemma Write_inj_hash (data : list Z) (h h' : Z) :
  is_uint32 h -> is_uint32 h' -> Forall is_byte data ->
  Write h data = Write h' data -> h = h'.
Proof.
  unfold Write. revert h h'.
  induction data as [| c data IH]; intros h h' Hh Hh' Hbytes H; [exact H |].
  inversion Hbytes as [| ? ? Hc Hrest]; subst. simpl in H.
  apply IH in H; [| apply step_uint32 .. | exact Hrest].
  apply (step_inj_hash h h' c); assumption.
Qed.

Lemma BigEndian_bytes (v : Z) : Forall is_byte (BigEndian_uint16 v).
Proof.
  unfold BigEndian_uint16, is_byte.
  repeat constructor; apply Z.mod_pos_bound; lia.
Qed.

Lemma offset32_uint32 : is_uint32 offset32.
Proof. unfold is_uint32, offset32. lia. Qed.

(** Two bytes that differ in one position lead to different states. *)
Lemma Write_pair_differs (h a b a' b' : Z) :
  is_uint32 h -> is_byte a -> is_byte b -> is_byte a' -> is_byte b' ->
  (a = a' /\ b <> b') \/ (a <> a' /\ b = b') ->
  Write h [a; b] <> Write h [a'; b'].
Proof.
  intros Hh Ha Hb Ha' Hb' Hcase Heq. unfold Write in Heq. simpl in Heq.
  destruct Hcase as [[<- Hne] | [Hne <-]].
  - apply Hne. apply (step_inj_byte (step h a) b b'); try assumption.
    apply step_uint32.
  - apply Hne. apply (step_inj_hash _ _ b) in Heq;
      [| apply step_uint32 .. | assumption].
    apply (step_inj_byte h a a'); assumption.
Qed.

Lemma BigEndian_differs (v v' : Z) :
  is_uint16 v -> is_uint16 v' -> v <> v' ->
  v / 256 = v' / 256 \/ v mod 256 = v' mod 256 ->
  let a := Z.shiftr v 8 mod 256 in
  let b := v mod 256 in
  let a' := Z.shiftr v' 8 mod 256 in
  let b' := v' mod 256 in
  (a = a' /\ b <> b') \/ (a <> a' /\ b = b').
Proof.
  unfold is_uint16. intros Hv Hv' Hne Hcase. simpl.
  rewrite !Z.shiftr_div_pow2 by lia. change (2 ^ 8) with 256.
  assert (Hd : v / 256 < 256) by (apply Z.div_lt_upper_bound; lia).
  assert (Hd' : v' / 256 < 256) by (apply Z.div_lt_upper_bound; lia).
  assert (Hd0 : 0 <= v / 256) by (apply Z.div_pos; lia).
  assert (Hd0' : 0 <= v' / 256) by (apply Z.div_pos; lia).
  rewrite !(Z.mod_small (_ / 256)) by lia.
  pose proof (Z.div_mod v 256 ltac:(lia)) as E.
  pose proof (Z.div_mod v' 256 ltac:(lia)) as E'.
  destruct Hcase as [Hhi | Hlo].
  - left. split; [exact Hhi |]. intros Hlo. apply Hne. lia.
  - right. split; [| exact Hlo]. intros Hhi. apply Hne. lia.
Qed.

Lemma bytes_uint32 (name : string) : is_uint32 (Write offset32 (bytes name)).
Proof. apply Write_uint32, offset32_uint32. Qed.

End key_facts.

(** ** The server: names and the hosts map *)

Module server_facts.
Import zdns_dns zdns filters.

Lemma length_append (s t : string) :
  String.length (String.append s t) = (String.length s + String.length t)%nat.
Proof.
  induction s as [| c s IH]; [reflexivity |].
  rewrite text_facts.append_cons. simpl. rewrite IH. reflexivity.
Qed.

Lemma substring_append_prefix (s t : string) :
  substring 0 (String.length s) (String.append s t) = s.
Proof.
  induction s as [| c s IH].
  - simpl. destruct t; reflexivity.
  - rewrite text_facts.append_cons. simpl. rewrite IH. reflexivity.
Qed.

Lemma substring_append_suffix (s t : string) :
  substring (String.length s) (String.length t) (String.append s t) = t.
Proof.
  induction s as [| c s IH].
  - rewrite text_facts.append_nil_l. simpl.
    induction t as [| d t IHt]; [reflexivity |]. simpl. rewrite IHt. reflexivity.
  - rewrite text_facts.append_cons. simpl. exact IH.
Qed.

(** A non-empty string is its prefix followed by its last byte. *)
Lemma split_last (s : string) :
  s <> EmptyString ->
  s = String.append (substring 0 (String.length s - 1) s)
                    (substring (String.length s - 1) 1 s).
Proof.
  induction s as [| c s IH]; [contradiction |]. intros _.
  destruct s as [| d s'].
  - reflexivity.
  - assert (Hne : String d s' <> EmptyString) by discriminate.
    specialize (IH Hne).
    replace (String.length (String c (String d s')) - 1)%nat
      with (S (String.length (String d s') - 1)) by (simpl; lia).
    cbn [substring]. rewrite text_facts.append_cons. f_equal. exact IH.
Qed.

Lemma nonFqdn_dot (s : string) : nonFqdn (String.append s ".") = s.
Proof.
  unfold nonFqdn. rewrite length_append. simpl String.length.
  replace (String.length s + 1 - 1)%nat with (String.length s) by lia.
  pose proof (substring_append_suffix s ".") as Hsuf. simpl String.length in Hsuf.
  rewrite Hsuf, substring_append_prefix.
  destruct (Nat.ltb_spec 0 (String.length s + 1)); [reflexivity | lia].
Qed.

Lemma nonFqdn_cases (s : string) :
  (nonFqdn s = s /\ forall s', s <> String.append s' ".") \/
  s = String.append (nonFqdn s) ".".
Proof.
  unfold nonFqdn.
  destruct (Nat.ltb_spec 0 (String.length s)) as [Hpos | Hzero]; simpl.
  - assert (Hne : s <> EmptyString) by (intros ->; simpl in Hpos; lia).
    pose proof (split_last s Hne) as Hsplit.
    destruct (String.eqb_spec (substring (String.length s - 1) 1 s) ".")
      as [Hdot | Hnodot].
    + right. rewrite Hdot in Hsplit. exact Hsplit.
    + left. split; [reflexivity |]. intros s' ->. apply Hnodot.
      rewrite length_append. simpl String.length.
      replace (String.length s' + 1 - 1)%nat with (String.length s') by lia.
      apply (substring_append_suffix s' ".").
  - left. split; [reflexivity |]. intros s' ->.
    rewrite length_append in Hzero. simpl in Hzero. lia.
Qed.

Section with_reader.
Variable readHosts : string -> option hosts.Hosts.

Lemma reject_loop (hs hs1 : hosts.Hosts) (name : string) :
  map_fold (fun name ipAddrs hs => <[name := ipAddrs]> hs) hs hs1 !! name =
  match hs1 !! name with
  | Some ipAddrs => Some ipAddrs
  | None => hs !! name
  end.
Proof.
  revert name.
  apply (map_fold_weak_ind
           (fun r m => forall name,
                r !! name = match m !! name with
                            | Some ipAddrs => Some ipAddrs
                            | None => hs !! name
                            end)).
  - intros name. rewrite lookup_empty. reflexivity.
  - intros i x m r Hi IH name.
    destruct (decide (name = i)) as [-> | Hne].
    + rewrite !lookup_insert_eq. reflexivity.
    + rewrite !lookup_insert_ne by congruence. apply IH.
Qed.

Lemma allow_loop (hs hs1 : hosts.Hosts) (name : string) :
  map_fold (fun hostToRemove (_ : list net.IPAddr) hs =>
              match hosts.Get hs hostToRemove with
              | Some _ => Del hs hostToRemove
              | None => hs
              end) hs hs1 !! name =
  match hs1 !! name with
  | Some _ => None
  | None => hs !! name
  end.
Proof.
  revert name.
  apply (map_fold_weak_ind
           (fun r m => forall name,
                r !! name = match m !! name with
                            | Some _ => None
                            | None => hs !! name
                            end)).
  - intros name. rewrite lookup_empty. reflexivity.
  - intros i x m r Hi IH name. unfold hosts.Get, Del.
    destruct (decide (name = i)) as [-> | Hne].
    + rewrite lookup_insert_eq.
      destruct (r !! i) eqn:Hr; [apply lookup_delete_eq | exact Hr].
    + rewrite lookup_insert_ne by congruence. rewrite <- IH.
      destruct (r !! i); [apply lookup_delete_ne; congruence | reflexivity].
Qed.

(** One filter: what it does to the entry of a name. *)
Lemma lookup_apply_filter (hs : hosts.Hosts) (f : Filter) (name : string) :
  apply_filter readHosts hs f !! name =
  match source readHosts f with
  | None => hs !! name
  | Some hs1 =>
      match hs1 !! name with
      | Some ipAddrs => if Reject f then Some ipAddrs else None
      | None => hs !! name
      end
  end.
Proof.
  unfold apply_filter.
  destruct (source readHosts f) as [hs1 |]; [| reflexivity].
  destruct (Reject f).
  - rewrite reject_loop. destruct (hs1 !! name); reflexivity.
  - rewrite allow_loop. destruct (hs1 !! name); reflexivity.
Qed.

End with_reader.

End server_facts.

(** ** Further properties of the cache engine *)

Module cache_props.
Import dns cache inv stats cache_facts inv_facts mirror_facts recording.

(** X1. Every state that a constructed cache reaches by calls of [Set],
    [Get], [Reset] and by steps of the queue worker keeps the structure of
    the cache: [keys] has no duplicates and lists exactly the keys of
    [values], the size reported by [Stats] is within the capacity, every
    entry is stored under its own key and holds a cacheable message, and
    the capacity is the constructor's argument, or 0 for a negative one. *)
Theorem X1_reachable_states_invariant
  {B : Type} `{!Backend B} (cap : Z) (cl : option dnsutil.Client) (b b0 b' : B)
  (ops : list Op) (c c' : Cache) :
  newCache cap cl b = Some (c, b0) ->
  run_ops c b0 ops = Some (c', b') ->
  NoDup (keys c') /\
  (forall k, k ∈ keys c' <-> is_Some (values c' !! k)) /\
  length (keys c') = size (values c') /\
  Size (Cache_Stats c') <= Capacity (Cache_Stats c') /\
  Capacity (Cache_Stats c') = Z.max 0 cap /\
  (forall k v, values c' !! k = Some v ->
               Key v = k /\ canCache (msg v) = true).
Proof.
  intros Hnew Hrun.
  destruct (newCache_Inv cap cl b) as (c1 & b1 & Hnew1 & HInv & Hcap & _).
  rewrite Hnew in Hnew1. injection Hnew1 as <- <-.
  pose proof (run_ops_Inv ops c c' b0 b' HInv Hrun) as (Hwf & Hsz & Hent).
  apply run_ops_frame in Hrun as (Hc & _).
  destruct Hwf as [Hnd Hdom].
  split; [exact Hnd |]. split; [exact Hdom |].
  split; [symmetry; apply wf_size; split; assumption |].
  split; [exact Hsz |]. split; [simpl; congruence | exact Hent].
Qed.

(** X1 at the sample run on a cache of capacity 2 over an empty recording
    backend. *)
Lemma X1_reachable_states_invariant_witness :
  let c' := runs.cache32 in
  NoDup (keys c') /\
  (forall k, k ∈ keys c' <-> is_Some (values c' !! k)) /\
  length (keys c') = size (values c') /\
  Size (Cache_Stats c') <= Capacity (Cache_Stats c') /\
  Capacity (Cache_Stats c') = Z.max 0 2 /\
  (forall k v, values c' !! k = Some v ->
               Key v = k /\ canCache (msg v) = true).
Proof.
  intros c'.
  apply (X1_reachable_states_invariant 2 None ([] : list Call) [] runs.log32
           runs.calls (empty_cache None SuppliedBackend 2 []) c').
  - vm_compute. reflexivity.
  - vm_compute. reflexivity.
Defined.



(** X3. Insert and lookup.  In a state of the invariant with a positive
    capacity, [Set] of a cacheable message returns, forwards [Set] with the
    new value to the backend as its last call, and makes the key the most
    recent one: [List 1] is the new value, and [Get] at a time at which
    the value is not expired hits with the message and changes nothing. *)
Theorem X3_set_then_get_hits
  {B : Type} `{!Backend B} (c : Cache) (b : B) (now now' : time.Time)
  (key : Z) (m : Msg) :
  Inv c -> 0 < capacity c -> canCache m = true ->
  isExpired now' (mkValue key now m) = false ->
  exists c' b' b1,
    Set_ c b now key m = Some (c', b') /\
    b' = forward_Set c key (mkValue key now m) b1 /\
    Get c' now' key = (Some m, true, c') /\
    List_ c' 1 = Some [mkValue key now m] /\
    last (keys c') = Some key.
Proof.
  intros HInv Hpos Hm Hfresh.
  destruct (setValue_cacheable c b (mkValue key now m) HInv Hpos Hm)
    as (c' & b1 & Hs & _ & Hval & (l & Hkeys) & _).
  simpl in Hs, Hval, Hkeys.
  exists c', (forward_Set c key (mkValue key now m) b1), b1.
  split; [unfold Set_, set; rewrite Hs; reflexivity |].
  split; [reflexivity |]. split; [| split].
  - unfold Get, getValue. rewrite Hval, Hfresh. reflexivity.
  - unfold List_. simpl. rewrite Hkeys, rev_app_distr. simpl.
    rewrite (lookup_total_correct _ _ _ Hval). reflexivity.
  - rewrite Hkeys. apply last_snoc.
Qed.

(** X3 at the insert of key 3 into the sample cache holding 1 and 2. *)
Lemma X3_set_then_get_hits_witness :
  let c := runs.cache12 None SuppliedBackend in
  let b := [CallSet 1 (runs.val 1); CallSet 2 (runs.val 2)] in
  exists c' b' b1,
    Set_ c b runs.t0 3 runs.m60 = Some (c', b') /\
    b' = forward_Set c 3 (mkValue 3 runs.t0 runs.m60) b1 /\
    Get c' (time.mkTime 1010 0) 3 = (Some runs.m60, true, c') /\
    List_ c' 1 = Some [mkValue 3 runs.t0 runs.m60] /\
    last (keys c') = Some 3.
Proof.
  intros c b.
  apply (X3_set_then_get_hits c b runs.t0 (time.mkTime 1010 0) 3 runs.m60).
  - apply Inv_stored; [apply Inv_stored; [apply Inv_empty; lia | |] | |];
      vm_compute; reflexivity.
  - reflexivity.
  - reflexivity.
  - reflexivity.
Defined.

(** X4. [Set] of a key that is already cached, in a cache that is not
    full, replaces the value and moves the key to the tail of [keys]; the
    other keys keep their order, nothing is evicted and the size does not
    change; the backend receives the one call [Set]. *)
Theorem X4_set_cached_key_moves_to_tail
  {B : Type} `{!Backend B} (c : Cache) (b : B) (now : time.Time)
  (key : Z) (m : Msg) :
  Inv c -> is_Some (values c !! key) ->
  Z.of_nat (size (values c)) < capacity c -> canCache m = true ->
  let v := mkValue key now m in
  exists c',
    Set_ c b now key m = Some (c', forward_Set c key v b) /\
    keys c' = filter (fun k => k ≠ key) (keys c) ++ [key] /\
    values c' = <[key := v]> (values c) /\
    size (values c') = size (values c) /\
    length (keys c') = length (keys c).
Proof.
  intros HInv [old Hold] Hroom Hm v.
  pose proof HInv as (Hwf & _).
  exists (stored c v).
  assert (Hs : setValue c b v = Some (true, stored c v, forward_Set c key v b)).
  { apply (setValue_room c b v); [lia | exact Hm | lia]. }
  assert (Hsize : size (values (stored c v)) = size (values c)).
  { rewrite values_stored. apply map_size_insert_Some. eauto. }
  split; [unfold Set_, set; fold v; rewrite Hs; reflexivity |].
  split; [apply keys_stored |]. split; [apply values_stored |].
  split; [exact Hsize |].
  rewrite <- (wf_size c Hwf), <- Hsize. symmetry. apply wf_size.
  apply wf_stored. exact Hwf.
Qed.

(** X4 at the re-insert of key 1 into a cache of capacity 8 that holds 1
    and 2. *)
Lemma X4_set_cached_key_moves_to_tail_witness :
  let c := stored (stored (empty_cache None SuppliedBackend 8 []) (runs.val 1))
                  (runs.val 2) in
  let b := [CallSet 1 (runs.val 1); CallSet 2 (runs.val 2)] in
  let v := mkValue 1 (time.mkTime 1005 0) runs.m60 in
  exists c',
    Set_ c b (time.mkTime 1005 0) 1 runs.m60 = Some (c', forward_Set c 1 v b) /\
    keys c' = filter (fun k => k ≠ 1) (keys c) ++ [1] /\
    values c' = <[1 := v]> (values c) /\
    size (values c') = size (values c) /\
    length (keys c') = length (keys c).
Proof.
  intros c b.
  apply (X4_set_cached_key_moves_to_tail c b (time.mkTime 1005 0) 1 runs.m60).
  - apply Inv_stored; [apply Inv_stored; [apply Inv_empty; lia | |] | |];
      vm_compute; reflexivity.
  - exists (runs.val 1). vm_compute. reflexivity.
  - vm_compute. reflexivity.
  - reflexivity.
Defined.

(** X5. [Set] of a cacheable message into a full cache always drops the
    head of [keys], whether or not the inserted key is cached already: the
    backend receives [Evict] for the head and then [Set]; the head is gone
    unless it is the inserted key itself; and when the inserted key was
    cached behind the head, the cache ends with one entry fewer than its
    capacity. *)
Theorem X5_set_on_full_cache_drops_head
  {B : Type} `{!Backend B} (c : Cache) (b : B) (now : time.Time)
  (key h : Z) (t : list Z) (m : Msg) :
  Inv c -> 0 < capacity c -> Z.of_nat (size (values c)) = capacity c ->
  keys c = h :: t -> canCache m = true ->
  let v := mkValue key now m in
  exists c',
    Set_ c b now key m =
    Some (c', forward_Set c key v (forward_Evict c h b)) /\
    keys c' = filter (fun k => k ≠ key) t ++ [key] /\
    values c' = <[key := v]> (delete h (values c)) /\
    (h <> key -> values c' !! h = None) /\
    (key ∈ t -> Z.of_nat (size (values c')) = capacity c - 1).
Proof.
  intros HInv Hpos Hfull Hk Hm v.
  exists (stored (shifted c h t) v).
  assert (Hs : setValue c b v =
               Some (true, stored (shifted c h t) v,
                     forward_Set c key v (forward_Evict c h b))).
  { apply (setValue_full c b v h t); assumption. }
  split; [unfold Set_, set; fold v; rewrite Hs; reflexivity |].
  split; [apply keys_stored |]. split; [apply values_stored |]. split.
  - intros Hne. rewrite values_stored. simpl.
    rewrite lookup_insert_ne by congruence. apply lookup_delete_eq.
  - intros Hin. destruct (Inv_shifted c h t HInv Hk) as [HInv1 Hsz1].
    rewrite values_stored.
    assert (Hcached : is_Some (values (shifted c h t) !! key)).
    { destruct HInv1 as ((_ & Hdom) & _). apply Hdom. exact Hin. }
    change (Key v) with key.
    rewrite (map_size_insert_Some _ _ _ Hcached). lia.
Qed.

(** X5 at the re-insert of key 2 into the full sample cache holding 1 and
    2: key 1 is dropped and one slot stays free. *)
Lemma X5_set_on_full_cache_drops_head_witness :
  let c := runs.cache12 None SuppliedBackend in
  let b := [CallSet 1 (runs.val 1); CallSet 2 (runs.val 2)] in
  let v := mkValue 2 (time.mkTime 1005 0) runs.m60 in
  exists c',
    Set_ c b (time.mkTime 1005 0) 2 runs.m60 =
    Some (c', forward_Set c 2 v (forward_Evict c 1 b)) /\
    keys c' = filter (fun k => k ≠ 2) [2] ++ [2] /\
    values c' = <[2 := v]> (delete 1 (values c)) /\
    (1 <> 2 -> values c' !! 1 = None) /\
    (2 ∈ [2] -> Z.of_nat (size (values c')) = capacity c - 1).
Proof.
  intros c b.
  apply (X5_set_on_full_cache_drops_head c b (time.mkTime 1005 0) 2 1 [2] runs.m60).
  - apply Inv_stored; [apply Inv_stored; [apply Inv_empty; lia | |] | |];
      vm_compute; reflexivity.
  - reflexivity.
  - vm_compute. reflexivity.
  - vm_compute. reflexivity.
  - reflexivity.
Defined.



(** X7. Expiry without prefetch, end to end.  When [Get] finds an expired
    entry in a cache without a resolver client and the queue is empty, the
    call misses, and the next step of the queue worker removes the entry:
    the key is gone from [values] and [keys], every other entry is
    untouched, the queue is empty again and the backend has received
    [Evict] for the key. *)
Theorem X7_expired_entry_evicted_by_worker
  {B : Type} `{!Backend B} (c : Cache) (b : B) (now now' : time.Time)
  (key : Z) (v : Value) :
  values c !! key = Some v -> isExpired now v = true ->
  client c = None -> queue c = [] ->
  exists c1 c2,
    Get c now key = (None, false, c1) /\
    readQueue_step c1 b now' = Some (c2, forward_Evict c key b) /\
    values c2 !! key = None /\ (key ∉ keys c2) /\ queue c2 = [] /\
    (forall k, k <> key -> values c2 !! k = values c !! k) /\
    keys c2 = filter (fun k => k ≠ key) (keys c).
Proof.
  intros Hv Hexp Hcl Hq.
  exists (enqueue (EvictTask key) c),
    (fst (evict (set_queue [] (enqueue (EvictTask key) c)) b key)).
  split; [| split; [| split; [| split; [| split; [| split]]]]].
  - unfold Get, getValue, prefetch. rewrite Hv, Hexp, Hcl. reflexivity.
  - unfold readQueue_step, enqueue. simpl. rewrite Hq. reflexivity.
  - simpl. apply lookup_delete_eq.
  - simpl. intros Hin. apply list_elem_of_filter in Hin as [Hne _].
    apply Hne. reflexivity.
  - reflexivity.
  - intros k Hne. simpl. apply lookup_delete_ne. congruence.
  - reflexivity.
Qed.

(** X7 at scenario 1 of the specification: TTL 300, inserted at 1000 and
    read at 1301. *)
Lemma X7_expired_entry_evicted_by_worker_witness :
  let v := mkValue 5 (time.mkTime 1000 0) (samples.replyA "example.com." 300) in
  let c := stored (empty_cache None SuppliedBackend 8 []) v in
  let b := [CallSet 5 v] in
  let now := time.mkTime 1301 0 in
  exists c1 c2,
    Get c now 5 = (None, false, c1) /\
    readQueue_step c1 b now = Some (c2, forward_Evict c 5 b) /\
    values c2 !! 5 = None /\ (5 ∉ keys c2) /\ queue c2 = [] /\
    (forall k, k <> 5 -> values c2 !! k = values c !! k) /\
    keys c2 = filter (fun k => k ≠ 5) (keys c).
Proof.
  intros v c b now.
  apply (X7_expired_entry_evicted_by_worker c b now now 5 v); reflexivity.
Defined.

(** X8. Prefetch, end to end.  When [Get] finds an expired entry in a
    cache with a resolver client and the queue is empty, the call hits with
    the stale message.  If the resolver then answers the entry's first
    question with a cacheable reply, the next step of the queue worker
    stores that reply under the key, stamped with the worker's clock
    reading, as the most recent entry, and a later [Get] at which the reply
    is not expired hits with the reply. *)
Theorem X8_prefetch_refresh_replaces_entry
  {B : Type} `{!Backend B} (c : Cache) (b : B) (now now' now'' : time.Time)
  (key : Z) (v : Value) (cl : dnsutil.Client) (q : Question)
  (qs : list Question) (r : Msg) :
  Inv c -> 0 < capacity c ->
  values c !! key = Some v -> isExpired now v = true ->
  client c = Some cl -> queue c = [] ->
  Questions (msg v) = q :: qs ->
  dnsutil.Exchange cl (SetQuestion (QName q) (Qtype q)) = Some r ->
  canCache r = true ->
  isExpired now'' (mkValue key now' r) = false ->
  exists c1 c2 b2,
    Get c now key = (Some (msg v), true, c1) /\
    readQueue_step c1 b now' = Some (c2, b2) /\
    values c2 !! key = Some (mkValue key now' r) /\
    last (keys c2) = Some key /\ queue c2 = [] /\
    Get c2 now'' key = (Some r, true, c2).
Proof.
  intros HInv Hpos Hv Hexp Hcl Hq Hqs Hex Hr Hfresh.
  set (c1 := enqueue (RefreshTask key (msg v)) c).
  set (c1' := set_queue [] (set_queue [RefreshTask key (msg v)] c)).
  assert (HInv1 : Inv c1') by exact HInv.
  destruct (setValue_cacheable c1' b (mkValue key now' r) HInv1 Hpos Hr)
    as (c2 & b1 & Hs & _ & Hval & (l & Hkeys) & _).
  simpl in Hval, Hkeys.
  assert (Hq2 : queue c2 = []).
  { apply setValue_frame in Hs as (_ & _ & _ & Hq2). exact Hq2. }
  exists c1, c2, (forward_Set c1' key (mkValue key now' r) b1).
  split; [| split; [| split; [| split; [| split]]]].
  - unfold Get, getValue, prefetch. rewrite Hv, Hexp, Hcl. reflexivity.
  - unfold readQueue_step, c1, enqueue. simpl. rewrite Hq. simpl.
    unfold refresh. rewrite Hqs.
    change (set_queue [] (set_queue [RefreshTask key (msg v)] c)) with c1'.
    change (client c1') with (client c). rewrite Hcl. simpl. rewrite Hex.
    unfold set. rewrite Hs. reflexivity.
  - exact Hval.
  - rewrite Hkeys. apply last_snoc.
  - exact Hq2.
  - unfold Get, getValue. rewrite Hval, Hfresh. reflexivity.
Qed.

(** X8 at scenario 2 of the specification: an entry of TTL 30 inserted at
    1000, read at 1031, refreshed with a reply of TTL 60 and read again at
    1032. *)
Lemma X8_prefetch_refresh_replaces_entry_witness :
  let r := samples.replyA "a.test." 60 in
  let cl := dnsutil.mkClient (fun _ => Some r) in
  let v := mkValue 5 (time.mkTime 1000 0) (samples.replyA "a.test." 30) in
  let c := stored (empty_cache (Some cl) SuppliedBackend 8 []) v in
  let b := [CallSet 5 v] in
  exists c1 c2 b2,
    Get c (time.mkTime 1031 0) 5 = (Some (msg v), true, c1) /\
    readQueue_step c1 b (time.mkTime 1031 0) = Some (c2, b2) /\
    values c2 !! 5 = Some (mkValue 5 (time.mkTime 1031 0) r) /\
    last (keys c2) = Some 5 /\ queue c2 = [] /\
    Get c2 (time.mkTime 1032 0) 5 = (Some r, true, c2).
Proof.
  intros r cl v c b.
  apply (X8_prefetch_refresh_replaces_entry c b (time.mkTime 1031 0)
           (time.mkTime 1031 0) (time.mkTime 1032 0) 5 v cl
           (mkQuestion "a.test." TypeA 1) [] r).
  - apply Inv_stored; [apply Inv_empty; lia | |]; vm_compute; reflexivity.
  - reflexivity.
  - reflexivity.
  - reflexivity.
  - reflexivity.
  - reflexivity.
  - reflexivity.
  - reflexivity.
  - reflexivity.
  - reflexivity.
Defined.

(** X9. A failed refresh changes nothing.  When the resolver returns an
    error, the worker step that runs the refresh leaves the cache as it was
    before the [Get] that asked for it, and sends nothing to the backend:
    the stale entry stays, and the next [Get] asks for the refresh again. *)
Theorem X9_refresh_failure_keeps_entry
  {B : Type} `{!Backend B} (c : Cache) (b : B) (now now' : time.Time)
  (key : Z) (v : Value) (cl : dnsutil.Client) (q : Question)
  (qs : list Question) :
  values c !! key = Some v -> isExpired now v = true ->
  client c = Some cl -> queue c = [] ->
  Questions (msg v) = q :: qs ->
  dnsutil.Exchange cl (SetQuestion (QName q) (Qtype q)) = None ->
  exists c1,
    Get c now key = (Some (msg v), true, c1) /\
    queue c1 = [RefreshTask key (msg v)] /\
    readQueue_step c1 b now' = Some (c, b).
Proof.
  intros Hv Hexp Hcl Hq Hqs Hex.
  exists (enqueue (RefreshTask key (msg v)) c).
  split; [| split].
  - unfold Get, getValue, prefetch. rewrite Hv, Hexp, Hcl. reflexivity.
  - unfold enqueue. simpl. rewrite Hq. reflexivity.
  - unfold readQueue_step, enqueue. simpl. rewrite Hq. simpl.
    unfold refresh. rewrite Hqs. simpl. rewrite Hcl. simpl. rewrite Hex.
    f_equal. f_equal. destruct c; simpl in *. rewrite Hq. reflexivity.
Qed.

(** X9 with a resolver that fails. *)
Lemma X9_refresh_failure_keeps_entry_witness :
  let cl := dnsutil.mkClient (fun _ => None) in
  let v := mkValue 5 (time.mkTime 1000 0) (samples.replyA "a.test." 30) in
  let c := stored (empty_cache (Some cl) SuppliedBackend 8 []) v in
  let b := [CallSet 5 v] in
  exists c1,
    Get c (time.mkTime 1031 0) 5 = (Some (msg v), true, c1) /\
    queue c1 = [RefreshTask 5 (msg v)] /\
    readQueue_step c1 b (time.mkTime 1031 0) = Some (c, b).
Proof.
  intros cl v c b.
  apply (X9_refresh_failure_keeps_entry c b (time.mkTime 1031 0)
           (time.mkTime 1031 0) 5 v cl (mkQuestion "a.test." TypeA 1) []);
    reflexivity.
Defined.

(** X10. The refresh of an entry whose message has no question panics.
    [Get] on such an entry, expired, in a cache with a resolver client hits
    with the stale message and queues the refresh; the worker step that
    runs it indexes the first question of the message and does not
    return. *)
Theorem X10_refresh_without_question_panics
  {B : Type} `{!Backend B} (c : Cache) (b : B) (now now' : time.Time)
  (key : Z) (v : Value) (cl : dnsutil.Client) :
  values c !! key = Some v -> isExpired now v = true ->
  client c = Some cl -> queue c = [] ->
  Questions (msg v) = [] ->
  exists c1,
    Get c now key = (Some (msg v), true, c1) /\
    readQueue_step c1 b now' = None.
Proof.
  intros Hv Hexp Hcl Hq Hqs.
  exists (enqueue (RefreshTask key (msg v)) c). split.
  - unfold Get, getValue, prefetch. rewrite Hv, Hexp, Hcl. reflexivity.
  - unfold readQueue_step, enqueue. simpl. rewrite Hq. simpl.
    unfold refresh. rewrite Hqs. reflexivity.
Qed.

(** X10 at a cacheable entry without question, as [Unpack] accepts it. *)
Lemma X10_refresh_without_question_panics_witness :
  let cl := dnsutil.mkClient (fun _ => None) in
  let v := mkValue 5 (time.mkTime 0 0) samples.noQuestion in
  let c := stored (empty_cache (Some cl) SuppliedBackend 8 []) v in
  let b := [CallSet 5 v] in
  exists c1,
    Get c (time.mkTime 2147483648 0) 5 = (Some (msg v), true, c1) /\
    readQueue_step c1 b (time.mkTime 2147483648 0) = None.
Proof.
  intros cl v c b.
  apply (X10_refresh_without_question_panics c b (time.mkTime 2147483648 0)
           (time.mkTime 2147483648 0) 5 v cl); reflexivity.
Defined.

(** X11. Persistence stays in step with the cache.  A cache of positive
    capacity is built over an empty recording backend; after any sequence
    of calls of [Set], [Get], [Reset] and worker steps that returns, the
    entries that the backend's log leaves behind, which is what its [Read]
    returns, are the entries of the cache, in the order of [keys]. *)
Theorem X11_backend_mirrors_cache
  (cap : Z) (cl : option dnsutil.Client) (ops : list Op)
  (c c' : Cache) (b0 b' : list Call) :
  0 < cap ->
  newCache cap cl ([] : list Call) = Some (c, b0) ->
  run_ops c b0 ops = Some (c', b') ->
  backend_Read b' = entries c' /\
  Key <$> backend_Read b' = keys c' /\
  (forall v, v ∈ backend_Read b' <-> values c' !! Key v = Some v).
Proof.
  intros Hcap Hnew Hrun.
  rewrite (newCache_recording_empty cap cl Hcap) in Hnew.
  injection Hnew as <- <-.
  assert (Hm0 : mirrored (empty_cache cl SuppliedBackend cap []) []).
  { split; [apply Inv_empty; lia | split; reflexivity]. }
  destruct (mirrored_run_ops ops _ c' [] b' Hm0 Hrun) as (HInv & _ & Hrep).
  change (backend_Read b') with (replay b'). rewrite Hrep.
  split; [reflexivity |]. split; [apply keys_of_entries; exact HInv |].
  intros v. unfold entries. rewrite list_elem_of_fmap. split.
  - intros (k & -> & Hk). destruct (Inv_key c' k HInv Hk) as [Hlook HKey].
    rewrite HKey. exact Hlook.
  - intros Hlook. exists (Key v). split.
    + rewrite (lookup_total_correct _ _ _ Hlook). reflexivity.
    + destruct HInv as ((_ & Hdom) & _). apply Hdom. eauto.
Qed.

(** X11 at the sample run. *)
Lemma X11_backend_mirrors_cache_witness :
  let c' := runs.cache32 in
  let b' := runs.log32 in
  backend_Read b' = entries c' /\
  Key <$> backend_Read b' = keys c' /\
  (forall v, v ∈ backend_Read b' <-> values c' !! Key v = Some v).
Proof.
  intros c' b'.
  apply (X11_backend_mirrors_cache 2 None runs.calls
           (empty_cache None SuppliedBackend 2 []) c' [] b').
  - lia.
  - vm_compute. reflexivity.
  - vm_compute. reflexivity.
Defined.

(** X12. Restart.  If a backend returns from [Read] the entries of a cache
    that has the invariant and a positive capacity, the constructor called
    with that capacity over that backend builds a cache with the same
    [keys] and the same [values], attaches the backend and sends it no
    call. *)
Theorem X12_restart_restores_cache
  {B : Type} `{!Backend B} (c : Cache) (b : B) (cl : option dnsutil.Client) :
  Inv c -> 0 < capacity c -> backend_Read b = entries c ->
  exists c',
    newCache (capacity c) cl b = Some (c', b) /\
    keys c' = keys c /\ values c' = values c /\
    capacity c' = capacity c /\ backend c' = SuppliedBackend.
Proof.
  intros HInv Hpos Hread.
  pose proof HInv as (Hwf & Hsz & Hent).
  destruct (newCache_within_capacity (capacity c) cl b Hpos)
    as (c' & Hnew & Hb & Hkeys & Hvals).
  { rewrite Hread. unfold entries. rewrite length_fmap, <- (wf_size c Hwf).
    exact Hsz. }
  { rewrite Hread, (keys_of_entries c HInv). apply Hwf. }
  { intros v. rewrite Hread. unfold entries. rewrite list_elem_of_fmap.
    intros (k & -> & Hk). destruct (Inv_key c k HInv Hk) as [Hlook _].
    apply (Hent k _ Hlook). }
  rewrite Hread, (keys_of_entries c HInv) in Hkeys.
  destruct (newCache_Inv (capacity c) cl b)
    as (c1 & b1 & Hnew1 & HInv1 & Hcap1 & _).
  rewrite Hnew in Hnew1. injection Hnew1 as <- <-.
  exists c'. split; [exact Hnew |]. split; [exact Hkeys |].
  split; [| split; [rewrite Hcap1; lia | exact Hb]].
  apply map_eq. intros k.
  destruct (decide (k ∈ keys c)) as [Hk | Hk].
  - destruct (Inv_key c k HInv Hk) as [Hlook HKey].
    rewrite Hlook. pose proof (Hvals (values c !!! k)) as Hv.
    rewrite HKey in Hv. apply Hv. rewrite Hread. unfold entries.
    apply list_elem_of_fmap. exists k. split; [reflexivity | exact Hk].
  - rewrite (wf_None c k Hwf Hk).
    destruct HInv1 as (Hwf1 & _). apply (wf_None c' k Hwf1). rewrite Hkeys. exact Hk.
Qed.

(** X12 at the sample cache and the log its run left in the recording
    backend. *)
Lemma X12_restart_restores_cache_witness :
  exists c',
    newCache (capacity runs.cache32) None runs.log32 = Some (c', runs.log32) /\
    keys c' = keys runs.cache32 /\ values c' = values runs.cache32 /\
    capacity c' = capacity runs.cache32 /\ backend c' = SuppliedBackend.
Proof.
  apply (X12_restart_restores_cache runs.cache32 runs.log32 None).
  - destruct (newCache_Inv 2 None ([] : list Call)) as (c & b0 & Hnew & HInv & _).
    apply (run_ops_Inv runs.calls c runs.cache32 b0 runs.log32 HInv).
    vm_compute in Hnew. injection Hnew as <- <-. vm_compute. reflexivity.
  - reflexivity.
  - vm_compute. reflexivity.
Defined.

(** X21. What [Get] does and never does.  [Get] hits exactly when the key
    is cached and its entry is either not expired or the cache has a
    resolver client; the message of a hit is the stored one; a miss carries
    no message.  [Get] never changes [values], [keys], the capacity, the
    client or the backend reference.  The queue after the call is the
    queue before it when the key is absent or its entry is not expired;
    when the entry is expired it is the queue before the call followed by
    exactly one task: the eviction of the key without a resolver client,
    the refresh of the key with the stored message with one. *)
Theorem X21_Get_characterization (c : Cache) (now : time.Time) (key : Z) :
  let '(m, hit, c') := Get c now key in
  (hit = true <->
   exists v, values c !! key = Some v /\
             (isExpired now v = false \/ is_Some (client c))) /\
  (hit = true -> exists v, values c !! key = Some v /\ m = Some (msg v)) /\
  (hit = false -> m = None) /\
  values c' = values c /\ keys c' = keys c /\ capacity c' = capacity c /\
  client c' = client c /\ backend c' = backend c /\
  (values c !! key = None -> queue c' = queue c) /\
  (forall v, values c !! key = Some v -> isExpired now v = false ->
     queue c' = queue c) /\
  (forall v, values c !! key = Some v -> isExpired now v = true ->
     client c = None -> queue c' = queue c ++ [EvictTask key]) /\
  (forall v cl, values c !! key = Some v -> isExpired now v = true ->
     client c = Some cl -> queue c' = queue c ++ [RefreshTask key (msg v)]).
Proof.
  unfold Get, getValue, prefetch.
  destruct (values c !! key) as [v |] eqn:Hv.
  - destruct (isExpired now v) eqn:Hexp.
    + destruct (client c) as [cl |] eqn:Hcl; simpl.
      * split; [split; [intros _; exists v; eauto | reflexivity] |].
        split; [intros _; exists v; auto |]. split; [discriminate |].
        repeat split; try (reflexivity || exact Hcl);
          intros; simplify_eq; (reflexivity || congruence).
      * split; [split; [discriminate | intros (w & [= <-] & [He | [? [=]]]);
                                         congruence] |].
        split; [discriminate |]. split; [reflexivity |].
        repeat split; try (reflexivity || exact Hcl);
          intros; simplify_eq; (reflexivity || congruence).
    + split; [split; [intros _; exists v; auto | reflexivity] |].
      split; [intros _; exists v; auto |]. split; [discriminate |].
      repeat split; try reflexivity;
        intros; simplify_eq; (reflexivity || congruence).
  - split; [split; [discriminate | intros (w & [=] & _)] |].
    split; [discriminate |]. split; [reflexivity |].
    repeat split; try reflexivity; intros; simplify_eq.
Qed.

(** X22. Expiry is a threshold.  For an entry with well-formed instants
    and [uint32] TTLs, the entry is not expired at its creation instant
    plus its minimum TTL, it is expired one nanosecond later, and once it
    is expired it is expired at every later instant: only a new insert
    makes the key fresh again. *)
Theorem X22_expiry_threshold (v : Value) (now now' : time.Time) :
  time.wf_Time (CreatedAt v) -> wf_Msg (msg v) ->
  time.wf_Time now -> time.wf_Time now' ->
  let ttl := dnsutil.MinTTL_seconds (msg v) in
  let expiresAt := time.mkTime (time.sec (CreatedAt v) + ttl)
                               (time.nsec (CreatedAt v)) in
  isExpired expiresAt v = false /\
  (time.nanos now = time.nanos expiresAt + 1 -> isExpired now v = true) /\
  (isExpired now v = true -> time.nanos now <= time.nanos now' ->
   isExpired now' v = true).
Proof.
  intros Hcr Hm Hnow Hnow' ttl expiresAt.
  pose proof (dnsutil_facts.MinTTL_seconds_range _ Hm) as Hr.
  assert (Hadd : time.Add (CreatedAt v) (dnsutil.MinTTL (msg v)) = expiresAt).
  { rewrite (dnsutil_facts.MinTTL_exact _ Hm).
    apply time_facts.Add_seconds; [exact Hcr | lia]. }
  assert (Hwf : time.wf_Time expiresAt) by exact Hcr.
  assert (Hiff : forall t, time.wf_Time t ->
                           isExpired t v = true <-> time.nanos expiresAt < time.nanos t).
  { intros t Ht. unfold isExpired. rewrite Hadd.
    apply time_facts.After_nanos; assumption. }
  split; [| split].
  - destruct (isExpired expiresAt v) eqn:He; [| reflexivity].
    apply (Hiff expiresAt Hwf) in He. lia.
  - intros Heq. apply (Hiff now Hnow). lia.
  - intros He Hle. apply (Hiff now Hnow) in He. apply (Hiff now' Hnow'). lia.
Qed.

(** X22 at an entry of TTL 300 created at 1000.5 s. *)
Lemma X22_expiry_threshold_witness :
  let v := mkValue 5 (time.mkTime 1000 500000000)
                   (samples.replyA "example.com." 300) in
  let now := time.mkTime 1300 500000001 in
  let now' := time.mkTime 1400 0 in
  let ttl := dnsutil.MinTTL_seconds (msg v) in
  let expiresAt := time.mkTime (time.sec (CreatedAt v) + ttl)
                               (time.nsec (CreatedAt v)) in
  isExpired expiresAt v = false /\
  (time.nanos now = time.nanos expiresAt + 1 -> isExpired now v = true) /\
  (isExpired now v = true -> time.nanos now <= time.nanos now' ->
   isExpired now' v = true).
Proof.
  intros v now now'.
  apply (X22_expiry_threshold v now now').
  - unfold time.wf_Time. simpl. lia.
  - unfold wf_Msg, is_uint32. simpl. repeat constructor; simpl; lia.
  - unfold time.wf_Time. simpl. lia.
  - unfold time.wf_Time. simpl. lia.
Defined.

End cache_props.

(** ** Further properties of [dnsutil] *)

Module dnsutil_props.
Import dns dnsutil inv ttl ttl_facts.

(** X13. [MinTTL] is the minimum.  For a message whose TTLs are [uint32]
    values, the duration returned is a whole number [s] of seconds, without
    overflow, where [s] is at most 2^31 - 1, at most the TTL of every
    record of the answer and authority sections and of every record of the
    additional section that is not an OPT record, and either 2^31 - 1 or
    the TTL of one of those records.  OPT records never lower it. *)
Theorem X13_MinTTL_is_minimum (m : Msg) :
  wf_Msg m ->
  let s := MinTTL_seconds m in
  MinTTL m = s * 1000000000 /\
  0 <= s <= 2 ^ 31 - 1 /\
  (forall rr, rr ∈ counted m -> s <= Ttl (Header rr)) /\
  (s = 2 ^ 31 - 1 \/ exists rr, rr ∈ counted m /\ s = Ttl (Header rr)).
Proof.
  intros Hwf s.
  split; [apply (dnsutil_facts.MinTTL_exact m Hwf) |].
  split; [apply (dnsutil_facts.MinTTL_seconds_range m Hwf) |].
  unfold s, MinTTL_seconds, counted.
  set (t1 := min_section false (2 ^ 31 - 1) (Answer m)).
  set (t2 := min_section false t1 (Ns m)).
  destruct (min_section_spec false (Answer m) (2 ^ 31 - 1)) as (H1 & A1 & O1).
  destruct (min_section_spec false (Ns m) t1) as (H2 & A2 & O2).
  destruct (min_section_spec true (Extra m) t2) as (H3 & A3 & O3).
  simpl in *. fold t1 in H1, A1, O1. fold t2 in H2, A2, O2.
  split.
  - intros rr Hrr. rewrite !elem_of_app in Hrr.
    destruct Hrr as [Hrr | [Hrr | Hrr]].
    + specialize (A1 rr Hrr). lia.
    + specialize (A2 rr Hrr). lia.
    + apply (A3 rr Hrr).
  - destruct O3 as [-> | (rr & Hrr & ->)].
    2:{ right. exists rr. rewrite !elem_of_app. auto. }
    destruct O2 as [-> | (rr & Hrr & ->)].
    2:{ right. exists rr. rewrite !elem_of_app. auto. }
    destruct O1 as [-> | (rr & Hrr & ->)].
    2:{ right. exists rr. rewrite !elem_of_app. auto. }
    left. reflexivity.
Qed.

(** X13 at a reply with an answer of TTL 300, an authority record of TTL
    60 and an OPT record whose TTL field is 0. *)
Lemma X13_MinTTL_is_minimum_witness :
  let m := mkMsg 0 [mkQuestion "a.test." 1 1]
                 [mkRR (mkHeader "a.test." 1 1 300)]
                 [mkRR (mkHeader "test." 2 1 60)]
                 [mkRR (mkHeader "." 41 4096 0)] in
  let s := MinTTL_seconds m in
  MinTTL m = s * 1000000000 /\
  0 <= s <= 2 ^ 31 - 1 /\
  (forall rr, rr ∈ counted m -> s <= Ttl (Header rr)) /\
  (s = 2 ^ 31 - 1 \/ exists rr, rr ∈ counted m /\ s = Ttl (Header rr)).
Proof.
  intros m.
  apply (X13_MinTTL_is_minimum m).
  unfold wf_Msg, is_uint32. simpl. repeat constructor; simpl; lia.
Defined.

End dnsutil_props.

Module resolver_props.
Import dns resolver.





End resolver_props.

(** ** Further properties of the cache key *)

Module key_props.
Import fnv binary key key_facts.

(** X14. [NewKey] tells query types and classes apart.  The key is a
    [uint32].  For one name and one class, two different query types that
    agree in their high byte or in their low byte, as any two types below
    256 do, never get the same key; likewise for one name and one type and
    two such classes.  An A and an AAAA entry of a name never collide. *)
Theorem X14_NewKey_separates_types (name : string) (q q' other : Z) :
  is_uint16 q -> is_uint16 q' -> q <> q' ->
  q / 256 = q' / 256 \/ q mod 256 = q' mod 256 ->
  is_uint32 (NewKey name q other) /\
  NewKey name q other <> NewKey name q' other /\
  NewKey name other q <> NewKey name other q'.
Proof.
  intros Hq Hq' Hne Hcase.
  pose proof (BigEndian_differs q q' Hq Hq' Hne Hcase) as Hbytes.
  simpl in Hbytes.
  pose proof (bytes_uint32 name) as H0.
  assert (Hb : forall v, is_byte (Z.shiftr v 8 mod 256) /\ is_byte (v mod 256)).
  { intros v. unfold is_byte. split; apply Z.mod_pos_bound; lia. }
  unfold NewKey. split; [| split].
  - apply Write_uint32, Write_uint32, H0.
  - intros Heq.
    apply Write_inj_hash in Heq;
      [| apply Write_uint32, H0 .. | apply BigEndian_bytes].
    revert Heq. apply Write_pair_differs; try apply Hb; assumption.
  - apply Write_pair_differs; try apply Hb; try assumption.
    apply Write_uint32, H0.
Qed.

(** X14 at the types A and AAAA of one name in class IN. *)
Lemma X14_NewKey_separates_types_witness :
  is_uint32 (NewKey "example.com." 1 1) /\
  NewKey "example.com." 1 1 <> NewKey "example.com." 28 1 /\
  NewKey "example.com." 1 1 <> NewKey "example.com." 1 28.
Proof.
  apply (X14_NewKey_separates_types "example.com." 1 28 1).
  - unfold is_uint16. lia.
  - unfold is_uint16. lia.
  - lia.
  - left. reflexivity.
Defined.

End key_props.

(** ** Further properties of the persisted entry format *)

Module wire_props.
Import dns cache text wire wire_facts.

Lemma parse_digits_nonneg (s : string) (n : Z) :
  strconv.parse_digits s = Some n -> 0 <= n.
Proof.
  unfold strconv.parse_digits.
  destruct (NilZero.uint_of_string s) as [d |]; [| discriminate].
  simpl. intros [= <-]. unfold Z.of_uint. apply N2Z.is_nonneg.
Qed.

Lemma ParseUint_range (s : string) (bitSize n : Z) :
  strconv.ParseUint s bitSize = Some n -> 0 <= n < 2 ^ bitSize.
Proof.
  unfold strconv.ParseUint.
  destruct (strconv.parse_digits s) as [u |] eqn:Hu; [| discriminate].
  apply parse_digits_nonneg in Hu. simpl.
  destruct (Z.ltb_spec u (2 ^ bitSize)); [| discriminate].
  intros [= <-]. lia.
Qed.

Lemma ParseInt_range (s : string) (i : Z) :
  strconv.ParseInt s 64 = Some i -> is_int64 i.
Proof.
  unfold strconv.ParseInt, is_int64. destruct s as [| c s']; [discriminate |].
  destruct (strconv.parse_digits _) as [un |] eqn:Hu; [| discriminate].
  apply parse_digits_nonneg in Hu. cbn [mbind option_bind].
  change (64 - 1) with 63.
  destruct (Ascii.eqb c "-"); cbn [negb andb].
  - destruct (2 ^ 63 <? un) eqn:E; [intros [=] |].
    intros [= <-]. apply Z.ltb_ge in E. lia.
  - destruct (2 ^ 63 <=? un) eqn:E; [intros [=] |].
    intros [= <-]. apply Z.leb_gt in E. lia.
Qed.

(** X15. What [Unpack] accepts is well formed.  Every value that [Unpack]
    returns has a key in the range of [uint32] and a creation instant of
    whole seconds in the range of [int64]; the line it came from has at
    least three fields, and the message is one that the wire codec
    unpacked from the data of the third field. *)
Theorem X15_Unpack_wellformed
  (msg_Unpack : list ascii -> option Msg) (line : string) (v : Value) :
  Unpack msg_Unpack line = Some v ->
  is_uint32 (Key v) /\
  is_int64 (time.sec (CreatedAt v)) /\ time.nsec (CreatedAt v) = 0 /\
  exists f0 f1 f2 rest data,
    strings.Fields line = f0 :: f1 :: f2 :: rest /\
    hex.DecodeString f2 = Some data /\ msg_Unpack data = Some (msg v).
Proof.
  intros H.
  destruct (strings.Fields line) as [| f0 [| f1 [| f2 rest]]] eqn:Hf;
    try (rewrite Unpack_short in H by (rewrite Hf; simpl; lia); discriminate H).
  rewrite (Unpack_fields msg_Unpack line f0 f1 f2 rest Hf) in H.
  destruct (strconv.ParseUint f0 32) as [key |] eqn:Hkey;
    simpl in H; [| discriminate H].
  destruct (strconv.ParseInt f1 64) as [secs |] eqn:Hsecs;
    simpl in H; [| discriminate H].
  destruct (hex.DecodeString f2) as [data |] eqn:Hdata;
    simpl in H; [| discriminate H].
  destruct (msg_Unpack data) as [m |] eqn:Hm;
    simpl in H; [| discriminate H].
  injection H as <-. simpl.
  split; [apply (ParseUint_range f0 32 key Hkey) |].
  split; [apply (ParseInt_range f1 secs Hsecs) |].
  split; [reflexivity |].
  exists f0, f1, f2, rest, data. auto.
Qed.

(** X15 at a line with surrounding white space, leading zeros, a negative
    second, upper-case digits and a fourth field. *)
Lemma X15_Unpack_wellformed_witness :
  let v := mkValue 42 (time.mkTime (-17) 0) (mkMsg 3 [] [] [] []) in
  is_uint32 (Key v) /\
  is_int64 (time.sec (CreatedAt v)) /\ time.nsec (CreatedAt v) = 0 /\
  exists f0 f1 f2 rest data,
    strings.Fields "  0042 -17 00008F030000000000000000 more " = f0 :: f1 :: f2 :: rest /\
    hex.DecodeString f2 = Some data /\
    samples.header_Unpack data = Some (msg v).
Proof.
  intros v.
  apply (X15_Unpack_wellformed samples.header_Unpack
           "  0042 -17 00008F030000000000000000 more " v).
  vm_compute. reflexivity.
Defined.

End wire_props.

(** ** Further properties of the server *)

Module server_props.
Import zdns_dns zdns filters server_facts.

(** X17. [nonFqdn] strips one trailing dot and nothing else: a name
    followed by a dot gives the name back, a string that does not end in a
    dot is returned as it is, and in every case the argument is the result
    or the result followed by a dot.  Of two trailing dots one stays. *)
Theorem X17_nonFqdn_strips_one_dot (s : string) :
  nonFqdn (String.append s ".") = s /\
  ((forall s', s <> String.append s' ".") -> nonFqdn s = s) /\
  (s = nonFqdn s \/ s = String.append (nonFqdn s) ".").
Proof.
  split; [apply nonFqdn_dot |]. split.
  - intros Hnodot. destruct (nonFqdn_cases s) as [[Heq _] | Hdot]; [exact Heq |].
    exfalso. apply (Hnodot (nonFqdn s)). exact Hdot.
  - destruct (nonFqdn_cases s) as [[Heq _] | Hdot]; [left | right]; auto.
Qed.

(** X18. When [hijack] answers, whatever rule the lookup of the hosts
    map applies to the name.  [hijack] is [hijack_with] at [Hosts.Get].
    In the three hijack modes and for every lookup, [hijack_with] returns
    a reply exactly for the requests of type A or AAAA for which the
    lookup, given the name less one trailing dot, finds an entry; for
    every other type and whenever the lookup finds nothing it returns nil,
    and so the request goes upstream.  The lookup is given the same name
    for a request name with and without a trailing dot. *)
Theorem X18_hijack_decision
  (get : hosts.Hosts -> string -> option (list net.IPAddr))
  (s : Server) (r : Request) :
  hijackMode s = HijackZero \/ hijackMode s = HijackEmpty \/
  hijackMode s = HijackHosts ->
  hijack s r = lookup.hijack_with hosts.Get s r /\
  (is_Some (lookup.hijack_with get s r) <->
   (Type_ r = TypeA \/ Type_ r = TypeAAAA) /\
   is_Some (get (hosts_ s) (nonFqdn (Name r)))) /\
  (is_Some (lookup.hijack_with get s
              (mkRequest (Type_ r) (String.append (Name r) "."))) <->
   (Type_ r = TypeA \/ Type_ r = TypeAAAA) /\
   is_Some (get (hosts_ s) (Name r))).
Proof.
  intros Hmode. split; [reflexivity |].
  assert (Hgen : forall r', is_Some (lookup.hijack_with get s r') <->
            (Type_ r' = TypeA \/ Type_ r' = TypeAAAA) /\
            is_Some (get (hosts_ s) (nonFqdn (Name r')))).
  { intros r'. unfold lookup.hijack_with.
    destruct (Z.eqb_spec (Type_ r') TypeA) as [HA | HA];
      destruct (Z.eqb_spec (Type_ r') TypeAAAA) as [H4 | H4]; simpl.
    - rewrite HA in H4. discriminate H4.
    - destruct (get (hosts_ s) (nonFqdn (Name r'))) as [ips |].
      + destruct Hmode as [-> | [-> | ->]]; simpl;
          try destruct (split_families ips); split; eauto.
      + split; [intros [? [=]] | intros [_ [? [=]]]].
    - destruct (get (hosts_ s) (nonFqdn (Name r'))) as [ips |].
      + destruct Hmode as [-> | [-> | ->]]; simpl;
          try destruct (split_families ips); split; eauto.
      + split; [intros [? [=]] | intros [_ [? [=]]]].
    - split; [intros [? [=]] | intros [[? | ?] _]; contradiction]. }
  split; [apply Hgen |].
  rewrite Hgen. simpl. rewrite nonFqdn_dot. reflexivity.
Qed.

(** X18 at scenario 4 of the specification, with the lookup that
    lowercases the name: an A request for ADS.EXAMPLE. is hijacked with
    ads.example listed, an MX request for it is not. *)
Lemma X18_hijack_decision_witness :
  let s := samples.ads_server in
  is_Some (lookup.hijack_with lookup.GetFold s (mkRequest TypeA "ADS.EXAMPLE.")) /\
  lookup.hijack_with lookup.GetFold s (mkRequest 15 "ADS.EXAMPLE.") = None /\
  hijack s (mkRequest TypeA "ads.example.") =
    lookup.hijack_with hosts.Get s (mkRequest TypeA "ads.example.").
Proof.
  intros s.
  assert (Hmode : hijackMode s = HijackZero \/ hijackMode s = HijackEmpty \/
                  hijackMode s = HijackHosts) by (right; right; reflexivity).
  split; [| split].
  - apply (X18_hijack_decision lookup.GetFold s
             (mkRequest TypeA "ADS.EXAMPLE.") Hmode).
    split; [left; reflexivity | vm_compute; eauto].
  - destruct (lookup.hijack_with lookup.GetFold s (mkRequest 15 "ADS.EXAMPLE."))
      as [reply |] eqn:Hr; [| reflexivity].
    exfalso.
    destruct (X18_hijack_decision lookup.GetFold s
                (mkRequest 15 "ADS.EXAMPLE.") Hmode) as (_ & [Hdec _] & _).
    rewrite Hr in Hdec. destruct Hdec as [[Ht | Ht] _]; [eauto | |];
      discriminate Ht.
  - apply (X18_hijack_decision hosts.Get s (mkRequest TypeA "ads.example.") Hmode).
Defined.

(** X19. The zero and empty modes do not look at the configured
    addresses.  For a hijacked request, zero mode answers an A request with
    the single address 0.0.0.0 and an AAAA request with the single address
    [::], sixteen zero bytes without a four-byte form; empty mode answers
    both with a reply whose answer section is empty. *)
Theorem X19_hijack_zero_and_empty
  (s : Server) (r : Request) (ipAddrs : list net.IPAddr) :
  hosts_ s !! nonFqdn (Name r) = Some ipAddrs ->
  Type_ r = TypeA \/ Type_ r = TypeAAAA ->
  (hijackMode s = HijackEmpty -> hijack s r = Some (mkReply [])) /\
  (hijackMode s = HijackZero ->
   exists ip,
     hijack s r = Some (mkReply [mkAnswer (Name r) (Type_ r) ip]) /\
     Forall (fun c => c = Ascii.zero) (default ip (net.To4 ip)) /\
     (Type_ r = TypeA -> length <$> net.To4 ip = Some 4%nat) /\
     (Type_ r = TypeAAAA -> net.To4 ip = None /\ length ip = 16%nat)).
Proof.
  intros Hget Htype. unfold hijack, hosts.Get. rewrite Hget. split.
  - intros ->. destruct Htype as [-> | ->]; reflexivity.
  - intros ->. destruct Htype as [Ht | Ht]; rewrite Ht; simpl.
    + exists net.IPv4zero. split; [reflexivity |].
      split; [repeat constructor |]. split; [reflexivity | discriminate].
    + exists net.IPv6zero. split; [reflexivity |].
      split; [repeat constructor |]. split; [discriminate | split; reflexivity].
Qed.

(** X19 at the A request of scenario 4. *)
Lemma X19_hijack_zero_and_empty_witness :
  let s := mkServer HijackZero (hosts_ samples.ads_server) in
  let r := mkRequest TypeA "ads.example." in
  (hijackMode s = HijackEmpty -> hijack s r = Some (mkReply [])) /\
  (hijackMode s = HijackZero ->
   exists ip,
     hijack s r = Some (mkReply [mkAnswer (Name r) (Type_ r) ip]) /\
     Forall (fun c => c = Ascii.zero) (default ip (net.To4 ip)) /\
     (Type_ r = TypeA -> length <$> net.To4 ip = Some 4%nat) /\
     (Type_ r = TypeAAAA -> net.To4 ip = None /\ length ip = 16%nat)).
Proof.
  intros s r.
  apply (X19_hijack_zero_and_empty s r
           [net.mkIPAddr (net.IPv4 1 2 3 4) EmptyString]).
  - vm_compute. reflexivity.
  - left. reflexivity.
Defined.

(** X20. The last filter that lists a name decides.  After [loadHosts],
    a name is in the hosts map with the addresses [ipAddrs] exactly when
    some reject filter whose hosts could be obtained lists it with those
    addresses and no later filter whose hosts could be obtained lists it at
    all.  So a later allow filter removes a name, a later reject filter
    replaces its addresses, a filter that cannot be read changes nothing,
    and what the server held before the reload plays no part.  The hijack
    mode is untouched. *)
Theorem X20_loadHosts_last_filter_decides
  (readHosts : string -> option hosts.Hosts) (fs : list Filter) (s : Server)
  (name : string) (ipAddrs : list net.IPAddr) :
  hijackMode (loadHosts readHosts fs s) = hijackMode s /\
  (hosts_ (loadHosts readHosts fs s) !! name = Some ipAddrs <->
   exists l1 f l2 hs1,
     fs = l1 ++ f :: l2 /\ Reject f = true /\
     source readHosts f = Some hs1 /\ hs1 !! name = Some ipAddrs /\
     forall g hs2, g ∈ l2 -> source readHosts g = Some hs2 -> hs2 !! name = None).
Proof.
  split; [reflexivity |]. unfold loadHosts. simpl.
  induction fs as [| f0 l IH] using rev_ind.
  - simpl. rewrite lookup_empty. split; [discriminate |].
    intros (l1 & f & l2 & hs1 & Heq & _). destruct l1; discriminate Heq.
  - rewrite fold_left_app. simpl. rewrite lookup_apply_filter. split.
    + intros Hlook.
      assert (Hprev : fold_left (apply_filter readHosts) l ∅ !! name = Some ipAddrs ->
                      (forall hs2, source readHosts f0 = Some hs2 -> hs2 !! name = None) ->
                      exists l1 f l2 hs1,
                        l ++ [f0] = l1 ++ f :: l2 /\ Reject f = true /\
                        source readHosts f = Some hs1 /\ hs1 !! name = Some ipAddrs /\
                        forall g hs2, g ∈ l2 -> source readHosts g = Some hs2 ->
                                      hs2 !! name = None).
      { intros Hp Hf0. apply IH in Hp as (l1 & f & l2 & hs1 & -> & Hr & Hs & Hn & Hlater).
        exists l1, f, (l2 ++ [f0]), hs1.
        split; [rewrite <- app_assoc; reflexivity |].
        split; [exact Hr |]. split; [exact Hs |]. split; [exact Hn |].
        intros g hs2 Hg Hsg. apply elem_of_app in Hg as [Hg | Hg].
        - apply (Hlater g hs2 Hg Hsg).
        - apply list_elem_of_singleton in Hg. subst g. apply Hf0. exact Hsg. }
      destruct (source readHosts f0) as [hs1 |] eqn:Hsrc.
      * destruct (hs1 !! name) as [ips |] eqn:Hn.
        -- destruct (Reject f0) eqn:Hr; [| discriminate Hlook].
           injection Hlook as ->.
           exists l, f0, [], hs1. repeat split; try assumption.
           intros g hs2 Hg. inversion Hg.
        -- apply Hprev; [exact Hlook |]. intros hs2 [= <-]. exact Hn.
      * apply Hprev; [exact Hlook |]. intros hs2 [=].
    + intros (l1 & f & l2 & hs1 & Heq & Hr & Hs & Hn & Hlater).
      induction l2 as [| x l2' _] using rev_ind.
      * apply app_inj_tail in Heq as [-> ->].
        rewrite Hs, Hn, Hr. reflexivity.
      * rewrite app_comm_cons, app_assoc in Heq.
        apply app_inj_tail in Heq as [-> ->].
        assert (Hp : fold_left (apply_filter readHosts) (l1 ++ f :: l2') ∅ !! name
                     = Some ipAddrs).
        { apply IH. exists l1, f, l2', hs1. repeat split; try assumption.
          intros g hs2 Hg. apply Hlater. apply elem_of_app. left. exact Hg. }
        destruct (source readHosts x) as [hs2 |] eqn:Hsx; [| exact Hp].
        rewrite (Hlater x hs2); [exact Hp | | exact Hsx].
        apply elem_of_app. right. left.
Qed.

End server_props.
